(** * alabEBM: the Metropolis-Hastings ordering sampler and its KDE engine

    A shallow embedding of
      - [alabEBM/utils/fast_kde.py]      (kernel density estimator, batched
                                         likelihood evaluator, EM weight updater),
      - [alabEBM/algorithms/algorithm.py] (the sampler [metropolis_hastings]),
      - [alabEBM/run.py]                  (the entry point [run_ebm]),
      - [alabEBM/tests/test.py]           (the loops of the test script),
    followed by the properties established about them.

    Numbers.  A [float64] that the code computes with is modelled by an exact
    rational ([Qc], canonical fractions, so that Python's [==] on numbers is
    Leibniz equality).  Rounding is therefore outside the model.  Where the
    code relies on the non-finite values (the sampler starts from [-np.inf],
    [np.log] of a non-positive number) the type [float] adds [NaN] and the two
    infinities with their IEEE-754 arithmetic.  [np.exp], [np.log], [np.std]'s
    square root and the power [** (1/5)] are not rational functions: they are
    the fields of the class [NumPy], and every statement below holds for every
    implementation of them. *)

From Stdlib Require Import QArith Qcanon Qcabs ZArith Lia Ascii.
From stdpp Require Import base numbers list strings gmap sorting.

Set Default Proof Using "Type".
Local Open Scope Qc_scope.

(** ** Exceptions and results *)

(** The Python exceptions that the modelled code can raise.  [External] is
    whatever a collaborator outside the modelled files raised. *)
Inductive exn : Type :=
  | ZeroDivisionError
  | IndexError
  | KeyError
  | ValueError (msg : string)
  | UnboundLocalError (name : string)
  | TypeError (msg : string)
  | External (what : string).

Inductive result (A : Type) : Type :=
  | Ok (a : A)
  | Err (e : exn).
Arguments Ok {A} a.
Arguments Err {A} e.

#[global] Instance result_ret : MRet result := λ A a, Ok a.
#[global] Instance result_bind : MBind result := λ A B f m,
  match m with Ok a => f a | Err e => Err e end.
#[global] Instance result_fmap : FMap result := λ A B f m,
  match m with Ok a => Ok (f a) | Err e => Err e end.

Definition is_Ok {A} (r : result A) : Prop := ∃ a, r = Ok a.

(** [d[k]] on a dict. *)
Definition dict_get `{Countable K} {V} (d : gmap K V) (k : K) : result V :=
  match d !! k with Some v => Ok v | None => Err KeyError end.

(** [a[i]] and [a[i] = v] on an array. *)
Definition array_get {A} (a : list A) (i : nat) : result A :=
  match a !! i with Some v => Ok v | None => Err IndexError end.

Definition array_set {A} (a : list A) (i : nat) (v : A) : result (list A) :=
  if bool_decide (i < length a)%nat then Ok (<[i:=v]> a) else Err IndexError.

(** A Python object with its identity.  The interpreter hands out identities
    from a counter, so an object built later differs from every earlier one. *)
Record object (A : Type) : Type := { id : nat; value : A }.
Arguments id {A} o.
Arguments value {A} o.

Definition new_object {A} (next_id : nat) (v : A) : object A * nat :=
  ({| id := next_id; value := v |}, S next_id).

(** ** Numbers *)

Module Numeric.

Definition qc (n : Z) (d : positive) : Qc := Q2Qc (n # d).
Definition of_nat (n : nat) : Qc := Q2Qc (inject_Z (Z.of_nat n)).

(** The transcendental part of NumPy, on finite arguments. *)
Class NumPy : Type := {
  exp_fin : Qc → Qc;        (* np.exp x *)
  log_pos : Qc → Qc;        (* np.log x, for 0 < x *)
  sqrt_fin : Qc → Qc;       (* np.sqrt x, for 0 <= x *)
  fifth_root : Qc → Qc;     (* x ** (1/5) *)
}.

(** Floating-point values including the non-finite ones. *)
Inductive float : Type :=
  | NaN
  | NegInf
  | PosInf
  | Fin (q : Qc).

#[global] Instance float_eq_dec : EqDecision float.
Proof. solve_decision. Defined.

Definition is_finite (x : float) : bool :=
  match x with Fin _ => true | _ => false end.

(** [x + y] *)
Definition fadd (x y : float) : float :=
  match x, y with
  | NaN, _ | _, NaN => NaN
  | PosInf, NegInf | NegInf, PosInf => NaN
  | PosInf, _ | _, PosInf => PosInf
  | NegInf, _ | _, NegInf => NegInf
  | Fin a, Fin b => Fin (a + b)
  end.

(** [x - y] *)
Definition fsub (x y : float) : float :=
  match x, y with
  | NaN, _ | _, NaN => NaN
  | PosInf, PosInf | NegInf, NegInf => NaN
  | PosInf, _ | _, NegInf => PosInf
  | NegInf, _ | _, PosInf => NegInf
  | Fin a, Fin b => Fin (a - b)
  end.

(** [x < y]; every comparison with [NaN] is false. *)
Definition flt (x y : float) : bool :=
  match x, y with
  | NaN, _ | _, NaN => false
  | _, NegInf | PosInf, _ => false
  | NegInf, _ | _, PosInf => true
  | Fin a, Fin b => bool_decide (a < b)
  end.

(** [x > y] *)
Definition fgt (x y : float) : bool := flt y x.

Section Transcendental.
Context `{!NumPy}.

Definition np_exp (x : float) : float :=
  match x with
  | NaN => NaN
  | NegInf => Fin 0
  | PosInf => PosInf
  | Fin q => Fin (exp_fin q)
  end.

Definition np_log (x : float) : float :=
  match x with
  | NaN | NegInf => NaN
  | PosInf => PosInf
  | Fin q => if bool_decide (0 < q) then Fin (log_pos q)
             else if bool_decide (q = 0) then NegInf else NaN
  end.
End Transcendental.

(** [np.sum] of a one-dimensional array. *)
Definition np_sum (a : list Qc) : Qc := foldl Qcplus 0 a.

(** [np.mean]: the mean of an empty array is [nan]. *)
Definition np_mean (a : list Qc) : float :=
  match a with
  | [] => NaN
  | _ => Fin (np_sum a / of_nat (length a))
  end.

(** Python's [max(a, b)]: the first argument unless the second is greater. *)
Definition py_max (a b : Qc) : Qc := if bool_decide (a < b) then b else a.

(** Binary operators on arrays broadcast a one-element array. *)
Definition np_sub (a b : list Qc) : result (list Qc) :=
  if bool_decide (length a = length b) then Ok (zip_with Qcminus a b)
  else match a, b with
       | x :: nil, _ => Ok ((λ y, x - y) <$> b)
       | _, y :: nil => Ok ((λ x, x - y) <$> a)
       | _, _ => Err (ValueError "operands could not be broadcast together")
       end.

Definition np_abs (a : list Qc) : list Qc := Qcabs <$> a.

End Numeric.
Export Numeric.

(** ** [alabEBM/utils/fast_kde.py] *)

Module FastKde.
Section WithNumPy.
Context `{!NumPy}.

Definition EPSILON : Qc := qc 1 10000000000.
Definition SQRT_2PI : Qc := qc 3989422804014327 10000000000000000.

Definition gaussian_kernel (x xi bandwidth : Qc) : Qc :=
  let u := (x - xi) / bandwidth in
  SQRT_2PI * exp_fin (- qc 1 2 * u * u) / bandwidth.

(** [for i in prange(len(samples)): result += weights[i] * gaussian_kernel(...)].
    The two arrays have one length at every call site. *)
Definition weighted_kde_evaluate (x : Qc) (samples weights : list Qc)
    (bandwidth : Qc) : Qc :=
  foldl (λ result sw, result + sw.2 * gaussian_kernel x sw.1 bandwidth)
        0 (zip samples weights).

Definition batch_weighted_kde_evaluate (points samples weights : list Qc)
    (bandwidth : Qc) : list Qc :=
  (λ p, weighted_kde_evaluate p samples weights bandwidth) <$> points.

(** *** class FastKDE *)

Record FastKDE : Type := {
  data : list Qc;
  weights : list Qc;
  bandwidth : Qc;
  tree : list Qc;             (* cKDTree over the sample points *)
  _cache : gmap Qc Qc;
}.

Inductive bandwidth_arg : Type :=
  | Silverman
  | Bandwidth (b : Qc).

(** [np.std]: the population standard deviation. *)
Definition np_std (a : list Qc) : Qc :=
  let n := of_nat (length a) in
  let mean := np_sum a / n in
  sqrt_fin (np_sum ((λ x, Qcabs (x - mean) * Qcabs (x - mean)) <$> a) / n).

(** [FastKDE.__init__] *)
Definition FastKDE_new (data : list Qc) (weights : option (list Qc))
    (bandwidth : bandwidth_arg) : result FastKDE :=
  let weights :=
    match weights with
    | None => replicate (length data) 1
    | Some w => w
    end in
  let weight_sum := np_sum weights in
  let weights :=
    if bool_decide (0 < weight_sum) then (λ w, w / weight_sum) <$> weights
    else weights in
  bw ← match bandwidth with
       | Silverman =>
           let n := length data in
           let sigma := py_max (np_std data) (qc 1 1000000) in
           if bool_decide (n = 0%nat) then Err ZeroDivisionError
           else Ok (sigma * fifth_root (qc 4 1 / (qc 3 1 * of_nat n)))
       | Bandwidth b => Ok (py_max b (qc 1 1000000))
       end;
  Ok {| data := data; weights := weights; bandwidth := bw;
        tree := data; _cache := ∅ |}.

(** [tree.query_ball_point(x, r)]: the positions of the sample points at
    distance at most [r] from [x].  SciPy does not fix the order of the
    positions; they are listed here in increasing order, and over exact
    numbers the kernel sum does not depend on it. *)
Definition query_ball_point (tree : list Qc) (x r : Qc) : list nat :=
  (filter (λ p, Qcabs (p.2 - x) ≤ r) (imap pair tree)).*1.

(** The statements that both branches of [evaluate] repeat for one point:
    [indices = self.tree.query_ball_point(x, 3 * self.bandwidth)], then, if
    [indices] is not empty, [weighted_kde_evaluate(x, self.data[indices],
    self.weights[indices], self.bandwidth)].  [None]: no neighbour, nothing
    is written. *)
Definition neighbour_density (self : FastKDE) (x : Qc) : result (option Qc) :=
  let indices := query_ball_point (tree self) x (qc 3 1 * bandwidth self) in
  match indices with
  | [] => Ok None
  | _ =>
      d ← mapM (array_get (data self)) indices;
      w ← mapM (array_get (weights self)) indices;
      Ok (Some (weighted_kde_evaluate x d w (bandwidth self)))
  end.

(** [for i, x in enumerate(points)] of the branch [len(points) <= 10];
    [i] is the position of the head of [points]. *)
Fixpoint evaluate_small (self : FastKDE) (i : nat) (points results : list Qc)
    (cache : gmap Qc Qc) : result (list Qc) * gmap Qc Qc :=
  match points with
  | [] => (Ok results, cache)
  | x :: points =>
      match cache !! x with
      | Some v => evaluate_small self (S i) points (<[i:=v]> results) cache
      | None =>
          match neighbour_density self x with
          | Err e => (Err e, cache)
          | Ok None => evaluate_small self (S i) points results cache
          | Ok (Some v) =>
              evaluate_small self (S i) points (<[i:=v]> results)
                (if bool_decide (size cache < 1000)%nat
                 then <[x:=v]> cache else cache)
          end
      end
  end.

(** [for j, x in enumerate(chunk)] of the other branch; the chunk starts at
    position [i] and [j] is the position of the head of [chunk] in it. *)
Fixpoint evaluate_chunk (self : FastKDE) (i j : nat) (chunk results : list Qc)
    : result (list Qc) :=
  match chunk with
  | [] => Ok results
  | x :: chunk =>
      r ← neighbour_density self x;
      match r with
      | None => evaluate_chunk self i (S j) chunk results
      | Some v => evaluate_chunk self i (S j) chunk (<[(i + j)%nat:=v]> results)
      end
  end.

(** [range(0, stop, step)] *)
Fixpoint py_range_from (fuel start stop step : nat) : list nat :=
  match fuel with
  | O => []
  | S fuel =>
      if bool_decide (start < stop)%nat
      then start :: py_range_from fuel (start + step) stop step
      else []
  end.
Definition py_range (stop step : nat) : list nat := py_range_from stop 0 stop step.

(** [for i in range(0, len(points), chunk_size)] *)
Fixpoint evaluate_chunks (self : FastKDE) (chunk_size : nat) (starts : list nat)
    (points results : list Qc) : result (list Qc) :=
  match starts with
  | [] => Ok results
  | i :: starts =>
      let chunk := take chunk_size (drop i points) in
      results ← evaluate_chunk self i 0 chunk results;
      evaluate_chunks self chunk_size starts points results
  end.

Definition evaluate_large (self : FastKDE) (points : list Qc) : result (list Qc) :=
  let results := replicate (length points) 0 in
  let chunk_size := 1000%nat in
  evaluate_chunks self chunk_size (py_range (length points) chunk_size)
    points results.

Definition set_cache (self : FastKDE) (cache : gmap Qc Qc) : FastKDE :=
  {| data := data self; weights := weights self; bandwidth := bandwidth self;
     tree := tree self; _cache := cache |}.

(** [FastKDE.evaluate]: the densities, and the instance with its cache as
    the call leaves it. *)
Definition evaluate (self : FastKDE) (points : list Qc)
    : result (list Qc) * FastKDE :=
  let results := replicate (length points) 0 in
  if bool_decide (length points ≤ 10)%nat then
    let '(r, cache) := evaluate_small self 0 points results (_cache self) in
    (r, set_cache self cache)
  else (evaluate_large self points, self).

(** [np.maximum(a, EPSILON)] on one entry. *)
Definition np_maximum (a b : Qc) : Qc := if bool_decide (a < b) then b else a.

(** [FastKDE.logpdf] *)
Definition logpdf (self : FastKDE) (points : list Qc)
    : result (list float) * FastKDE :=
  let '(r, self) := evaluate self points in
  (fmap (M:=result)
     (λ densities : list Qc,
        (λ d, np_log (Fin (np_maximum d EPSILON))) <$> densities) r,
   self).

(** [FastKDE.__eq__] against another [FastKDE]. *)
Definition FastKDE_eq (self other : FastKDE) : bool :=
  bool_decide (data self = data other)
  && bool_decide (weights self = weights other)
  && bool_decide (bandwidth self = bandwidth other).

(** *** The batched likelihood evaluator *)

(** The inner loop of [_compute_kde_logpdf]:
    [for j in range(len(data)): if data[j] == 0: break; pdf += ...].
    Both rows come from arrays of one shape. *)
Fixpoint padded_kernel_sum (x bw : Qc) (data weights : list Qc) (pdf : Qc) : Qc :=
  match data, weights with
  | d :: data, w :: weights =>
      if bool_decide (d = 0) then pdf
      else padded_kernel_sum x bw data weights (pdf + w * gaussian_kernel x d bw)
  | _, _ => pdf
  end.

(** The first half of the body of [for i in range(len(measurements))]: the
    density [pdf] of measurement [i], whose value is [x]. *)
Definition measurement_pdf (i : nat) (x : Qc) (stages : list Z)
    (bio_indices : list nat) (kde_data kde_weights : list (list Qc))
    (bandwidths : list Qc) : result Qc :=
  idx ← array_get bio_indices i;
  stage ← array_get stages i;
  let data_row := (idx * 2 + (if bool_decide (stage ≠ 0%Z) then 0 else 1))%nat in
  let weights_row := (idx * 2 + (if bool_decide (stage ≠ 0%Z) then 0 else 1))%nat in
  data ← array_get kde_data data_row;
  weights ← array_get kde_weights weights_row;
  bw ← array_get bandwidths idx;
  Ok (padded_kernel_sum x bw data weights 0).

(** The second half: [total] after the contribution of a density. *)
Definition add_log_pdf (total : float) (pdf : Qc) : float :=
  if bool_decide (pdf < EPSILON) then fadd total (np_log (Fin EPSILON))
  else fadd total (np_log (Fin pdf)).

(** [for i in range(len(measurements))]; [i] is the position of the head of
    [measurements]. *)
Fixpoint _compute_kde_logpdf_from (i : nat) (measurements : list Qc)
    (stages : list Z) (bio_indices : list nat) (kde_data kde_weights : list (list Qc))
    (bandwidths : list Qc) (total : float) : result float :=
  match measurements with
  | [] => Ok total
  | x :: measurements =>
      pdf ← measurement_pdf i x stages bio_indices kde_data kde_weights bandwidths;
      _compute_kde_logpdf_from (S i) measurements stages bio_indices
        kde_data kde_weights bandwidths (add_log_pdf total pdf)
  end.

Definition _compute_kde_logpdf (measurements : list Qc) (stages : list Z)
    (bio_indices : list nat) (kde_data kde_weights : list (list Qc))
    (bandwidths : list Qc) : result float :=
  _compute_kde_logpdf_from 0 measurements stages bio_indices
    kde_data kde_weights bandwidths (Fin 0).

(** The value of [kde_dict[b]] and of [theta_phi_current[b]]. *)
Record kde_entry : Type := {
  theta_kde : object FastKDE;
  theta_weights : list Qc;
  phi_kde : object FastKDE;
  phi_weights : list Qc;
}.

(** [np.unique] on biomarker names: the distinct names, sorted. *)
Definition np_unique (a : list string) : list string :=
  merge_sort (λ b c, String.leb b c) (remove_dups a).

(** [{b: i for i, b in enumerate(unique_bios)}]: a later pair overrides. *)
Definition index_dict (unique_bios : list string) : gmap string nat :=
  foldl (λ m ib, <[ib.2 := ib.1]> m) ∅ (imap pair unique_bios).

(** Python's [max] over a sequence, which must not be empty. *)
Definition py_max_seq (l : list nat) : result nat :=
  match l with
  | [] => Err (ValueError "max() arg is an empty sequence")
  | n :: l => Ok (foldl Nat.max n l)
  end.

(** [a[row, :size] = v]: [v] must have the length of the slice, or one
    element that is repeated. *)
Definition set_row_prefix (a : list (list Qc)) (row size : nat) (v : list Qc)
    : result (list (list Qc)) :=
  old ← array_get a row;
  let size := size `min` length old in
  new ← (if bool_decide (length v = size) then Ok (v ++ drop size old)
         else match v with
              | x :: nil => Ok (replicate size x ++ drop size old)
              | _ => Err (ValueError "could not broadcast input array")
              end);
  Ok (<[row := new]> a).

(** [for i, b in enumerate(unique_bios)] filling the three arrays; [i] is
    the position of the head of [bios]. *)
Fixpoint fill_arrays (kde_dict : gmap string kde_entry) (i : nat)
    (bios : list string) (kde_data kde_weights : list (list Qc))
    (bandwidths : list Qc)
    : result (list (list Qc) * list (list Qc) * list Qc) :=
  match bios with
  | [] => Ok (kde_data, kde_weights, bandwidths)
  | b :: bios =>
      entry ← dict_get kde_dict b;
      let theta_kde := value (theta_kde entry) in
      let phi_kde := value (phi_kde entry) in
      let data_size := length (data theta_kde) in
      kde_data ← set_row_prefix kde_data (i * 2) data_size (data theta_kde);
      kde_weights ← set_row_prefix kde_weights (i * 2) data_size (weights theta_kde);
      let data_size := length (data phi_kde) in
      kde_data ← set_row_prefix kde_data (i * 2 + 1) data_size (data phi_kde);
      kde_weights ← set_row_prefix kde_weights (i * 2 + 1) data_size (weights phi_kde);
      bandwidths ← array_set bandwidths i (bandwidth theta_kde);
      fill_arrays kde_dict (S i) bios kde_data kde_weights bandwidths
  end.

(** The arrays that [compute_ln_likelihood_kde_fast] builds for Numba:
    [stages], [bio_indices], [kde_data], [kde_weights] and [bandwidths].
    [S_n] is the stage threshold, [k_j] the stage values, as the signature
    types them. *)
Definition kde_arrays (S_n : Z) (biomarkers : list string) (k_j : list Z)
    (kde_dict : gmap string kde_entry)
    : result (list Z * list nat * list (list Qc) * list (list Qc) * list Qc) :=
  let stages := (λ k, if bool_decide (S_n ≤ k)%Z then 1%Z else 0%Z) <$> k_j in
  let unique_bios := np_unique biomarkers in
  let bio_to_idx := index_dict unique_bios in
  bio_indices ← mapM (dict_get bio_to_idx) biomarkers;
  theta_sizes ← mapM (λ b, entry ← dict_get kde_dict b;
                           Ok (length (data (value (theta_kde entry)))))
                     unique_bios;
  max_data_size ← py_max_seq theta_sizes;
  phi_sizes ← mapM (λ b, entry ← dict_get kde_dict b;
                         Ok (length (data (value (phi_kde entry)))))
                   unique_bios;
  max_phi ← py_max_seq phi_sizes;
  let max_data_size := Nat.max max_data_size max_phi in
  let kde_data := replicate (length unique_bios * 2) (replicate max_data_size 0) in
  let kde_weights := replicate (length unique_bios * 2) (replicate max_data_size 0) in
  let bandwidths := replicate (length unique_bios) 0 in
  arrays ← fill_arrays kde_dict 0 unique_bios kde_data kde_weights bandwidths;
  Ok (stages, bio_indices, arrays.1.1, arrays.1.2, arrays.2).

Definition compute_ln_likelihood_kde_fast (measurements : list Qc) (S_n : Z)
    (biomarkers : list string) (k_j : list Z)
    (kde_dict : gmap string kde_entry) : result float :=
  arrays ← kde_arrays S_n biomarkers k_j kde_dict;
  let '(stages, bio_indices, kde_data, kde_weights, bandwidths) := arrays in
  _compute_kde_logpdf measurements stages bio_indices
    kde_data kde_weights bandwidths.

(** Vocabulary for the statements about the evaluator.  The samples before
    the first one that equals zero; the KDE of an entry that a measurement
    with stage value [k] selects; the density that the evaluator computes
    for a measurement from that KDE (its samples and weights, and the
    bandwidth stored for the biomarker, which is the one of the theta KDE);
    and the floored logarithm. *)
Fixpoint before_first_zero (samples : list Qc) : list Qc :=
  match samples with
  | [] => []
  | d :: samples => if bool_decide (d = 0) then [] else d :: before_first_zero samples
  end.

Definition selected_kde (S_n k : Z) (entry : kde_entry) : FastKDE :=
  if bool_decide (S_n ≤ k)%Z then value (theta_kde entry) else value (phi_kde entry).

Definition selected_density (S_n k : Z) (entry : kde_entry) (x : Qc) : Qc :=
  let kde := selected_kde S_n k entry in
  weighted_kde_evaluate x (before_first_zero (data kde)) (weights kde)
    (bandwidth (value (theta_kde entry))).

Definition floored_log (pdf : Qc) : Qc :=
  if bool_decide (pdf < EPSILON) then log_pos EPSILON else log_pos pdf.

(** The density of a measurement [(x, b, k)]: value, biomarker, stage value. *)
Definition measurement_density (S_n : Z) (kde_dict : gmap string kde_entry)
    (xbk : Qc * string * Z) : Qc :=
  match kde_dict !! xbk.1.2 with
  | Some entry => selected_density S_n xbk.2 entry xbk.1.1
  | None => 0
  end.

(** A row of the padded arrays. *)
Definition padded (width : nat) (row : list Qc) : list Qc :=
  row ++ replicate (width - length row) 0.

(** Every biomarker measured has its pair of KDEs, each with one weight per
    sample. *)
Definition kde_dict_wf (kde_dict : gmap string kde_entry)
    (biomarkers : list string) : Prop :=
  ∀ b, b ∈ biomarkers →
    ∃ entry, kde_dict !! b = Some entry ∧
      length (weights (value (theta_kde entry))) = length (data (value (theta_kde entry))) ∧
      length (weights (value (phi_kde entry))) = length (data (value (phi_kde entry))).

(** One sample, one weight. *)
Definition kde_wf (kde : FastKDE) : Prop := length (weights kde) = length (data kde).

(** Vocabulary for the statements about [evaluate]: the density of one
    point, zero where no sample is near, and a cache whose entries are
    densities of their keys. *)
Definition density_or_zero (self : FastKDE) (x : Qc) : result Qc :=
  r ← neighbour_density self x; Ok (default 0 r).

Definition cache_consistent (self : FastKDE) (cache : gmap Qc Qc) : Prop :=
  ∀ x v, cache !! x = Some v → neighbour_density self x = Ok (Some v).

(** *** The EM weight updater *)

(** [np.sum(probs[mask])] for a boolean mask: the mask must have the length
    of the array. *)
Definition masked_sum (probs : list Qc) (mask : list bool) : result Qc :=
  if bool_decide (length mask = length probs)
  then Ok (np_sum (filter (λ pm : Qc * bool, Is_true pm.2) (zip probs mask)).*1)
  else Err IndexError.

(** [for i, (p, d) in enumerate(zip(participants, diseased))]; [i] is the
    position of the head of [pd]. *)
Fixpoint em_weights_from (i : nat) (pd : list (Z * bool))
    (stage_post : gmap Z (list Qc)) (disease_stages : list Z) (curr_order : Z)
    (theta_weights phi_weights : list Qc) : result (list Qc * list Qc) :=
  match pd with
  | [] => Ok (theta_weights, phi_weights)
  | (p, d) :: pd =>
      if negb d then
        phi_weights ← array_set phi_weights i 1;
        em_weights_from (S i) pd stage_post disease_stages curr_order
          theta_weights phi_weights
      else
        probs ← dict_get stage_post p;
        t ← masked_sum probs ((λ s, bool_decide (curr_order ≤ s)%Z) <$> disease_stages);
        theta_weights ← array_set theta_weights i t;
        f ← masked_sum probs ((λ s, bool_decide (s < curr_order)%Z) <$> disease_stages);
        phi_weights ← array_set phi_weights i f;
        em_weights_from (S i) pd stage_post disease_stages curr_order
          theta_weights phi_weights
  end.

(** The normalisation, which the source writes once for theta and once for
    phi: [if np.sum(w) > 0: w /= np.sum(w)] [else: w = np.ones_like(w) / len(w)]. *)
Definition normalize_or_uniform (w : list Qc) : list Qc :=
  if bool_decide (0 < np_sum w) then (λ x, x / np_sum w) <$> w
  else (λ one, one / of_nat (length w)) <$> replicate (length w) 1.

(** [np.mean(np.abs(new_weights - old_weights))] *)
Definition mean_abs_diff (new_weights old_weights : list Qc) : result float :=
  diff ← np_sub new_weights old_weights;
  Ok (np_mean (np_abs diff)).

(** The KDE decision, which the source writes once for theta and once for
    phi.  [next_id] is the identity the next new object gets. *)
Definition reuse_or_rebuild (measurements new_weights : list Qc)
    (old_kde : object FastKDE) (old_weights : list Qc)
    (weight_change_threshold : Qc) (next_id : nat)
    : result (object FastKDE * list Qc * nat) :=
  change ← mean_abs_diff new_weights old_weights;
  if flt change (Fin weight_change_threshold)
  then Ok (old_kde, old_weights, next_id)
  else
    kde ← FastKDE_new measurements (Some new_weights) Silverman;
    let '(kde, next_id) := new_object next_id kde in
    Ok (kde, new_weights, next_id).

(** Vocabulary for the statements about the updater: the posterior mass of
    the stages that satisfy [P], and the uniform distribution over [n]
    participants. *)
Definition stage_mass (probs : list Qc) (disease_stages : list Z)
    (P : Z → bool) : Qc :=
  np_sum (filter (λ ps : Qc * Z, Is_true (P ps.2)) (zip probs disease_stages)).*1.

Definition uniform (n : nat) : list Qc := replicate n (1 / of_nat n).

(** The weights of one participant [(p, d)] before normalisation. *)
Definition raw_theta_weight (stage_post : gmap Z (list Qc))
    (disease_stages : list Z) (curr_order : Z) (pd : Z * bool) : Qc :=
  if pd.2
  then stage_mass (default [] (stage_post !! pd.1)) disease_stages
         (λ s, bool_decide (curr_order ≤ s)%Z)
  else 0.

Definition raw_phi_weight (stage_post : gmap Z (list Qc))
    (disease_stages : list Z) (curr_order : Z) (pd : Z * bool) : Qc :=
  if pd.2
  then stage_mass (default [] (stage_post !! pd.1)) disease_stages
         (λ s, bool_decide (s < curr_order)%Z)
  else 1.

(** Every diseased participant has a posterior, one mass per stage. *)
Definition posteriors_wf (stage_post : gmap Z (list Qc))
    (disease_stages : list Z) (pd : list (Z * bool)) : Prop :=
  ∀ p, (p, true) ∈ pd →
    ∃ probs, stage_post !! p = Some probs ∧ length probs = length disease_stages.

(** The weights of the first half of [update_kde_for_biomarker_em], after
    normalisation. *)
Definition em_weights (participants : list Z) (measurements : list Qc)
    (diseased : list bool) (stage_post : gmap Z (list Qc))
    (disease_stages : list Z) (curr_order : Z) : result (list Qc * list Qc) :=
  let theta_weights := replicate (length measurements) 0 in
  let phi_weights := replicate (length measurements) 0 in
  tp ← em_weights_from 0 (zip participants diseased) stage_post disease_stages
         curr_order theta_weights phi_weights;
  Ok (normalize_or_uniform tp.1, normalize_or_uniform tp.2).

Definition update_kde_for_biomarker_em (biomarker : string)
    (participants : list Z) (measurements : list Qc) (diseased : list bool)
    (stage_post : gmap Z (list Qc)) (theta_phi_current : gmap string kde_entry)
    (disease_stages : list Z) (curr_order : Z) (weight_change_threshold : Qc)
    (next_id : nat)
    : result (object FastKDE * list Qc * object FastKDE * list Qc * nat) :=
  new_weights ← em_weights participants measurements diseased stage_post
                  disease_stages curr_order;
  current ← dict_get theta_phi_current biomarker;
  theta ← reuse_or_rebuild measurements new_weights.1
            (theta_kde current) (theta_weights current)
            weight_change_threshold next_id;
  phi ← reuse_or_rebuild measurements new_weights.2
          (phi_kde current) (phi_weights current)
          weight_change_threshold theta.2;
  Ok (theta.1.1, theta.1.2, phi.1.1, phi.1.2, phi.2).

(** Vocabulary for the statements about the window of [evaluate]: the
    samples within three bandwidths of [x] with their weights, and the
    kernel sum over them. *)
Definition window (self : FastKDE) (x : Qc) : list (Qc * Qc) :=
  filter (λ sw, Qcabs (sw.1 - x) ≤ qc 3 1 * bandwidth self)
         (zip (data self) (weights self)).

Definition truncated_density (self : FastKDE) (x : Qc) : Qc :=
  weighted_kde_evaluate x (window self x).*1 (window self x).*2 (bandwidth self).

(** *** Initial estimates *)

(** What [get_initial_kde_estimates] reads of a data set and what it calls
    outside this file: the rows with their columns [participant] and
    [biomarker], and [alabebm.utils.kmeans.get_two_clusters_with_kmeans],
    which is given the rows of one biomarker and returns the measurements
    of the two clusters. *)
Class Frame : Type := {
  row : Type;
  row_participant : row → Z;
  row_biomarker : row → string;
  get_two_clusters_with_kmeans : list row → result (list Qc * list Qc);
}.

(** [Series.unique()]: the distinct values in the order of their first
    appearance. *)
Fixpoint pd_unique {A} `{EqDecision A} (l : list A) : list A :=
  match l with
  | [] => []
  | a :: l => a :: filter (λ b, b ≠ a) (pd_unique l)
  end.

(** [data[data['biomarker'] == biomarker]] *)
Definition rows_of `{!Frame} (data : list row) (b : string) : list row :=
  filter (λ r, row_biomarker r = b) data.

(** [for biomarker in biomarkers] of [get_initial_kde_estimates].  A line
    that the loop prints is recorded as the biomarker it skips with the
    number of its measurements; [next_id] is the identity of the next new
    object. *)
Fixpoint initial_estimates_loop `{!Frame} (data : list row) (data_size : nat)
    (biomarkers : list string) (estimates : gmap string kde_entry)
    (printed : list (string * nat)) (next_id : nat)
    : result (gmap string kde_entry * nat) * list (string * nat) :=
  match biomarkers with
  | [] => (Ok (estimates, next_id), printed)
  | b :: biomarkers =>
      let biomarker_df := rows_of data b in
      if bool_decide (length biomarker_df < 5)%nat then
        initial_estimates_loop data data_size biomarkers estimates
          (printed ++ [(b, length biomarker_df)]) next_id
      else
        match
          clusters ← get_two_clusters_with_kmeans biomarker_df;
          theta ← FastKDE_new clusters.1 None Silverman;
          phi ← FastKDE_new clusters.2 None Silverman;
          Ok (theta, phi)
        with
        | Err e => (Err e, printed)
        | Ok (theta, phi) =>
            let '(theta, next_id) := new_object next_id theta in
            let '(phi, next_id) := new_object next_id phi in
            let uniform_weights :=
              (λ one, one / of_nat data_size) <$> replicate data_size 1 in
            initial_estimates_loop data data_size biomarkers
              (<[b := {| theta_kde := theta; theta_weights := uniform_weights;
                         phi_kde := phi; phi_weights := uniform_weights |}]>
                 estimates)
              printed next_id
        end
  end.

Definition get_initial_kde_estimates `{!Frame} (data : list row) (next_id : nat)
    : result (gmap string kde_entry * nat) * list (string * nat) :=
  let biomarkers := pd_unique (row_biomarker <$> data) in
  let data_size := length (pd_unique (row_participant <$> data)) in
  initial_estimates_loop data data_size biomarkers ∅ [] next_id.

End WithNumPy.
End FastKde.

(** ** [alabEBM/algorithms/algorithm.py] *)

Module Sampler.

(** What the sampler calls and does not define: the functions of
    [alabebm.utils.data_processing], the pandas accessors and NumPy's random
    generator, whose state is passed explicitly.  They are taken to return
    normally.  [np.random.rand()] returns a number in [[0, 1)]. *)
Class Collaborators : Type := {
  DataFrame : Type;
  theta_phi : Type;
  participant_data : Type;
  biomarker_data : Type;
  stage_post : Type;
  rng : Type;
  unique_participants : DataFrame → list Z;
  unique_biomarkers : DataFrame → list string;
  non_diseased_participants : DataFrame → list Z;
  get_theta_phi_estimates : DataFrame → theta_phi;
  shuffle_order : list Z → Z → rng → list Z * rng;
  preprocess_participant_data : DataFrame → list (string * Z) → participant_data;
  preprocess_biomarker_data : DataFrame → list (string * Z) → biomarker_data;
  compute_total_ln_likelihood_and_stage_likelihoods :
    participant_data → list Z → theta_phi → list Z → float * stage_post;
  update_theta_phi_estimates :
    biomarker_data → theta_phi → stage_post → list Z → string → Qc → Qc → theta_phi;
  np_random_permutation : list Z → rng → list Z * rng;
  np_random_rand : rng → Qc * rng;
  np_random_rand_range : ∀ g, 0 ≤ (np_random_rand g).1 ∧ (np_random_rand g).1 < 1;
}.

Section WithCollaborators.
Context `{!NumPy} `{!Collaborators}.

(** An ordering as a dict: [dict(zip(biomarkers, order))], in insertion
    order; the biomarkers are distinct. *)
Definition order_dict : Type := list (string * Z).

(** One line of the progress log. *)
Record progress : Type := {
  at_iteration : Z;
  acceptance_ratio : Qc;
  logged_ln_likelihood : float;
  logged_order : list Z;
}.

(** The local variables of [metropolis_hastings] that the loop reads or
    writes.  [new_theta_phi] is bound only once the loop has assigned it. *)
Record state : Type := {
  current_order : list Z;
  current_order_dict : order_dict;
  current_ln_likelihood : float;
  current_theta_phi : theta_phi;
  acceptance_count : nat;
  all_accepted_orders : list order_dict;
  log_likelihoods : list float;
  new_theta_phi : option theta_phi;
  random_state : rng;
  logged : list progress;
}.

(** The values that a sampler hands to its caller, and a tuple of them. *)
Inductive pyval : Type :=
  | OrderTrace (orders : list order_dict)
  | FloatList (values : list float)
  | Params (estimates : theta_phi)
  | StagePosterior (posterior : stage_post).

Definition tuple : Type := list pyval.

(** [np.arange(start=1, stop=n_stages, step=1)] *)
Definition np_arange_from_1 (n_stages : nat) : list Z :=
  (λ i, Z.of_nat (S i)) <$> seq 0 (n_stages - 1).

(** [delta = new_ln_likelihood - current_ln_likelihood]
    [prob_accept = 1.0 if delta > 0 else np.exp(delta)] *)
Definition prob_accept (new_ln_likelihood current_ln_likelihood : float) : float :=
  let delta := fsub new_ln_likelihood current_ln_likelihood in
  if fgt delta (Fin 0) then Fin 1 else np_exp delta.

(** [np.random.rand() < prob_accept] for the number [u] drawn. *)
Definition accepts (u : Qc) (prob_accept : float) : bool := flt (Fin u) prob_accept.

Section Run.
Variables (data_we_have : DataFrame) (iterations n_shuffle : Z)
          (algorithm : string) (prior_n prior_v : Qc).

Definition biomarkers : list string := unique_biomarkers data_we_have.
Definition n_stages : nat := (length biomarkers + 1)%nat.
Definition diseased_stages : list Z := np_arange_from_1 n_stages.
Definition non_diseased_ids : list Z := non_diseased_participants data_we_have.
Definition theta_phi_default : theta_phi := get_theta_phi_estimates data_we_have.

(** The statements before the loop. *)
Definition initial_state (g : rng) : state :=
  let '(current_order, g) := np_random_permutation (np_arange_from_1 n_stages) g in
  {| current_order := current_order;
     current_order_dict := zip biomarkers current_order;
     current_ln_likelihood := NegInf;
     current_theta_phi := theta_phi_default;
     acceptance_count := 0;
     all_accepted_orders := [];
     log_likelihoods := [];
     new_theta_phi := None;
     random_state := g;
     logged := [] |}.

(** The proposal of one iteration and its log likelihood: the new order,
    its dict, [new_ln_likelihood], the binding of [new_theta_phi] after the
    [if algorithm in ['conjugate_priors', 'mle']] statement, and the
    generator. *)
Definition propose (st : state)
    : list Z * order_dict * float * option theta_phi * rng :=
  let new_order := current_order st in
  let '(new_order, g) := shuffle_order new_order n_shuffle (random_state st) in
  let new_order_dict := zip biomarkers new_order in
  let participant_data := preprocess_participant_data data_we_have new_order_dict in
  if bool_decide (algorithm ∈ ["conjugate_priors"; "mle"]) then
    let biomarker_data := preprocess_biomarker_data data_we_have new_order_dict in
    let stage_likelihoods_posteriors :=
      (compute_total_ln_likelihood_and_stage_likelihoods participant_data
         non_diseased_ids (current_theta_phi st) diseased_stages).2 in
    let new_theta_phi :=
      update_theta_phi_estimates biomarker_data (current_theta_phi st)
        stage_likelihoods_posteriors diseased_stages algorithm prior_n prior_v in
    let new_ln_likelihood :=
      (compute_total_ln_likelihood_and_stage_likelihoods participant_data
         non_diseased_ids new_theta_phi diseased_stages).1 in
    (new_order, new_order_dict, new_ln_likelihood, Some new_theta_phi, g)
  else
    let new_ln_likelihood :=
      (compute_total_ln_likelihood_and_stage_likelihoods participant_data
         non_diseased_ids theta_phi_default diseased_stages).1 in
    (new_order, new_order_dict, new_ln_likelihood, new_theta_phi st, g).

(** The components of the proposal, the number that [np.random.rand()]
    returns after it, and the decision of the iteration. *)
Definition proposed_order (st : state) : list Z := (propose st).1.1.1.1.
Definition proposed_dict (st : state) : order_dict := (propose st).1.1.1.2.
Definition proposed_ll (st : state) : float := (propose st).1.1.2.
Definition proposed_params (st : state) : option theta_phi := (propose st).1.2.
Definition draw (st : state) : Qc := (np_random_rand (propose st).2).1.
Definition accepted (st : state) : bool :=
  accepts (draw st) (prob_accept (proposed_ll st) (current_ln_likelihood st)).

(** The models of the docstring: ['hard_kmeans', 'conjugate_priors', 'mle']. *)
Definition implemented : Prop :=
  algorithm ∈ ["hard_kmeans"; "conjugate_priors"; "mle"].

(** The progress log at the end of an iteration. *)
Definition log_progress (iteration : nat) (st : state) : list progress :=
  if bool_decide ((Z.of_nat iteration + 1) `mod` Z.max 10 (iterations `div` 10) = 0)%Z
  then logged st ++
       [{| at_iteration := Z.of_nat iteration + 1;
           acceptance_ratio :=
             qc 100 1 * of_nat (acceptance_count st) / of_nat (iteration + 1);
           logged_ln_likelihood := current_ln_likelihood st;
           logged_order := (current_order_dict st).*2 |}]
  else logged st.

(** The body of [for iteration in range(iterations)].  A primed name is a
    variable after its assignment in this iteration. *)
Definition iteration_body (iteration : nat) (st : state) : result state :=
  let log_likelihoods' := log_likelihoods st ++ [current_ln_likelihood st] in
  let '(new_order, new_order_dict, new_ln_likelihood, new_theta_phi', g) :=
    propose st in
  let p := prob_accept new_ln_likelihood (current_ln_likelihood st) in
  let '(u, g) := np_random_rand g in
  st' ← (if accepts u p then
           current_theta_phi' ←
             (if bool_decide (algorithm ≠ "hard_kmeans") then
                match new_theta_phi' with
                | Some new_theta_phi => Ok new_theta_phi
                | None => Err (UnboundLocalError "new_theta_phi")
                end
              else Ok (current_theta_phi st));
           Ok {| current_order := new_order;
                 current_order_dict := new_order_dict;
                 current_ln_likelihood := new_ln_likelihood;
                 current_theta_phi := current_theta_phi';
                 acceptance_count := acceptance_count st + 1;
                 all_accepted_orders := all_accepted_orders st;
                 log_likelihoods := log_likelihoods';
                 new_theta_phi := new_theta_phi';
                 random_state := g;
                 logged := logged st |}
         else
           Ok {| current_order := current_order st;
                 current_order_dict := current_order_dict st;
                 current_ln_likelihood := current_ln_likelihood st;
                 current_theta_phi := current_theta_phi st;
                 acceptance_count := acceptance_count st;
                 all_accepted_orders := all_accepted_orders st;
                 log_likelihoods := log_likelihoods';
                 new_theta_phi := new_theta_phi';
                 random_state := g;
                 logged := logged st |});
  Ok {| current_order := current_order st';
        current_order_dict := current_order_dict st';
        current_ln_likelihood := current_ln_likelihood st';
        current_theta_phi := current_theta_phi st';
        acceptance_count := acceptance_count st';
        all_accepted_orders := all_accepted_orders st' ++ [current_order_dict st'];
        log_likelihoods := log_likelihoods st';
        new_theta_phi := new_theta_phi st';
        random_state := random_state st';
        logged := log_progress iteration st' |}.

(** [for iteration in range(iterations)], from [iteration] on, [n] more
    times. *)
Fixpoint loop (n iteration : nat) (st : state) : result state :=
  match n with
  | O => Ok st
  | S n => st ← iteration_body iteration st; loop n (S iteration) st
  end.

Definition final_state (g : rng) : result state :=
  loop (Z.to_nat iterations) 0 (initial_state g).

(** [metropolis_hastings], with the state of [np.random] at the call:
    [return all_accepted_orders, log_likelihoods]. *)
Definition metropolis_hastings (g : rng) : result tuple :=
  st ← final_state g;
  Ok [OrderTrace (all_accepted_orders st); FloatList (log_likelihoods st)].

End Run.

(** A call [metropolis_hastings(data, iterations, n_shuffle, algorithm, **kwargs)]
    against the signature [(data_we_have, iterations, n_shuffle,
    algorithm='conjugate_priors', prior_n=1.0, prior_v=2.0)]. *)
Definition keyword (kwargs : list (string * Qc)) (name : string) (default : Qc) : Qc :=
  match list_find (λ kv, kv.1 = name) kwargs with
  | Some (_, kv) => kv.2
  | None => default
  end.

Definition call_metropolis_hastings (data : DataFrame) (iterations n_shuffle : Z)
    (algorithm : string) (kwargs : list (string * Qc)) (g : rng) : result tuple :=
  if bool_decide (Forall (λ kv, kv.1 ∈ ["prior_n"; "prior_v"]) kwargs)
  then metropolis_hastings data iterations n_shuffle algorithm
         (keyword kwargs "prior_n" 1) (keyword kwargs "prior_v" 2) g
  else Err (TypeError "metropolis_hastings() got an unexpected keyword argument").

(** [a, b, c, d = value], as the caller in [run.py] unpacks the result. *)
Definition unpack4 (v : tuple) : result (pyval * pyval * pyval * pyval) :=
  match v with
  | a :: b :: c :: d :: nil => Ok (a, b, c, d)
  | _ =>
      if bool_decide (length v < 4)%nat
      then Err (ValueError "not enough values to unpack (expected 4)")
      else Err (ValueError "too many values to unpack (expected 4)")
  end.
End WithCollaborators.
End Sampler.

(** ** [alabEBM/run.py] *)

Module Run.
Import Sampler.

(** What [run_ebm] does to the outside world, in order. *)
Inductive effect : Type :=
  | LogInfo (msg : string)
  | LogError (msg : string)
  | ExtractFname (data_file : string)
  | CleanupOldFiles (output_dir fname : string)
  | Makedirs (path : string)
  | SetupLogging (log_file : string)
  | FlushLog
  | ReadCsv (data_file : string)
  | RunSampler (algorithm : string) (n_iter n_shuffle : Z)
  | Report.

(** How a call of [run_ebm] ends.  [InvalidConfiguration] is the
    [ValueError] that the guard on [algorithm] raises; [Propagated] is an
    exception from any other statement. *)
Inductive outcome (A : Type) : Type :=
  | Returned (results : A)
  | InvalidConfiguration (algorithm : string)
  | Propagated (e : exn).
Arguments Returned {A} results.
Arguments InvalidConfiguration {A} algorithm.
Arguments Propagated {A} e.

(** A statement sequence: it extends the record of effects and either
    yields a value or raises. *)
Definition M (A : Type) : Type := list effect → result A * list effect.

Definition ret {A} (a : A) : M A := λ log, (Ok a, log).
Definition bind {A B} (m : M A) (k : A → M B) : M B := λ log,
  match m log with
  | (Ok a, log) => k a log
  | (Err e, log) => (Err e, log)
  end.
Notation "x <- m ;; k" := (bind m (λ x, k))
  (at level 100, m at next level, right associativity).
Notation "m ;;; k" := (bind m (λ _, k))
  (at level 100, right associativity).

(** [logging.info(msg)], [logging.error(msg)] *)
Definition logging_info (msg : string) : M () := λ log, (Ok (), log ++ [LogInfo msg]).
Definition logging_error (msg : string) : M () := λ log, (Ok (), log ++ [LogError msg]).

(** A call of a collaborator: the effect, then its outcome. *)
Definition call {A} (e : effect) (r : result A) : M A := λ log, (r, log ++ [e]).

(** [try: m except Exception as e: logging.error(msg); raise] *)
Definition try_logged {A} (m : M A) (msg : string) : M A := λ log,
  match m log with
  | (Err e, log) => (Err e, log ++ [LogError msg])
  | r => r
  end.

(** [s.replace('_', ' ')] *)
Fixpoint replace_underscores (s : string) : string :=
  match s with
  | EmptyString => EmptyString
  | String c s =>
      String (if Ascii.eqb c "_"%char then " "%char else c) (replace_underscores s)
  end.

(** [os.path.join(a, b)] for a relative [b]. *)
Definition path_join (a b : string) : string := a +:+ "/" +:+ b.

(** The collaborators of [run_ebm].  [sampler] is the function that
    [from alabebm.algorithms import metropolis_hastings] binds, called with
    the keyword arguments given; [report] stands for lines 114 to 212, which
    compute Kendall's tau and the most likely order, draw the plots and
    write the JSON file. *)
Class Environment `{!Collaborators} : Type := {
  results : Type;
  extract_fname : string → result string;
  cleanup_old_files : string → string → result ();
  makedirs : string → result ();
  setup_logging : string → result ();
  flush_first_handler : result ();
  read_csv : string → result DataFrame;
  sampler : DataFrame → Z → Z → string → list (string * Qc) → result tuple;
  report : string → pyval * pyval * pyval * pyval → result results;
}.

Section WithEnvironment.
Context `{!Collaborators} `{!Environment}.

Definition allowed_algorithms : gset string :=
  {[ "hard_kmeans"; "mle"; "conjugate_priors"; "em"; "kde" ]}.

(** The statements of [run_ebm] after the guard. *)
Definition run_ebm_body (data_file algorithm : string) (n_iter n_shuffle : Z)
    (fname_prefix : string) (skip_heatmap skip_traceplot : bool)
    (prior_n prior_v weight_change_threshold : Qc) : M results :=
  let output_dir := algorithm in
  fname <- call (ExtractFname data_file) (extract_fname data_file) ;;
  logging_info ("Starting cleanup for " +:+ replace_underscores algorithm +:+ "...") ;;;
  call (CleanupOldFiles output_dir fname) (cleanup_old_files output_dir fname) ;;;
  call (Makedirs output_dir) (makedirs output_dir) ;;;
  let heatmap_folder := path_join output_dir "heatmaps" in
  let traceplot_folder := path_join output_dir "traceplots" in
  let results_folder := path_join output_dir "results" in
  let logs_folder := path_join output_dir "records" in
  (if skip_heatmap then ret () else call (Makedirs heatmap_folder) (makedirs heatmap_folder)) ;;;
  (if skip_traceplot then ret () else call (Makedirs traceplot_folder) (makedirs traceplot_folder)) ;;;
  call (Makedirs results_folder) (makedirs results_folder) ;;;
  call (Makedirs logs_folder) (makedirs logs_folder) ;;;
  let log_file := path_join logs_folder (fname_prefix +:+ fname +:+ ".log") in
  call (SetupLogging log_file) (setup_logging log_file) ;;;
  logging_info ("Running " +:+ replace_underscores algorithm +:+ " for file: " +:+ fname) ;;;
  call FlushLog flush_first_handler ;;;
  data <- try_logged (call (ReadCsv data_file) (read_csv data_file))
            "Error reading data file" ;;
  logging_info "Number of biomarkers" ;;;
  parts <- try_logged
             (t <- call (RunSampler algorithm n_iter n_shuffle)
                    (sampler data n_iter n_shuffle algorithm
                       [("prior_n", prior_n); ("prior_v", prior_v);
                        ("weight_change_threshold", weight_change_threshold)]) ;;
              λ log, (unpack4 t, log))
             "Error in Metropolis-Hastings algorithm" ;;
  call Report (report algorithm parts).

(** [run_ebm]: the guard, then the rest. *)
Definition run_ebm (data_file algorithm : string) (n_iter n_shuffle : Z)
    (fname_prefix : string) (skip_heatmap skip_traceplot : bool)
    (prior_n prior_v weight_change_threshold : Qc)
    : list effect → outcome results * list effect := λ log,
  if bool_decide (algorithm ∉ allowed_algorithms)
  then (InvalidConfiguration algorithm, log)
  else
    match run_ebm_body data_file algorithm n_iter n_shuffle fname_prefix
            skip_heatmap skip_traceplot prior_n prior_v weight_change_threshold log
    with
    | (Ok r, log) => (Returned r, log)
    | (Err e, log) => (Propagated e, log)
    end.

End WithEnvironment.
End Run.

(** ** [alabEBM/tests/test.py] *)

Module TestScript.
Import Sampler Run.

Section WithEnvironment.
Context `{!Collaborators} `{!Environment}.

(** [for data_file in data_files: results = run_ebm(data_file=
    f"{data_dir}/{data_file}", algorithm=algorithm, n_iter=100, n_shuffle=2,
    burn_in=50, thinning=10, correct_ordering=biomarker_order)].  The other
    arguments have the defaults of [run_ebm]; an exception ends the
    script. *)
Fixpoint for_data_files (data_dir algorithm : string) (data_files : list string)
    (log : list effect) : outcome () * list effect :=
  match data_files with
  | [] => (Returned (), log)
  | data_file :: data_files =>
      match run_ebm (data_dir +:+ "/" +:+ data_file) algorithm 100 2 ""
              false false 1 1 (qc 1 100) log with
      | (Returned _, log) => for_data_files data_dir algorithm data_files log
      | (InvalidConfiguration name, log) => (InvalidConfiguration name, log)
      | (Propagated e, log) => (Propagated e, log)
      end
  end.

(** [for algorithm in algorithms: for data_file in data_files: ...] *)
Fixpoint for_algorithms (data_dir : string) (algorithms data_files : list string)
    (log : list effect) : outcome () * list effect :=
  match algorithms with
  | [] => (Returned (), log)
  | algorithm :: algorithms =>
      match for_data_files data_dir algorithm data_files log with
      | (Returned _, log) => for_algorithms data_dir algorithms data_files log
      | raised => raised
      end
  end.

(** The script, from its two loops on: [cwd] is what [os.getcwd()] returned
    and [data_files] what [os.listdir(data_dir)] returned. *)
Definition test (cwd : string) (data_files : list string) (log : list effect)
    : outcome () * list effect :=
  let data_dir := cwd +:+ "/alabEBM/tests/my_data" in
  for_algorithms data_dir ["hard_kmeans"; "soft_kmeans"; "conjugate_priors"]
    data_files log.

End WithEnvironment.
End TestScript.

(** ** Concrete instances, for running the definitions *)

Module Fixtures.
Import Sampler.

(** Coarse rational stand-ins for the transcendental functions: the first
    terms of a series or one Newton step.  Nothing is proved about them. *)
#[export] Instance coarse_numpy : NumPy := {|
  exp_fin x := 1 + x + x * x / 2;
  log_pos x := x - 1;
  sqrt_fin x := (x + 1) / 2;
  fifth_root x := (x + qc 4 1) / qc 5 1;
|}.

(** A data set of three biomarkers.  The parameter set is a number, the
    likelihood of an ordering under it is minus the number of biomarkers out
    of their place minus the parameter, the shuffle rotates the order, and
    the generator alternates between the draws 0 and 1/2. *)
Definition misplaced (order : list (string * Z)) : Z :=
  Z.of_nat (length (filter (λ p, p.1 ≠ p.2) (zip (snd <$> order) [1; 2; 3]%Z))).

#[export] Program Instance toy : Collaborators := {|
  DataFrame := list string;
  theta_phi := Z;
  participant_data := list (string * Z);
  biomarker_data := list (string * Z);
  stage_post := unit;
  rng := nat;
  unique_participants _ := [1; 2]%Z;
  unique_biomarkers df := df;
  non_diseased_participants _ := [1%Z]%list;
  get_theta_phi_estimates _ := 0%Z;
  shuffle_order order _ g :=
    (match order with [] => [] | x :: l => l ++ [x] end, S g);
  preprocess_participant_data _ order := order;
  preprocess_biomarker_data _ order := order;
  compute_total_ln_likelihood_and_stage_likelihoods pd _ tp _ :=
    (Fin (Q2Qc (inject_Z (- misplaced pd - tp))), ());
  update_theta_phi_estimates _ tp _ _ _ _ _ := (tp + 1)%Z;
  np_random_permutation l g := (reverse l, S g);
  np_random_rand g := (if Nat.even g then 0 else qc 1 2, S g);
|}.
Next Obligation. intros g; simpl. by destruct (Nat.even g). Qed.

Definition toy_data : @DataFrame toy := ["A"; "B"; "C"].

(** Two biomarkers with their KDEs (one sample of the phi KDE of "A" is
    zero), and three participants, the first of them not diseased. *)
Definition kde_of (samples ws : list Qc) (bw : Qc) : FastKde.FastKDE :=
  {| FastKde.data := samples; FastKde.weights := ws; FastKde.bandwidth := bw;
     FastKde.tree := samples; FastKde._cache := ∅ |}.

Definition toy_entry_A : FastKde.kde_entry :=
  {| FastKde.theta_kde :=
       {| id := 0; value := kde_of [1; qc 2 1] [qc 1 2; qc 1 2] 1 |};
     FastKde.theta_weights := [qc 1 3; qc 1 3; qc 1 3];
     FastKde.phi_kde :=
       {| id := 1;
          value := kde_of [qc 1 2; 0; qc 3 1] [qc 1 3; qc 1 3; qc 1 3] (qc 2 1) |};
     FastKde.phi_weights := [qc 1 3; qc 1 3; qc 1 3] |}.

Definition toy_entry_B : FastKde.kde_entry :=
  {| FastKde.theta_kde := {| id := 2; value := kde_of [qc 5 1] [1] 1 |};
     FastKde.theta_weights := [qc 1 3; qc 1 3; qc 1 3];
     FastKde.phi_kde := {| id := 3; value := kde_of [qc 4 1; qc 6 1] [qc 1 4; qc 3 4] 1 |};
     FastKde.phi_weights := [qc 1 3; qc 1 3; qc 1 3] |}.

Definition toy_kde_dict : gmap string FastKde.kde_entry :=
  <["A" := toy_entry_A]> (<["B" := toy_entry_B]> ∅).

Definition toy_participants : list Z := [1; 2; 3]%Z.
Definition toy_measurements : list Qc := [qc 1 2; qc 3 2; qc 5 2].
Definition toy_diseased : list bool := [false; true; true].
Definition toy_stage_post : gmap Z (list Qc) :=
  <[2%Z := [qc 1 4; qc 3 4]]> (<[3%Z := [qc 1 2; qc 1 2]]> ∅).
Definition toy_stages : list Z := [1; 2]%Z.

(** An environment in which every collaborator succeeds and the sampler is
    [metropolis_hastings] of [algorithm.py]. *)
#[export] Instance toy_environment : Run.Environment := {|
  Run.results := unit;
  Run.extract_fname f := Ok f;
  Run.cleanup_old_files _ _ := Ok ();
  Run.makedirs _ := Ok ();
  Run.setup_logging _ := Ok ();
  Run.flush_first_handler := Ok ();
  Run.read_csv _ := Ok toy_data;
  Run.sampler data n_iter n_shuffle algorithm kwargs :=
    call_metropolis_hastings data n_iter n_shuffle algorithm kwargs 0%nat;
  Run.report _ _ := Ok ();
|}.

(** A data set for the initial estimates: rows of participant, biomarker
    and measurement, five of them of biomarker "A" and one of "B".  The
    stand-in for k-means puts the first two measurements of a biomarker in
    one cluster and the others in the other. *)
#[export] Instance toy_frame : FastKde.Frame := {|
  FastKde.row := Z * string * Qc;
  FastKde.row_participant r := r.1.1;
  FastKde.row_biomarker r := r.1.2;
  FastKde.get_two_clusters_with_kmeans rows :=
    Ok (snd <$> take 2 rows, snd <$> drop 2 rows);
|}.

Definition toy_rows : list (@FastKde.row toy_frame) :=
  [(1%Z, "A", 1); (1%Z, "B", qc 7 1); (2%Z, "A", qc 2 1); (3%Z, "A", qc 3 1);
   (4%Z, "A", qc 4 1); (5%Z, "A", qc 5 1)].

(** The dictionary [toy_kde_dict] with other bandwidths of the phi KDEs,
    other identities and no stored weight vectors. *)
Definition toy_kde_dict_other : gmap string FastKde.kde_entry :=
  <["A" := {| FastKde.theta_kde := FastKde.theta_kde toy_entry_A;
              FastKde.theta_weights := [];
              FastKde.phi_kde :=
                {| id := 7;
                   value := kde_of [qc 1 2; 0; qc 3 1] [qc 1 3; qc 1 3; qc 1 3]
                              (qc 9 1) |};
              FastKde.phi_weights := [] |}]>
    (<["B" := {| FastKde.theta_kde := FastKde.theta_kde toy_entry_B;
                 FastKde.theta_weights := [];
                 FastKde.phi_kde :=
                   {| id := 8;
                      value := kde_of [qc 4 1; qc 6 1] [qc 1 4; qc 3 4] (qc 5 1) |};
                 FastKde.phi_weights := [] |}]> ∅).



End Fixtures.

(** * Properties *)

(** ** Arithmetic of [float] *)

Section FloatFacts.

Lemma flt_Fin (a b : Qc) : flt (Fin a) (Fin b) = true ↔ a < b.
Proof. simpl. by rewrite bool_decide_eq_true. Qed.


(** Every draw from [[0, 1)] is below the probability one. *)
Lemma draw_below_one (u : Qc) : u < 1 → flt (Fin u) (Fin 1) = true.
Proof. intros. by apply flt_Fin. Qed.

(** A finite number minus minus infinity is plus infinity. *)
Lemma fsub_NegInf (x : float) : is_finite x = true → fsub x NegInf = PosInf.
Proof. by destruct x. Qed.

End FloatFacts.

Module SamplerFacts.
Import Sampler.

Section WithCollaborators.
Context `{!NumPy} `{!Collaborators}.
Implicit Types (st : state) (g : rng).



Lemma prob_accept_from_NegInf (new_ll : float) :
  is_finite new_ll = true → prob_accept new_ll NegInf = Fin 1.
Proof. intros Hfin. unfold prob_accept. by rewrite (fsub_NegInf _ Hfin). Qed.

Section Run.
Variables (data_we_have : DataFrame) (iterations n_shuffle : Z)
          (algorithm : string) (prior_n prior_v : Qc).

Abbreviation propose := (propose data_we_have n_shuffle algorithm prior_n prior_v).
Abbreviation iteration_body :=
  (iteration_body data_we_have iterations n_shuffle algorithm prior_n prior_v).
Abbreviation loop := (loop data_we_have iterations n_shuffle algorithm prior_n prior_v).
Abbreviation initial_state := (initial_state data_we_have).
Abbreviation metropolis_hastings :=
  (metropolis_hastings data_we_have iterations n_shuffle algorithm prior_n prior_v).

Abbreviation proposed_order := (proposed_order data_we_have n_shuffle algorithm prior_n prior_v).
Abbreviation proposed_dict := (proposed_dict data_we_have n_shuffle algorithm prior_n prior_v).
Abbreviation proposed_ll := (proposed_ll data_we_have n_shuffle algorithm prior_n prior_v).
Abbreviation proposed_params := (proposed_params data_we_have n_shuffle algorithm prior_n prior_v).
Abbreviation draw := (draw data_we_have n_shuffle algorithm prior_n prior_v).
Abbreviation accepted := (accepted data_we_have n_shuffle algorithm prior_n prior_v).
Abbreviation implemented := (implemented algorithm).

Lemma propose_eta st :
  propose st = (proposed_order st, proposed_dict st, proposed_ll st,
                proposed_params st, (propose st).2).
Proof.
  unfold Sampler.proposed_order, Sampler.proposed_dict, Sampler.proposed_ll,
    Sampler.proposed_params.
  by destruct (propose st) as [[[[??]?]?]?].
Qed.

Lemma draw_range st : 0 ≤ draw st ∧ draw st < 1.
Proof. apply np_random_rand_range. Qed.

(** The two parametric models bind [new_theta_phi] in every iteration;
    otherwise the binding is the one the iteration started with. *)
Lemma proposed_params_parametric st :
  algorithm ∈ ["conjugate_priors"; "mle"] → is_Some (proposed_params st).
Proof.
  intros Halg. unfold Sampler.proposed_params, Sampler.propose.
  destruct (shuffle_order _ _ _) as [new_order g].
  rewrite bool_decide_eq_true_2 by done. by eexists.
Qed.

Lemma proposed_params_other st :
  algorithm ∉ ["conjugate_priors"; "mle"] →
  proposed_params st = new_theta_phi st.
Proof.
  intros Halg. unfold Sampler.proposed_params, Sampler.propose.
  destruct (shuffle_order _ _ _) as [new_order g].
  by rewrite bool_decide_eq_false_2.
Qed.

(** When an iteration completes, and what it leaves. *)
Lemma iteration_body_Ok i st :
  accepted st = false ∨ algorithm = "hard_kmeans" ∨ is_Some (proposed_params st) →
  is_Ok (iteration_body i st).
Proof.
  unfold Sampler.accepted, Sampler.draw, Sampler.iteration_body. rewrite propose_eta. simpl.
  destruct (np_random_rand _) as [u g']. simpl.
  intros [Hrej | [Hhk | [tp Htp]]].
  - rewrite Hrej. by eexists.
  - destruct (accepts _ _); [|by eexists].
    rewrite bool_decide_eq_false_2 by (by intros []). by eexists.
  - rewrite Htp. destruct (accepts _ _); [|by eexists].
    case_bool_decide; by eexists.
Qed.

Lemma iteration_body_unbound i st :
  accepted st = true → algorithm ≠ "hard_kmeans" → proposed_params st = None →
  iteration_body i st = Err (UnboundLocalError "new_theta_phi").
Proof.
  unfold Sampler.accepted, Sampler.draw, Sampler.iteration_body. rewrite propose_eta. simpl.
  destruct (np_random_rand _) as [u g']. simpl.
  intros -> Hhk ->. by rewrite bool_decide_eq_true_2.
Qed.

Lemma iteration_body_inv i st st' :
  iteration_body i st = Ok st' →
  log_likelihoods st' = log_likelihoods st ++ [current_ln_likelihood st] ∧
  all_accepted_orders st' = all_accepted_orders st ++ [current_order_dict st'] ∧
  new_theta_phi st' = proposed_params st ∧
  if accepted st then
    current_order st' = proposed_order st ∧
    current_order_dict st' = proposed_dict st ∧
    current_ln_likelihood st' = proposed_ll st ∧
    acceptance_count st' = S (acceptance_count st) ∧
    (if bool_decide (algorithm = "hard_kmeans")
     then current_theta_phi st' = current_theta_phi st
     else proposed_params st = Some (current_theta_phi st'))
  else
    current_order st' = current_order st ∧
    current_order_dict st' = current_order_dict st ∧
    current_ln_likelihood st' = current_ln_likelihood st ∧
    acceptance_count st' = acceptance_count st ∧
    current_theta_phi st' = current_theta_phi st.
Proof.
  unfold Sampler.accepted, Sampler.draw, Sampler.iteration_body. rewrite propose_eta. simpl.
  destruct (np_random_rand _) as [u g']. simpl.
  destruct (accepts _ _).
  - case_bool_decide as Hhk.
    + destruct (proposed_params st) as [tp|] eqn:Htp; [|done].
      simpl. intros [= <-]. simpl.
      rewrite bool_decide_eq_false_2 by done.
      repeat split; try done. lia.
    + simpl. intros [= <-]. simpl.
      rewrite bool_decide_eq_true_2
        by (by destruct (decide (algorithm = "hard_kmeans"))).
      repeat split; try done. lia.
  - simpl. intros [= <-]. by simpl.
Qed.

Lemma implemented_iteration_Ok i st : implemented → is_Ok (iteration_body i st).
Proof.
  intros Himpl. apply iteration_body_Ok.
  destruct (decide (algorithm = "hard_kmeans")) as [|Hhk]; [by auto|].
  right; right. apply proposed_params_parametric.
  unfold Sampler.implemented in Himpl.
  apply elem_of_cons in Himpl as [Heq | Hin]; [done | exact Hin].
Qed.

(** *** The loop *)

Lemma loop_lengths n i st st' :
  loop n i st = Ok st' →
  length (log_likelihoods st') = (length (log_likelihoods st) + n)%nat ∧
  length (all_accepted_orders st') = (length (all_accepted_orders st) + n)%nat.
Proof.
  revert i st. induction n as [|n IH]; intros i st; simpl.
  - intros [= <-]. lia.
  - destruct (iteration_body i st) as [st1|e] eqn:Hbody; [|done]. simpl.
    intros Hloop. apply IH in Hloop as [-> ->].
    apply iteration_body_inv in Hbody as (-> & -> & _).
    rewrite !length_app. simpl. lia.
Qed.

Lemma loop_Ok n i st : implemented → is_Ok (loop n i st).
Proof.
  intros Himpl. revert i st. induction n as [|n IH]; intros i st; simpl.
  - by eexists.
  - destruct (implemented_iteration_Ok i st Himpl) as [st1 ->]. simpl. apply IH.
Qed.

(** The log-likelihood trace only grows at its end. *)
Lemma loop_log_prefix n i st st' :
  loop n i st = Ok st' → log_likelihoods st `prefix_of` log_likelihoods st'.
Proof.
  revert i st. induction n as [|n IH]; intros i st; simpl.
  - by intros [= <-].
  - destruct (iteration_body i st) as [st1|e] eqn:Hbody; [|done]. simpl.
    intros Hloop. apply IH in Hloop.
    apply iteration_body_inv in Hbody as (Hlog & _).
    etrans; [|done]. rewrite Hlog. by apply prefix_app_r.
Qed.

Lemma metropolis_hastings_Ok g : implemented → is_Ok (metropolis_hastings g).
Proof.
  intros Himpl. unfold Sampler.metropolis_hastings, final_state.
  destruct (loop_Ok (Z.to_nat iterations) 0 (initial_state g) Himpl) as [st ->].
  by eexists.
Qed.

Lemma metropolis_hastings_inv g t :
  metropolis_hastings g = Ok t →
  ∃ st, loop (Z.to_nat iterations) 0 (initial_state g) = Ok st ∧
        t = [OrderTrace (all_accepted_orders st); FloatList (log_likelihoods st)].
Proof.
  unfold Sampler.metropolis_hastings, final_state.
  destruct (loop _ _ _) as [st|e]; [|done]. simpl. intros [= <-]. by exists st.
Qed.

Lemma initial_state_fields g :
  current_ln_likelihood (initial_state g) = NegInf ∧
  acceptance_count (initial_state g) = 0%nat ∧
  all_accepted_orders (initial_state g) = [] ∧
  log_likelihoods (initial_state g) = [] ∧
  new_theta_phi (initial_state g) = None.
Proof.
  unfold Sampler.initial_state. by destruct (np_random_permutation _ _).
Qed.

(** The first proposal is accepted when its log likelihood is finite. *)
Lemma first_accepted g :
  is_finite (proposed_ll (initial_state g)) = true → accepted (initial_state g) = true.
Proof.
  intros Hfin. unfold Sampler.accepted.
  destruct (initial_state_fields g) as (-> & _).
  rewrite (prob_accept_from_NegInf _ Hfin).
  apply draw_below_one, draw_range.
Qed.

(** C2: a run with [iterations = N >= 0] returns two traces of [N]
    entries each.  Every iteration that completes appends the log
    likelihood it started with to [log_likelihoods] and, after the
    decision, the current ordering (the proposed one if it accepted, the
    old one if it rejected) to [all_accepted_orders]; what the sampler
    returns is these two lists, both of length [N]; and the sampler does
    return for the three models it implements. *)
Theorem trace_lengths g :
  (0 ≤ iterations)%Z →
  (∀ i st st', iteration_body i st = Ok st' →
     log_likelihoods st' = log_likelihoods st ++ [current_ln_likelihood st] ∧
     all_accepted_orders st' = all_accepted_orders st ++ [current_order_dict st'] ∧
     current_order_dict st' =
       (if accepted st then proposed_dict st else current_order_dict st)) ∧
  (∀ t, metropolis_hastings g = Ok t →
     ∃ orders lls, t = [OrderTrace orders; FloatList lls] ∧
       Z.of_nat (length orders) = iterations ∧ Z.of_nat (length lls) = iterations) ∧
  (implemented → is_Ok (metropolis_hastings g)).
Proof.
  intros Hnonneg. split; [|split].
  - intros i st st' Hbody.
    apply iteration_body_inv in Hbody as (Hlog & Hord & _ & Hdec).
    repeat split; [done..|].
    destruct (accepted st); by destruct Hdec as (_ & -> & _).
  - intros t Hret.
    apply metropolis_hastings_inv in Hret as (st & Hloop & ->).
    apply loop_lengths in Hloop as [Hlog Hord].
    destruct (initial_state_fields g) as (_ & _ & Hord0 & Hlog0 & _).
    rewrite Hlog0 in Hlog. rewrite Hord0 in Hord. simpl in *.
    exists (all_accepted_orders st), (log_likelihoods st).
    split; [done|]. rewrite Hlog, Hord. lia.
  - apply metropolis_hastings_Ok.
Qed.

(** C10: the current log likelihood is minus infinity before the loop; in
    a run of at least one iteration the first entry of the returned
    log-likelihood trace is minus infinity (and such a run returns for the
    three implemented models); and when the first proposal has a finite
    log likelihood the first iteration accepts it, whatever number is
    drawn: for the implemented models the state after it holds the
    proposed order and log likelihood and one acceptance. *)
Theorem first_iteration g :
  current_ln_likelihood (initial_state g) = NegInf ∧
  ((0 < iterations)%Z →
     (∀ t, metropolis_hastings g = Ok t →
        ∃ orders lls, t = [OrderTrace orders; FloatList lls] ∧
                      head lls = Some NegInf) ∧
     (implemented → is_Ok (metropolis_hastings g))) ∧
  (is_finite (proposed_ll (initial_state g)) = true →
     accepted (initial_state g) = true ∧
     (implemented →
        ∃ st', iteration_body 0 (initial_state g) = Ok st' ∧
               current_order st' = proposed_order (initial_state g) ∧
               current_ln_likelihood st' = proposed_ll (initial_state g) ∧
               acceptance_count st' = 1%nat)).
Proof.
  destruct (initial_state_fields g) as (Hll & Hcount & _ & Hlog0 & _).
  split; [done|]. split.
  - intros Hpos. split; [|apply metropolis_hastings_Ok].
    intros t Hret.
    apply metropolis_hastings_inv in Hret as (st & Hloop & ->).
    exists (all_accepted_orders st), (log_likelihoods st). split; [done|].
    destruct (Z.to_nat iterations) as [|n] eqn:Hn; [lia|]. simpl in Hloop.
    destruct (iteration_body 0 (initial_state g)) as [st1|e] eqn:Hbody; [|done].
    simpl in Hloop. apply loop_log_prefix in Hloop as [rest ->].
    apply iteration_body_inv in Hbody as (-> & _).
    by rewrite Hlog0, Hll.
  - intros Hfin. pose proof (first_accepted g Hfin) as Hacc.
    split; [done|]. intros Himpl.
    destruct (implemented_iteration_Ok 0 (initial_state g) Himpl) as [st' Hbody].
    exists st'. split; [done|].
    apply iteration_body_inv in Hbody as (_ & _ & _ & Hdec).
    rewrite Hacc in Hdec. destruct Hdec as (-> & _ & -> & -> & _).
    by rewrite Hcount.
Qed.

(** For a model name outside the three of the docstring (so also for
    ['em'] and ['kde']) no proposed parameter set exists, and the first
    iteration that accepts raises [UnboundLocalError] at
    [current_theta_phi = new_theta_phi] instead of replacing the state.
    With a finite first log likelihood that is the first iteration. *)
Lemma accept_without_proposed_parameters g :
  ¬ implemented → (0 < iterations)%Z →
  is_finite (proposed_ll (initial_state g)) = true →
  metropolis_hastings g = Err (UnboundLocalError "new_theta_phi").
Proof.
  intros Hno Hpos Hfin.
  assert (algorithm ∉ ["conjugate_priors"; "mle"]) as Hnp.
  { intros Hin. apply Hno. unfold Sampler.implemented. by apply list_elem_of_further. }
  assert (algorithm ≠ "hard_kmeans") as Hhk.
  { intros Heq. apply Hno. unfold Sampler.implemented. rewrite Heq. apply list_elem_of_here. }
  unfold Sampler.metropolis_hastings, final_state.
  destruct (Z.to_nat iterations) as [|n] eqn:Hn; [lia|]. simpl.
  rewrite (iteration_body_unbound 0 (initial_state g)); [done|by apply first_accepted|done|].
  rewrite (proposed_params_other _ Hnp).
  by destruct (initial_state_fields g) as (_ & _ & _ & _ & ->).
Qed.


(** C3, amended: [metropolis_hastings] returns a result of two parts,
    the sequence of accepted orderings and the sequence of log
    likelihoods of the final state of the loop, in this order; and it
    does return for the models that it implements. *)
Theorem returns_two_parts g :
  (∀ t, metropolis_hastings g = Ok t →
     ∃ st, final_state data_we_have iterations n_shuffle algorithm
             prior_n prior_v g = Ok st ∧
           t = [OrderTrace (all_accepted_orders st);
                FloatList (log_likelihoods st)]) ∧
  (implemented → is_Ok (metropolis_hastings g)).
Proof.
  split; [|apply metropolis_hastings_Ok].
  intros t Hret. by apply metropolis_hastings_inv in Hret.
Qed.

(** Such a result cannot be unpacked into four names, as [run_ebm]
    does. *)
Lemma unpack4_two_parts g t :
  metropolis_hastings g = Ok t →
  unpack4 t = Err (ValueError "not enough values to unpack (expected 4)").
Proof.
  intros Hret. by apply metropolis_hastings_inv in Hret as (st & _ & ->).
Qed.

End Run.
End WithCollaborators.
End SamplerFacts.

Module SamplerWitnesses.
Import Sampler SamplerFacts Fixtures.

Lemma trace_lengths_witness :
  ∃ orders lls,
    metropolis_hastings toy_data 3 2 "conjugate_priors" 1 2 0%nat
      = Ok [OrderTrace orders; FloatList lls] ∧
    length orders = 3%nat ∧ length lls = 3%nat.
Proof.
  destruct (trace_lengths toy_data 3 2 "conjugate_priors" 1 2 0%nat ltac:(lia))
    as (_ & Hret & Hok).
  destruct Hok as [t Ht].
  { apply list_elem_of_further, list_elem_of_here. }
  destruct (Hret t Ht) as (orders & lls & -> & Ho & Hl).
  exists orders, lls. split; [exact Ht|]. lia.
Defined.

Lemma first_iteration_witness :
  ∃ orders lls,
    metropolis_hastings toy_data 3 2 "mle" 1 2 0%nat
      = Ok [OrderTrace orders; FloatList lls] ∧
    head lls = Some NegInf.
Proof.
  destruct (first_iteration toy_data 3 2 "mle" 1 2 0%nat) as (_ & Hrun & _).
  destruct (Hrun ltac:(lia)) as (Hret & Hok).
  destruct Hok as [t Ht].
  { apply list_elem_of_further, list_elem_of_further, list_elem_of_here. }
  destruct (Hret t Ht) as (orders & lls & -> & Hhead).
  exists orders, lls. split; [exact Ht | exact Hhead].
Defined.



(** C3 as stated fails: the result of a run has no third and fourth part. *)
Lemma four_parts_counterexample :
  ¬ ∃ orders lls parameters posterior,
      metropolis_hastings toy_data 2 2 "hard_kmeans" 1 2 0%nat
      = Ok [OrderTrace orders; FloatList lls; Params parameters;
            StagePosterior posterior].
Proof.
  intros (orders & lls & parameters & posterior & Hret).
  apply metropolis_hastings_inv in Hret as (st & _ & Heq). discriminate Heq.
Qed.

Lemma returns_two_parts_witness :
  ∃ orders lls, metropolis_hastings toy_data 2 2 "hard_kmeans" 1 2 0%nat
                = Ok [OrderTrace orders; FloatList lls].
Proof.
  destruct (returns_two_parts toy_data 2 2 "hard_kmeans" 1 2 0%nat) as [Hret Hok].
  destruct Hok as [t Ht].
  { apply list_elem_of_here. }
  destruct (Hret t Ht) as (st & _ & Heq).
  eexists _, _. rewrite <- Heq. exact Ht.
Defined.
End SamplerWitnesses.

(** ** The entry point *)

Module RunFacts.
Import Sampler Run.

Section WithEnvironment.
Context `{!NumPy} `{!Collaborators} `{!Environment}.

Lemma allowed_algorithms_names (algorithm : string) :
  algorithm ∈ allowed_algorithms ↔
  algorithm ∈ ["hard_kmeans"; "conjugate_priors"; "mle"; "em"; "kde"].
Proof.
  unfold allowed_algorithms.
  rewrite !elem_of_union, !elem_of_singleton, !elem_of_cons, elem_of_nil.
  tauto.
Qed.

(** C8: for a model name outside the supported ones, [run_ebm] ends with
    the invalid-configuration error and the record of effects is the one
    it started with: no file was read, no directory made, no sampler
    called.  For a supported name it never ends with that error. *)
Theorem guard_on_algorithm (data_file algorithm : string) (n_iter n_shuffle : Z)
    (fname_prefix : string) (skip_heatmap skip_traceplot : bool)
    (prior_n prior_v weight_change_threshold : Qc) (log : list effect) :
  (algorithm ∉ ["hard_kmeans"; "conjugate_priors"; "mle"; "em"; "kde"] →
     run_ebm data_file algorithm n_iter n_shuffle fname_prefix skip_heatmap
       skip_traceplot prior_n prior_v weight_change_threshold log
     = (InvalidConfiguration algorithm, log)) ∧
  (algorithm ∈ ["hard_kmeans"; "conjugate_priors"; "mle"; "em"; "kde"] →
     ∀ name,
       (run_ebm data_file algorithm n_iter n_shuffle fname_prefix skip_heatmap
          skip_traceplot prior_n prior_v weight_change_threshold log).1
       ≠ InvalidConfiguration name).
Proof.
  unfold run_ebm. split; intros Hname.
  - rewrite bool_decide_eq_true_2; [done|]. by rewrite allowed_algorithms_names.
  - intros name. rewrite bool_decide_eq_false_2.
    + by destruct (run_ebm_body _ _ _ _ _ _ _ _ _ _ _) as [[r|e] log'].
    + intros Hnot. by apply Hnot, allowed_algorithms_names.
Qed.

End WithEnvironment.

Import Fixtures.

Lemma guard_on_algorithm_witness :
  run_ebm "data.csv" "soft_kmeans" 100 2 "" false false 1 1 (qc 1 100) []
    = (InvalidConfiguration "soft_kmeans", []) ∧
  (run_ebm "data.csv" "kde" 100 2 "" false false 1 1 (qc 1 100) []).1
    ≠ InvalidConfiguration "kde".
Proof.
  destruct (guard_on_algorithm "data.csv" "soft_kmeans" 100 2 "" false false
              1 1 (qc 1 100) []) as [Hbad _].
  destruct (guard_on_algorithm "data.csv" "kde" 100 2 "" false false
              1 1 (qc 1 100) []) as [_ Hgood].
  split.
  - apply Hbad. intros Hin.
    by repeat (apply elem_of_cons in Hin as [?|Hin]; [done|]); apply elem_of_nil in Hin.
  - apply Hgood. do 4 apply list_elem_of_further. apply list_elem_of_here.
Defined.

(** With [metropolis_hastings] of [algorithm.py] as the sampler, the call
    that [run_ebm] makes is refused: the keyword [weight_change_threshold]
    is not in its signature. *)
Lemma run_ebm_with_this_sampler :
  (run_ebm "data.csv" "conjugate_priors" 100 2 "" false false 1 1 (qc 1 100) []).1
    = Propagated
        (TypeError "metropolis_hastings() got an unexpected keyword argument").
Proof. vm_compute. reflexivity. Qed.

End RunFacts.

(** ** The KDE engine *)

(** *** The result monad on lists *)

Section MapM.
Context {A B : Type} (f : A → result B).

Lemma mapM_nil_result : mapM f [] = Ok [].
Proof. reflexivity. Qed.

Lemma mapM_cons_result x l :
  mapM f (x :: l) = (y ← f x; k ← mapM f l; Ok (y :: k)).
Proof. reflexivity. Qed.

Lemma mapM_Ok_Forall2 l k :
  mapM f l = Ok k ↔ Forall2 (λ x y, f x = Ok y) l k.
Proof.
  revert k. induction l as [|x l IH]; intros k.
  - rewrite mapM_nil_result. split.
    + intros [= <-]. constructor.
    + by inversion 1.
  - rewrite mapM_cons_result. split.
    + destruct (f x) as [y|e] eqn:Hx; [|done]. simpl.
      destruct (mapM f l) as [k'|e] eqn:Hl; [|done]. simpl.
      intros [= <-]. constructor; [done|]. by apply IH.
    + inversion 1 as [|? y ? k' Hx Hl]; subst. rewrite Hx. simpl.
      apply IH in Hl. by rewrite Hl.
Qed.

Lemma mapM_app_result l1 l2 :
  mapM f (l1 ++ l2) = (k1 ← mapM f l1; k2 ← mapM f l2; Ok (k1 ++ k2)).
Proof.
  induction l1 as [|x l1 IH].
  - rewrite mapM_nil_result. simpl. by destruct (mapM f l2).
  - rewrite <- app_comm_cons, !mapM_cons_result, IH.
    destruct (f x); [|done]. simpl.
    destruct (mapM f l1); [|done]. simpl.
    by destruct (mapM f l2).
Qed.

Lemma mapM_is_Ok l : Forall (λ x, is_Ok (f x)) l → is_Ok (mapM f l).
Proof.
  induction 1 as [|x l [y Hy] _ [k Hk]].
  - by eexists.
  - exists (y :: k). by rewrite mapM_cons_result, Hy, Hk.
Qed.

Lemma mapM_length_result l k : mapM f l = Ok k → length k = length l.
Proof. intros H. apply mapM_Ok_Forall2 in H. symmetry. by eapply Forall2_length. Qed.
End MapM.

(** *** Sums of rationals *)

Section Sums.
Implicit Types (a : list Qc) (c s : Qc).

Lemma foldl_Qcplus c a : foldl Qcplus c a = c + np_sum a.
Proof.
  unfold np_sum. revert c. induction a as [|x a IH]; intros c; simpl.
  - ring.
  - rewrite (IH (c + x)), (IH (0 + x)). ring.
Qed.

Lemma np_sum_cons x a : np_sum (x :: a) = x + np_sum a.
Proof. unfold np_sum at 1. simpl. rewrite foldl_Qcplus. ring. Qed.

Lemma np_sum_div a s : np_sum ((λ x, x / s) <$> a) = np_sum a / s.
Proof.
  induction a as [|x a IH]; csimpl.
  - unfold np_sum. simpl. unfold Qcdiv. ring.
  - rewrite !np_sum_cons, IH. unfold Qcdiv. ring.
Qed.

Lemma of_nat_0 : of_nat 0 = 0.
Proof. by apply Qc_is_canon. Qed.

Lemma of_nat_S n : of_nat (S n) = of_nat n + 1.
Proof.
  unfold of_nat. apply Qc_is_canon. simpl.
  rewrite !Qred_correct. rewrite Nat2Z.inj_succ. unfold Z.succ.
  rewrite inject_Z_plus. reflexivity.
Qed.

Lemma np_sum_replicate n c : np_sum (replicate n c) = of_nat n * c.
Proof.
  induction n as [|n IH]; simpl.
  - rewrite of_nat_0. unfold np_sum. simpl. ring.
  - rewrite np_sum_cons, IH, of_nat_S. ring.
Qed.

Lemma of_nat_pos n : (0 < n)%nat → 0 < of_nat n.
Proof.
  intros Hn. unfold of_nat, Qclt. simpl.
  rewrite (Qred_correct (inject_Z (Z.of_nat n))).
  change (inject_Z 0 < inject_Z (Z.of_nat n))%Q. rewrite <- Zlt_Qlt. lia.
Qed.

(** Dividing by a positive sum gives a vector of sum one. *)
Lemma normalized_sum a : 0 < np_sum a → np_sum ((λ x, x / np_sum a) <$> a) = 1.
Proof.
  intros Hpos. rewrite np_sum_div. unfold Qcdiv. apply Qcmult_inv_r.
  intros Hz. rewrite Hz in Hpos. by apply Qclt_not_eq in Hpos.
Qed.

(** The uniform vector over a non-empty index set has sum one. *)
Lemma uniform_sum n : (0 < n)%nat → np_sum (replicate n (1 / of_nat n)) = 1.
Proof.
  intros Hn. rewrite np_sum_replicate. unfold Qcdiv. rewrite Qcmult_1_l.
  apply Qcmult_inv_r. intros Hz. pose proof (of_nat_pos n Hn) as Hpos.
  rewrite Hz in Hpos. by apply Qclt_not_eq in Hpos.
Qed.
End Sums.

(** *** The EM weight updater *)

Module UpdaterFacts.
Import FastKde.

Section WithNumPy.
Context `{!NumPy}.
Implicit Types (probs tw pw : list Qc) (stages : list Z).

Lemma masked_sum_stage_mass probs stages (P : Z → bool) :
  length probs = length stages →
  masked_sum probs (P <$> stages) = Ok (stage_mass probs stages P).
Proof.
  intros Hlen. unfold masked_sum, stage_mass.
  rewrite bool_decide_eq_true_2 by (by rewrite length_fmap).
  do 2 f_equal. clear Hlen. revert stages.
  induction probs as [|q probs IH]; intros [|s stages]; csimpl; try done.
  rewrite !filter_cons. simpl. destruct (P s); simpl; by rewrite IH.
Qed.

Lemma insert_after_prefix (pre : list Qc) (v old : Qc) (rest : list Qc) :
  <[length pre := v]> (pre ++ old :: rest) = (pre ++ [v]) ++ rest.
Proof.
  rewrite insert_app_r_alt by lia. rewrite Nat.sub_diag. simpl.
  by rewrite <- app_assoc.
Qed.

Section Loop.
Variables (stage_post : gmap Z (list Qc)) (stages : list Z) (curr_order : Z).

Abbreviation raw_theta := (raw_theta_weight stage_post stages curr_order).
Abbreviation raw_phi := (raw_phi_weight stage_post stages curr_order).

(** The loop writes the raw weights of the participants, one after the
    other, over the zeros it finds. *)
Lemma em_weights_from_spec (pd : list (Z * bool)) : ∀ (pre_t pre_p : list Qc) k,
  length pre_p = length pre_t → (length pd ≤ k)%nat →
  posteriors_wf stage_post stages pd →
  em_weights_from (length pre_t) pd stage_post stages curr_order
    (pre_t ++ replicate k 0) (pre_p ++ replicate k 0)
  = Ok (pre_t ++ (raw_theta <$> pd) ++ replicate (k - length pd) 0,
        pre_p ++ (raw_phi <$> pd) ++ replicate (k - length pd) 0).
Proof.
  induction pd as [|[p d] pd IH]; intros pre_t pre_p k Hlen Hk Hwf.
  - simpl. by rewrite Nat.sub_0_r.
  - simpl in Hk. destruct k as [|k]; [lia|].
    assert (posteriors_wf stage_post stages pd) as Hwf'.
    { intros q Hq. apply Hwf. by apply list_elem_of_further. }
    assert (length (pre_p ++ [raw_phi (p, d)]) = length (pre_t ++ [raw_theta (p, d)]))
      as Hlen' by (rewrite !length_app; simpl; lia).
    specialize (IH (pre_t ++ [raw_theta (p, d)]) (pre_p ++ [raw_phi (p, d)]) k
                  Hlen' ltac:(lia) Hwf').
    rewrite length_app in IH. simpl in IH. rewrite Nat.add_1_r in IH.
    rewrite <- !app_assoc in IH. simpl in IH.
    simpl replicate. change (S k - length ((p, d) :: pd))%nat with (k - length pd)%nat.
    rewrite !fmap_cons.
    destruct d; simpl.
    + destruct (Hwf p) as (probs & Hp & Hpl); [apply list_elem_of_here|].
      unfold dict_get. rewrite Hp. simpl.
      rewrite !masked_sum_stage_mass by done. simpl.
      unfold array_set.
      rewrite !bool_decide_eq_true_2 by (rewrite !length_app; simpl; lia). simpl.
      rewrite (insert_after_prefix pre_t).
      rewrite <- Hlen, (insert_after_prefix pre_p), Hlen.
      assert (raw_theta (p, true)
              = stage_mass probs stages (λ s, bool_decide (curr_order ≤ s)%Z)) as <-
        by (unfold raw_theta_weight; simpl; by rewrite Hp).
      assert (raw_phi (p, true)
              = stage_mass probs stages (λ s, bool_decide (s < curr_order)%Z)) as <-
        by (unfold raw_phi_weight; simpl; by rewrite Hp).
      rewrite <- !app_assoc. exact IH.
    + unfold array_set.
      rewrite !bool_decide_eq_true_2 by (rewrite !length_app; simpl; lia). simpl.
      rewrite <- Hlen, (insert_after_prefix pre_p), Hlen.
      rewrite <- !app_assoc. exact IH.
Qed.
End Loop.

Lemma normalize_positive (w : list Qc) :
  0 < np_sum w →
  normalize_or_uniform w = (λ x, x / np_sum w) <$> w ∧
  np_sum (normalize_or_uniform w) = 1.
Proof.
  intros Hpos. unfold normalize_or_uniform. rewrite bool_decide_eq_true_2 by done.
  split; [done|]. by apply normalized_sum.
Qed.

Lemma normalize_degenerate (w : list Qc) :
  ¬ 0 < np_sum w →
  normalize_or_uniform w = uniform (length w) ∧
  (w ≠ [] → np_sum (normalize_or_uniform w) = 1).
Proof.
  intros Hzero. unfold normalize_or_uniform. rewrite bool_decide_eq_false_2 by done.
  rewrite fmap_replicate. split; [done|].
  intros Hne. apply uniform_sum. destruct w; [done|simpl; lia].
Qed.

(** C4: for one biomarker, with one participant, one disease flag and one
    measurement per position and a posterior for every diseased participant,
    the updater computes: for a participant that is not diseased the theta
    weight 0 and the phi weight 1; for a diseased one the posterior mass of
    the stages from the biomarker's stage on as theta weight and the mass of
    the stages before it as phi weight.  Each of the two vectors is then
    divided by its sum, and sums to one, when that sum is positive; when it
    is not (so when it is zero) the vector is replaced by the uniform
    distribution over the participants, and no error is raised. *)
Theorem em_weights_spec (participants : list Z) (measurements : list Qc)
    (diseased : list bool) (stage_post : gmap Z (list Qc))
    (disease_stages : list Z) (curr_order : Z) :
  length participants = length measurements →
  length diseased = length measurements →
  posteriors_wf stage_post disease_stages (zip participants diseased) →
  ∃ raw_theta raw_phi,
    length raw_theta = length measurements ∧
    length raw_phi = length measurements ∧
    (∀ i p, participants !! i = Some p → diseased !! i = Some false →
       raw_theta !! i = Some 0 ∧ raw_phi !! i = Some 1) ∧
    (∀ i p, participants !! i = Some p → diseased !! i = Some true →
       ∃ probs, stage_post !! p = Some probs ∧
         raw_theta !! i = Some (stage_mass probs disease_stages
                                 (λ s, bool_decide (curr_order ≤ s)%Z)) ∧
         raw_phi !! i = Some (stage_mass probs disease_stages
                               (λ s, bool_decide (s < curr_order)%Z))) ∧
    em_weights participants measurements diseased stage_post disease_stages
      curr_order
    = Ok (normalize_or_uniform raw_theta, normalize_or_uniform raw_phi) ∧
    (∀ raw, raw = raw_theta ∨ raw = raw_phi →
       (0 < np_sum raw →
          normalize_or_uniform raw = (λ x, x / np_sum raw) <$> raw ∧
          np_sum (normalize_or_uniform raw) = 1) ∧
       (np_sum raw = 0 →
          normalize_or_uniform raw = uniform (length measurements) ∧
          (measurements ≠ [] → np_sum (normalize_or_uniform raw) = 1))).
Proof.
  intros Hlp Hld Hwf.
  set (pd := zip participants diseased) in *.
  assert (length pd = length measurements) as Hpd.
  { unfold pd. rewrite length_zip. lia. }
  exists (raw_theta_weight stage_post disease_stages curr_order <$> pd),
         (raw_phi_weight stage_post disease_stages curr_order <$> pd).
  assert (∀ i p d, participants !! i = Some p → diseased !! i = Some d →
            pd !! i = Some (p, d)) as Hlook.
  { intros i p d Hp Hd. unfold pd. rewrite lookup_zip_with, Hp. simpl. by rewrite Hd. }
  split; [by rewrite length_fmap|]. split; [by rewrite length_fmap|].
  split; [|split; [|split]].
  - intros i p Hp Hd. rewrite !list_lookup_fmap, (Hlook i p false Hp Hd). by simpl.
  - intros i p Hp Hd. pose proof (Hlook i p true Hp Hd) as Hi.
    destruct (Hwf p) as (probs & Hprobs & _).
    { by apply list_elem_of_lookup_2 in Hi. }
    exists probs. split; [done|].
    rewrite !list_lookup_fmap, Hi. simpl.
    unfold raw_theta_weight, raw_phi_weight. simpl. by rewrite Hprobs.
  - unfold em_weights. fold pd.
    pose proof (em_weights_from_spec stage_post disease_stages curr_order pd
                  [] [] (length measurements) eq_refl ltac:(lia) Hwf) as Hloop.
    simpl in Hloop. rewrite Hpd, Nat.sub_diag in Hloop. simpl in Hloop.
    rewrite !app_nil_r in Hloop. by rewrite Hloop.
  - intros raw Hraw.
    assert (length raw = length measurements) as Hlen
      by (destruct Hraw as [-> | ->]; by rewrite length_fmap).
    split.
    + apply normalize_positive.
    + intros Hzero.
      destruct (normalize_degenerate raw) as [Heq Hsum].
      { rewrite Hzero. intros Hlt. by apply Qclt_not_eq in Hlt. }
      rewrite Heq, Hlen. split; [done|].
      intros Hne. rewrite <- Hlen, <- Heq. apply Hsum.
      destruct raw; [|done]. by destruct measurements.
Qed.

(** [FastKDE(data=measurements, weights=w)] succeeds on a non-empty sample. *)
Lemma FastKDE_new_Silverman (measurements : list Qc) (w : option (list Qc)) :
  measurements ≠ [] → is_Ok (FastKDE_new measurements w Silverman).
Proof.
  intros Hne. unfold FastKDE_new.
  rewrite (bool_decide_eq_false_2 (length measurements = 0%nat));
    [simpl; by eexists|].
  by destruct measurements.
Qed.

Lemma np_sub_same_length (a b : list Qc) :
  length a = length b → np_sub a b = Ok (zip_with Qcminus a b).
Proof. intros Hlen. unfold np_sub. by rewrite bool_decide_eq_true_2. Qed.

(** One decision of the reuse policy. *)
Lemma reuse_or_rebuild_spec (measurements new_weights : list Qc)
    (old_kde : object FastKDE) (old_weights : list Qc) (threshold : Qc)
    (next_id : nat) (change : float) :
  mean_abs_diff new_weights old_weights = Ok change →
  measurements ≠ [] →
  ∃ kde w next_id',
    reuse_or_rebuild measurements new_weights old_kde old_weights threshold next_id
      = Ok (kde, w, next_id') ∧
    if flt change (Fin threshold)
    then kde = old_kde ∧ w = old_weights ∧ next_id' = next_id
    else FastKDE_new measurements (Some new_weights) Silverman = Ok (value kde) ∧
         id kde = next_id ∧ w = new_weights ∧ next_id' = S next_id.
Proof.
  intros Hchange Hne. unfold reuse_or_rebuild. rewrite Hchange. simpl.
  destruct (flt change (Fin threshold)).
  - by eexists _, _, _.
  - destruct (FastKDE_new_Silverman measurements (Some new_weights) Hne) as [kde ->].
    simpl. by eexists _, _, _.
Qed.

(** C5: the updater decides for theta and for phi on its own.  When the
    mean absolute difference between the new weight vector and the previous
    one is strictly below [weight_change_threshold] it returns the KDE
    object and the weight vector that it was given, the same object and not
    a copy; otherwise it returns a KDE that [FastKDE(data=measurements,
    weights=new weights)] builds, an object whose identity no earlier
    object has, and the new weight vector. *)
Theorem reuse_policy (biomarker : string) (participants : list Z)
    (measurements : list Qc) (diseased : list bool)
    (stage_post : gmap Z (list Qc)) (theta_phi_current : gmap string kde_entry)
    (disease_stages : list Z) (curr_order : Z) (weight_change_threshold : Qc)
    (next_id : nat) (current : kde_entry) (new_theta new_phi : list Qc)
    (theta_change phi_change : float) :
  em_weights participants measurements diseased stage_post disease_stages
    curr_order = Ok (new_theta, new_phi) →
  theta_phi_current !! biomarker = Some current →
  mean_abs_diff new_theta (theta_weights current) = Ok theta_change →
  mean_abs_diff new_phi (phi_weights current) = Ok phi_change →
  measurements ≠ [] →
  ∃ theta_kde' theta_weights' phi_kde' phi_weights' next_id',
    update_kde_for_biomarker_em biomarker participants measurements diseased
      stage_post theta_phi_current disease_stages curr_order
      weight_change_threshold next_id
    = Ok (theta_kde', theta_weights', phi_kde', phi_weights', next_id') ∧
    (if flt theta_change (Fin weight_change_threshold)
     then theta_kde' = theta_kde current ∧ theta_weights' = theta_weights current
     else FastKDE_new measurements (Some new_theta) Silverman
            = Ok (value theta_kde') ∧
          theta_weights' = new_theta ∧
          (next_id ≤ id theta_kde' < next_id')%nat) ∧
    (if flt phi_change (Fin weight_change_threshold)
     then phi_kde' = phi_kde current ∧ phi_weights' = phi_weights current
     else FastKDE_new measurements (Some new_phi) Silverman
            = Ok (value phi_kde') ∧
          phi_weights' = new_phi ∧
          (next_id ≤ id phi_kde' < next_id')%nat) ∧
    (flt theta_change (Fin weight_change_threshold) = false →
     flt phi_change (Fin weight_change_threshold) = false →
     id theta_kde' ≠ id phi_kde').
Proof.
  intros Hem Hcur Ht Hp Hne. unfold update_kde_for_biomarker_em.
  rewrite Hem. simpl. unfold dict_get. rewrite Hcur. simpl.
  destruct (reuse_or_rebuild_spec measurements new_theta (theta_kde current)
              (theta_weights current) weight_change_threshold next_id
              theta_change Ht Hne) as (tk & tw & n1 & -> & Htheta).
  simpl.
  destruct (reuse_or_rebuild_spec measurements new_phi (phi_kde current)
              (phi_weights current) weight_change_threshold n1
              phi_change Hp Hne) as (pk & pw & n2 & -> & Hphi).
  simpl. exists tk, tw, pk, pw, n2. split; [done|].
  destruct (flt theta_change _), (flt phi_change _);
    repeat match goal with H : _ ∧ _ |- _ => destruct H end; subst;
    repeat split; try done; try lia.
Qed.

End WithNumPy.
End UpdaterFacts.

(** *** The batched likelihood evaluator *)

Module EvaluatorFacts.
Import FastKde.

Section WithNumPy.
Context `{!NumPy}.
Implicit Types (samples ws : list Qc) (x bw : Qc).

(** **** The padding loop *)

Lemma before_first_zero_length samples :
  (length (before_first_zero samples) ≤ length samples)%nat.
Proof.
  induction samples as [|d samples IH]; simpl; [lia|].
  case_bool_decide; simpl; lia.
Qed.

Lemma before_first_zero_padding samples k :
  before_first_zero (samples ++ replicate k 0) = before_first_zero samples.
Proof.
  induction samples as [|d samples IH]; simpl.
  - by destruct k.
  - by rewrite IH.
Qed.

Lemma before_first_zero_none samples :
  0 ∉ samples → before_first_zero samples = samples.
Proof.
  induction samples as [|d samples IH]; simpl; [done|].
  intros Hnot. rewrite bool_decide_eq_false_2.
  - rewrite IH; [done|]. intros Hin. apply Hnot. by apply list_elem_of_further.
  - intros ->. apply Hnot. apply list_elem_of_here.
Qed.

Lemma before_first_zero_at samples_before samples_after :
  0 ∉ samples_before →
  before_first_zero (samples_before ++ 0 :: samples_after) = samples_before.
Proof.
  induction samples_before as [|d l IH]; simpl.
  - done.
  - intros Hnot. rewrite bool_decide_eq_false_2.
    + rewrite IH; [done|]. intros Hin. apply Hnot. by apply list_elem_of_further.
    + intros ->. apply Hnot. apply list_elem_of_here.
Qed.

Lemma zip_padding {A B} (a : list A) (b c : list B) :
  (length a ≤ length b)%nat → zip a (b ++ c) = zip a b.
Proof.
  revert b. induction a as [|u a IH]; intros [|v b] Hlen; simpl in *; try done; [lia|].
  rewrite IH; [done|lia].
Qed.

(** The loop adds the kernels of the samples before the first zero. *)
Lemma padded_kernel_sum_spec x bw samples : ∀ ws pdf,
  padded_kernel_sum x bw samples ws pdf
  = foldl (λ result sw, result + sw.2 * gaussian_kernel x sw.1 bw) pdf
      (zip (before_first_zero samples) ws).
Proof.
  induction samples as [|d samples IH]; intros ws pdf; simpl.
  - by destruct ws.
  - destruct ws as [|w ws].
    + by case_bool_decide.
    + case_bool_decide; simpl; [done|]. by rewrite IH.
Qed.

(** On a row that the evaluator built from a KDE, that is the sum over the
    samples of the KDE before its first zero. *)
Lemma padded_kernel_sum_row x bw samples ws k :
  length ws = length samples →
  padded_kernel_sum x bw (samples ++ replicate k 0) (ws ++ replicate k 0) 0
  = weighted_kde_evaluate x (before_first_zero samples) ws bw.
Proof.
  intros Hlen. rewrite padded_kernel_sum_spec, before_first_zero_padding.
  unfold weighted_kde_evaluate. rewrite zip_padding; [done|].
  rewrite Hlen. apply before_first_zero_length.
Qed.

(** **** The biomarker index *)

Lemma np_unique_NoDup (a : list string) : NoDup (np_unique a).
Proof.
  unfold np_unique. rewrite merge_sort_Permutation. apply NoDup_remove_dups.
Qed.

Lemma np_unique_elem_of (a : list string) b : b ∈ np_unique a ↔ b ∈ a.
Proof.
  unfold np_unique. rewrite merge_sort_Permutation. apply elem_of_remove_dups.
Qed.

Lemma index_dict_from (u : list string) : ∀ (m : gmap string nat) (k : nat) b,
  NoDup u →
  foldl (λ m ib, <[ib.2 := ib.1]> m) m (imap (λ i b, (k + i, b)%nat) u) !! b
  = match list_find (λ c, c = b) u with
    | Some (i, _) => Some (k + i)%nat
    | None => m !! b
    end.
Proof.
  induction u as [|c u IH]; intros m k b Hnd; simpl; [done|].
  apply NoDup_cons in Hnd as [Hc Hnd].
  rewrite (imap_ext _ (λ i b, (S k + i, b)%nat))
    by (intros; unfold compose; f_equal; lia).
  rewrite IH by done. simpl.
  destruct (decide (c = b)) as [->|Hne].
  - destruct (list_find _ u) as [[i c']|] eqn:Hfind.
    + apply list_find_Some in Hfind as (Hi & -> & _).
      apply list_elem_of_lookup_2 in Hi. done.
    + by rewrite lookup_insert_eq.
  - destruct (list_find _ u) as [[i c']|]; simpl.
    + f_equal. lia.
    + by rewrite lookup_insert_ne.
Qed.

(** The index of a biomarker is its position among the distinct names. *)
Lemma index_dict_lookup (u : list string) b i :
  NoDup u → u !! i = Some b → index_dict u !! b = Some i.
Proof.
  intros Hnd Hi. unfold index_dict.
  rewrite (imap_ext _ (λ i b, (0 + i, b)%nat)) by done.
  rewrite index_dict_from by done.
  destruct (list_find _ u) as [[j c]|] eqn:Hfind.
  - apply list_find_Some in Hfind as (Hj & -> & _). simpl. f_equal.
    eapply NoDup_lookup; eauto.
  - apply list_find_None in Hfind.
    rewrite Forall_forall in Hfind.
    exfalso. eapply Hfind; [|done]. by eapply list_elem_of_lookup_2.
Qed.


Lemma index_dict_lookup_inv (u : list string) b i :
  index_dict u !! b = Some i → u !! i = Some b.
Proof.
  unfold index_dict. intros Hi.
  assert (∀ (m : gmap string nat) k,
            foldl (λ m ib, <[ib.2 := ib.1]> m) m (imap (λ i b, (k + i, b)%nat) u) !! b
              = Some i →
            m !! b = Some i ∨ (k ≤ i)%nat ∧ u !! (i - k)%nat = Some b) as Hgen.
  { clear Hi. induction u as [|c u IH]; intros m k; simpl; [by left|].
    rewrite (imap_ext _ (λ i b, (S k + i, b)%nat))
      by (intros; unfold compose; f_equal; lia).
    intros Hfold. apply IH in Hfold as [Hm | [Hk Hu]].
    - destruct (decide (c = b)) as [->|Hne].
      + rewrite lookup_insert_eq in Hm. injection Hm as <-.
        right. split; [lia|]. by rewrite Nat.add_0_r, Nat.sub_diag.
      + rewrite lookup_insert_ne in Hm by done. by left.
    - right. split; [lia|].
      replace (i - k)%nat with (S (i - S k)) by lia. done. }
  rewrite (imap_ext _ (λ i b, (0 + i, b)%nat)) in Hi by done.
  apply Hgen in Hi as [Hempty | [_ Hu]]; [done|].
  by rewrite Nat.sub_0_r in Hu.
Qed.

(** **** The padded arrays *)

Lemma mapM_pointwise {A B} (f : A → result B) (g : A → B) (l : list A) :
  (∀ a, a ∈ l → f a = Ok (g a)) → mapM f l = Ok (g <$> l).
Proof.
  intros Hfg. apply mapM_Ok_Forall2. apply Forall2_fmap_r, Forall_Forall2_diag.
  by apply Forall_forall.
Qed.

Lemma foldl_max_ge (l : list nat) : ∀ n v,
  v = n ∨ v ∈ l → (v ≤ foldl Nat.max n l)%nat.
Proof.
  induction l as [|y l IH]; intros n v [->|Hin]; simpl.
  - done.
  - by apply elem_of_nil in Hin.
  - etrans; [|apply (IH (n `max` y)%nat (n `max` y)%nat); by left]. lia.
  - apply elem_of_cons in Hin as [->|Hin].
    + etrans; [|apply (IH (n `max` y)%nat (n `max` y)%nat); by left]. lia.
    + apply IH. by right.
Qed.

Lemma py_max_seq_ge (l : list nat) :
  l ≠ [] → ∃ m, py_max_seq l = Ok m ∧ ∀ v, v ∈ l → (v ≤ m)%nat.
Proof.
  destruct l as [|n l]; [done|]. intros _. eexists. split; [done|].
  intros v Hv. apply foldl_max_ge. by apply elem_of_cons.
Qed.

Lemma set_row_prefix_zeros (a : list (list Qc)) (row width : nat) (v : list Qc) :
  a !! row = Some (replicate width 0) → (length v ≤ width)%nat →
  ∀ size, size = length v →
  set_row_prefix a row size v = Ok (<[row := padded width v]> a).
Proof.
  intros Hrow Hlen size ->. unfold set_row_prefix, array_get. rewrite Hrow. simpl.
  rewrite length_replicate, Nat.min_l by done.
  rewrite bool_decide_eq_true_2 by done. simpl.
  by rewrite drop_replicate.
Qed.

Section Fill.
Variables (kde_dict : gmap string kde_entry) (width n : nat).

Lemma fill_arrays_spec (bios : list string) : ∀ i kde_data kde_weights bandwidths,
  (i + length bios = n)%nat →
  length kde_data = (n * 2)%nat → length kde_weights = (n * 2)%nat →
  length bandwidths = n →
  (∀ b, b ∈ bios →
     ∃ entry, kde_dict !! b = Some entry ∧
       kde_wf (value (theta_kde entry)) ∧ kde_wf (value (phi_kde entry)) ∧
       (length (data (value (theta_kde entry))) ≤ width)%nat ∧
       (length (data (value (phi_kde entry))) ≤ width)%nat) →
  (∀ r, (i * 2 ≤ r < n * 2)%nat →
     kde_data !! r = Some (replicate width 0) ∧
     kde_weights !! r = Some (replicate width 0)) →
  ∃ kde_data' kde_weights' bandwidths',
    fill_arrays kde_dict i bios kde_data kde_weights bandwidths
      = Ok (kde_data', kde_weights', bandwidths') ∧
    (∀ r, (r < i * 2)%nat →
       kde_data' !! r = kde_data !! r ∧ kde_weights' !! r = kde_weights !! r) ∧
    (∀ r, (r < i)%nat → bandwidths' !! r = bandwidths !! r) ∧
    (∀ j b entry, bios !! j = Some b → kde_dict !! b = Some entry →
       kde_data' !! ((i + j) * 2)%nat
         = Some (padded width (data (value (theta_kde entry)))) ∧
       kde_weights' !! ((i + j) * 2)%nat
         = Some (padded width (weights (value (theta_kde entry)))) ∧
       kde_data' !! ((i + j) * 2 + 1)%nat
         = Some (padded width (data (value (phi_kde entry)))) ∧
       kde_weights' !! ((i + j) * 2 + 1)%nat
         = Some (padded width (weights (value (phi_kde entry)))) ∧
       bandwidths' !! (i + j)%nat = Some (bandwidth (value (theta_kde entry)))).
Proof.
  induction bios as [|b bios IH];
    intros i kde_data kde_weights bandwidths Hn Hld Hlw Hlb Hfits Hzero.
  - exists kde_data, kde_weights, bandwidths. repeat split; try done.
  - simpl in Hn.
    destruct (Hfits b) as (entry & Hentry & Hwt & Hwp & Hst & Hsp);
      [apply list_elem_of_here|].
    unfold kde_wf in Hwt, Hwp.
    destruct (Hzero (i * 2)%nat ltac:(lia)) as [Hd0 Hw0].
    destruct (Hzero (i * 2 + 1)%nat ltac:(lia)) as [Hd1 Hw1].
    simpl. unfold dict_get. rewrite Hentry. simpl.
    rewrite (set_row_prefix_zeros kde_data (i * 2) width _ Hd0 Hst _ eq_refl).
    simpl.
    rewrite (set_row_prefix_zeros kde_weights (i * 2) width _ Hw0
               ltac:(rewrite Hwt; exact Hst) _ (eq_sym Hwt)).
    simpl.
    assert (∀ {A} (l : list A) (v : A), <[(i * 2)%nat := v]> l !! (i * 2 + 1)%nat
              = l !! (i * 2 + 1)%nat) as Hskip
      by (intros; apply list_lookup_insert_ne; lia).
    rewrite (set_row_prefix_zeros _ (i * 2 + 1) width _
               ltac:(rewrite Hskip; exact Hd1) Hsp _ eq_refl).
    simpl.
    rewrite (set_row_prefix_zeros _ (i * 2 + 1) width _
               ltac:(rewrite Hskip; exact Hw1)
               ltac:(rewrite Hwp; exact Hsp) _ (eq_sym Hwp)).
    simpl.
    unfold array_set. rewrite bool_decide_eq_true_2 by lia. simpl.
    edestruct (IH (S i)) as (D & W & B & -> & Hbefore & Hbb & Hrows).
    { lia. }
    { by rewrite !length_insert. }
    { by rewrite !length_insert. }
    { by rewrite length_insert. }
    { intros c Hc. apply Hfits. by apply list_elem_of_further. }
    { intros r Hr. rewrite !list_lookup_insert_ne by lia. apply Hzero. lia. }
    exists D, W, B. split; [done|]. split; [|split].
    + intros r Hr. destruct (Hbefore r ltac:(lia)) as [-> ->].
      by rewrite !list_lookup_insert_ne by lia.
    + intros r Hr. rewrite (Hbb r ltac:(lia)).
      by rewrite list_lookup_insert_ne by lia.
    + intros [|j] c e Hj He.
      * simpl in Hj. injection Hj as <-. rewrite Hentry in He. injection He as <-.
        rewrite Nat.add_0_r.
        destruct (Hbefore (i * 2)%nat ltac:(lia)) as [-> ->].
        destruct (Hbefore (i * 2 + 1)%nat ltac:(lia)) as [-> ->].
        rewrite (Hbb i ltac:(lia)).
        rewrite !(list_lookup_insert_ne _ (i * 2 + 1) (i * 2))%nat by lia.
        rewrite !list_lookup_insert_eq by (rewrite ?length_insert; lia).
        done.
      * simpl in Hj. replace (i + S j)%nat with (S i + j)%nat by lia.
        exact (Hrows j c e Hj He).
Qed.
End Fill.


(** What [kde_arrays] builds: the stage indicators, and for every
    measurement the index of its biomarker, under which the arrays hold the
    padded samples and weights of its two KDEs and the bandwidth of its
    theta KDE. *)
Lemma kde_arrays_spec (S_n : Z) (biomarkers : list string) (k_j : list Z)
    (kde_dict : gmap string kde_entry) :
  biomarkers ≠ [] → kde_dict_wf kde_dict biomarkers →
  ∃ bio_indices kde_data kde_weights bandwidths width,
    kde_arrays S_n biomarkers k_j kde_dict
      = Ok ((λ k, if bool_decide (S_n ≤ k)%Z then 1%Z else 0%Z) <$> k_j,
            bio_indices, kde_data, kde_weights, bandwidths) ∧
    ∀ i b entry, biomarkers !! i = Some b → kde_dict !! b = Some entry →
      ∃ idx, bio_indices !! i = Some idx ∧
        kde_data !! (idx * 2)%nat
          = Some (padded width (data (value (theta_kde entry)))) ∧
        kde_weights !! (idx * 2)%nat
          = Some (padded width (weights (value (theta_kde entry)))) ∧
        kde_data !! (idx * 2 + 1)%nat
          = Some (padded width (data (value (phi_kde entry)))) ∧
        kde_weights !! (idx * 2 + 1)%nat
          = Some (padded width (weights (value (phi_kde entry)))) ∧
        bandwidths !! idx = Some (bandwidth (value (theta_kde entry))).
Proof.
  intros Hne Hwf. unfold kde_arrays.
  set (u := np_unique biomarkers).
  assert (NoDup u) as Hnd by apply np_unique_NoDup.
  assert (∀ b, b ∈ u → b ∈ biomarkers) as Hu
    by (intros b; apply (proj1 (np_unique_elem_of biomarkers b))).
  assert (u ≠ []) as Hune.
  { destruct biomarkers as [|b l]; [done|].
    assert (b ∈ u) as Hb
      by (apply (proj2 (np_unique_elem_of (b :: l) b)); apply list_elem_of_here).
    intros Hnil. rewrite Hnil in Hb. by apply elem_of_nil in Hb. }
  (* the indices *)
  rewrite (mapM_pointwise _ (λ b, default 0%nat (index_dict u !! b)) biomarkers);
    last first.
  { intros b Hb. apply (proj2 (np_unique_elem_of biomarkers b)) in Hb.
    apply list_elem_of_lookup_1 in Hb as [i Hi].
    unfold dict_get. by rewrite (index_dict_lookup u b i Hnd Hi). }
  simpl.
  (* the sizes *)
  set (size_theta := λ b, match kde_dict !! b with
                          | Some e => length (data (value (theta_kde e)))
                          | None => 0%nat end).
  set (size_phi := λ b, match kde_dict !! b with
                        | Some e => length (data (value (phi_kde e)))
                        | None => 0%nat end).
  rewrite (mapM_pointwise
             (λ b, entry ← dict_get kde_dict b;
                   Ok (length (data (value (theta_kde entry)))))
             size_theta u); last first.
  { intros b Hb. destruct (Hwf b (Hu b Hb)) as (e & He & _).
    unfold dict_get, size_theta. by rewrite He. }
  simpl.
  destruct (py_max_seq_ge (size_theta <$> u)) as (mt & -> & Hmt).
  { by destruct u. }
  simpl.
  rewrite (mapM_pointwise
             (λ b, entry ← dict_get kde_dict b;
                   Ok (length (data (value (phi_kde entry)))))
             size_phi u); last first.
  { intros b Hb. destruct (Hwf b (Hu b Hb)) as (e & He & _).
    unfold dict_get, size_phi. by rewrite He. }
  simpl.
  destruct (py_max_seq_ge (size_phi <$> u)) as (mp & -> & Hmp).
  { by destruct u. }
  simpl.
  set (width := (mt `max` mp)%nat).
  edestruct (fill_arrays_spec kde_dict width (length u) u 0
              (replicate (length u * 2) (replicate width 0))
              (replicate (length u * 2) (replicate width 0))
              (replicate (length u) 0))
    as (D & W & B & -> & _ & _ & Hrows).
  { done. }
  { by rewrite length_replicate. }
  { by rewrite length_replicate. }
  { by rewrite length_replicate. }
  { intros b Hb. destruct (Hwf b (Hu b Hb)) as (e & He & Hwt & Hwp).
    exists e. repeat split; try done.
    - etrans; [apply Hmt|unfold width; lia].
      apply list_elem_of_fmap. exists b. split; [|done].
      unfold size_theta. by rewrite He.
    - etrans; [apply Hmp|unfold width; lia].
      apply list_elem_of_fmap. exists b. split; [|done].
      unfold size_phi. by rewrite He. }
  { intros r Hr. by rewrite !lookup_replicate_2 by lia. }
  simpl. eexists _, D, W, B, width. split; [done|].
  intros i b entry Hi He.
  assert (b ∈ u) as Hbu.
  { apply (proj2 (np_unique_elem_of biomarkers b)). by eapply list_elem_of_lookup_2. }
  apply list_elem_of_lookup_1 in Hbu as [idx Hidx].
  exists idx. rewrite list_lookup_fmap, Hi. simpl.
  rewrite (index_dict_lookup u b idx Hnd Hidx). simpl. split; [done|].
  apply (Hrows idx b entry Hidx He).
Qed.

(** The density of a measurement in these arrays. *)
Lemma measurement_pdf_spec (S_n : Z) (k_j : list Z) (bio_indices : list nat)
    (kde_data kde_weights : list (list Qc)) (bandwidths : list Qc)
    (width i idx : nat) (x : Qc) (k : Z) (entry : kde_entry) :
  k_j !! i = Some k → bio_indices !! i = Some idx →
  kde_wf (value (theta_kde entry)) → kde_wf (value (phi_kde entry)) →
  kde_data !! (idx * 2)%nat
    = Some (padded width (data (value (theta_kde entry)))) →
  kde_weights !! (idx * 2)%nat
    = Some (padded width (weights (value (theta_kde entry)))) →
  kde_data !! (idx * 2 + 1)%nat
    = Some (padded width (data (value (phi_kde entry)))) →
  kde_weights !! (idx * 2 + 1)%nat
    = Some (padded width (weights (value (phi_kde entry)))) →
  bandwidths !! idx = Some (bandwidth (value (theta_kde entry))) →
  measurement_pdf i x ((λ k, if bool_decide (S_n ≤ k)%Z then 1%Z else 0%Z) <$> k_j)
    bio_indices kde_data kde_weights bandwidths
  = Ok (selected_density S_n k entry x).
Proof.
  intros Hk Hidx Hwt Hwp Hdt Hwtr Hdp Hwpr Hbw.
  unfold measurement_pdf, array_get, selected_density, selected_kde.
  rewrite Hidx, list_lookup_fmap, Hk. simpl.
  unfold kde_wf in Hwt, Hwp.
  destruct (bool_decide (S_n ≤ k)%Z); simpl.
  - rewrite Nat.add_0_r, Hdt, Hwtr, Hbw. simpl. f_equal.
    unfold padded. rewrite Hwt. by apply padded_kernel_sum_row.
  - rewrite Hdp, Hwpr, Hbw. simpl. f_equal.
    unfold padded. rewrite Hwp. by apply padded_kernel_sum_row.
Qed.

(** **** The total *)

Lemma EPSILON_pos : 0 < EPSILON.
Proof. reflexivity. Qed.

Lemma add_log_pdf_Fin (t pdf : Qc) :
  add_log_pdf (Fin t) pdf = Fin (t + floored_log pdf).
Proof.
  unfold add_log_pdf, floored_log. case_bool_decide as Hlt.
  - unfold np_log. by rewrite (bool_decide_eq_true_2 _ EPSILON_pos).
  - unfold np_log. rewrite bool_decide_eq_true_2; [done|].
    eapply Qclt_le_trans; [apply EPSILON_pos|]. by apply Qcnot_lt_le.
Qed.

Lemma foldl_add_log_pdf (ds : list Qc) : ∀ t,
  foldl add_log_pdf (Fin t) ds = Fin (t + np_sum (floored_log <$> ds)).
Proof.
  induction ds as [|d ds IH]; intros t; csimpl.
  - f_equal. unfold np_sum. simpl. ring.
  - rewrite add_log_pdf_Fin, IH, np_sum_cons. f_equal. ring.
Qed.

Lemma _compute_kde_logpdf_from_spec (stages : list Z) (bio_indices : list nat)
    (kde_data kde_weights : list (list Qc)) (bandwidths : list Qc)
    (measurements : list Qc) : ∀ i total (ds : list Qc),
  length ds = length measurements →
  (∀ j x d, measurements !! j = Some x → ds !! j = Some d →
     measurement_pdf (i + j) x stages bio_indices kde_data kde_weights bandwidths
       = Ok d) →
  _compute_kde_logpdf_from i measurements stages bio_indices kde_data kde_weights
    bandwidths total
  = Ok (foldl add_log_pdf total ds).
Proof.
  induction measurements as [|x ms IH]; intros i total [|d ds] Hlen Hpdf;
    simpl in *; try done.
  rewrite <- (Nat.add_0_r i) at 1. rewrite (Hpdf 0%nat x d eq_refl eq_refl). simpl.
  apply IH; [lia|]. intros j y e Hy He.
  replace (S i + j)%nat with (i + S j)%nat by lia. by apply (Hpdf (S j)).
Qed.


Lemma zip_take_l {A B} (a : list A) (b : list B) :
  zip a (take (length a) b) = zip a b.
Proof.
  revert b. induction a as [|u a IH]; intros [|v b]; simpl; try done.
  by rewrite IH.
Qed.

(** C6: the inner loop of the evaluator has no row length; it stops at the
    first sample that equals zero.  So in the arrays that the evaluator
    builds, the density computed for a measurement is the weighted kernel
    sum over the samples of the selected KDE that come before its first
    zero sample: over all its samples when none of them is zero, and over
    those before the zero one only, whatever follows it, when one is. *)
Theorem padding_sentinel (S_n : Z) (biomarkers : list string) (k_j : list Z)
    (kde_dict : gmap string kde_entry) :
  biomarkers ≠ [] → kde_dict_wf kde_dict biomarkers →
  (∀ x bw samples ws pdf,
     padded_kernel_sum x bw samples ws pdf
     = foldl (λ result sw, result + sw.2 * gaussian_kernel x sw.1 bw) pdf
         (zip (before_first_zero samples) ws)) ∧
  ∃ stages bio_indices kde_data kde_weights bandwidths,
    kde_arrays S_n biomarkers k_j kde_dict
      = Ok (stages, bio_indices, kde_data, kde_weights, bandwidths) ∧
    ∀ i x b k entry,
      biomarkers !! i = Some b → k_j !! i = Some k →
      kde_dict !! b = Some entry →
      ∃ pdf,
        measurement_pdf i x stages bio_indices kde_data kde_weights bandwidths
          = Ok pdf ∧
        pdf = weighted_kde_evaluate x
                (before_first_zero (data (selected_kde S_n k entry)))
                (weights (selected_kde S_n k entry))
                (bandwidth (value (theta_kde entry))) ∧
        (0 ∉ data (selected_kde S_n k entry) →
           pdf = weighted_kde_evaluate x
                   (data (selected_kde S_n k entry))
                   (weights (selected_kde S_n k entry))
                   (bandwidth (value (theta_kde entry)))) ∧
        (∀ samples_before samples_after,
           data (selected_kde S_n k entry) = samples_before ++ 0 :: samples_after →
           0 ∉ samples_before →
           pdf = weighted_kde_evaluate x samples_before
                   (take (length samples_before)
                      (weights (selected_kde S_n k entry)))
                   (bandwidth (value (theta_kde entry)))).
Proof.
  intros Hne Hwf. split; [intros; apply padded_kernel_sum_spec|].
  destruct (kde_arrays_spec S_n biomarkers k_j kde_dict Hne Hwf)
    as (idx & D & W & B & width & Harrays & Hrows).
  eexists _, idx, D, W, B. split; [exact Harrays|].
  intros i x b k entry Hb Hk Hentry.
  destruct (Hrows i b entry Hb Hentry) as (ix & Hix & Hdt & Hwt & Hdp & Hwp & Hbw).
  destruct (Hwf b) as (entry' & Hentry' & Hlt & Hlp).
  { by eapply list_elem_of_lookup_2. }
  rewrite Hentry in Hentry'. injection Hentry' as <-.
  eexists. split.
  { by eapply measurement_pdf_spec. }
  unfold selected_density. split; [done|]. split.
  - intros Hzero. by rewrite before_first_zero_none.
  - intros l1 l2 Hsplit Hzero. rewrite Hsplit, before_first_zero_at by done.
    unfold weighted_kde_evaluate. by rewrite zip_take_l.
Qed.


End WithNumPy.
End EvaluatorFacts.

(** *** [FastKDE.evaluate] *)

Module EvaluateFacts.
Import FastKde.

Section WithNumPy.
Context `{!NumPy}.
Implicit Types (self : FastKDE) (points results rs : list Qc) (cache : gmap Qc Qc).

(** Writing one more result after the first [p]. *)
Lemma block_zero results p n rs :
  results !! p = Some 0 →
  take (S p) results ++ rs ++ drop (S p + n) results
  = take p results ++ (0 :: rs) ++ drop (p + S n) results.
Proof.
  intros Hp. rewrite (take_S_r _ _ _ Hp), <- app_assoc. simpl.
  by replace (p + S n)%nat with (S (p + n)) by lia.
Qed.

Lemma block_insert results p n rs (v : Qc) :
  (p < length results)%nat →
  take (S p) (<[p:=v]> results) ++ rs ++ drop (S p + n) (<[p:=v]> results)
  = take p results ++ (v :: rs) ++ drop (p + S n) results.
Proof.
  intros Hp.
  rewrite (take_S_r _ _ v) by (by apply list_lookup_insert_eq).
  rewrite take_insert_ge by done. rewrite drop_insert_lt by lia.
  rewrite <- app_assoc. simpl.
  by replace (p + S n)%nat with (S (p + n)) by lia.
Qed.

Lemma density_or_zero_cached self cache x v :
  cache_consistent self cache → cache !! x = Some v →
  density_or_zero self x = Ok v.
Proof. intros Hc Hx. unfold density_or_zero. by rewrite (Hc x v Hx). Qed.

Lemma cache_consistent_insert self cache x v :
  cache_consistent self cache → neighbour_density self x = Ok (Some v) →
  cache_consistent self (<[x:=v]> cache).
Proof.
  intros Hc Hx y w. destruct (decide (x = y)) as [<-|Hne].
  - rewrite lookup_insert_eq. by intros [= <-].
  - rewrite lookup_insert_ne by done. apply Hc.
Qed.

(** The loop over a small point set writes the density of every point, in
    order, and keeps the cache consistent. *)
Lemma evaluate_small_spec self points : ∀ i results cache,
  cache_consistent self cache →
  (i + length points ≤ length results)%nat →
  (∀ q, (i ≤ q < i + length points)%nat → results !! q = Some 0) →
  ∃ cache',
    cache_consistent self cache' ∧
    evaluate_small self i points results cache
    = (rs ← mapM (density_or_zero self) points;
       Ok (take i results ++ rs ++ drop (i + length points) results),
       cache').
Proof.
  induction points as [|x points IH]; intros i results cache Hc Hlen Hzero.
  - exists cache. split; [done|]. simpl. rewrite Nat.add_0_r.
    by rewrite take_drop.
  - simpl in Hlen. rewrite mapM_cons_result. simpl.
    destruct (cache !! x) as [v|] eqn:Hx.
    + rewrite (density_or_zero_cached self cache x v Hc Hx). simpl.
      destruct (IH (S i) (<[i:=v]> results) cache Hc) as (cache' & Hc' & ->).
      { rewrite length_insert. lia. }
      { intros q Hq. rewrite list_lookup_insert_ne by lia. apply Hzero. simpl. lia. }
      exists cache'. split; [done|]. f_equal.
      destruct (mapM _ points) as [rs|e]; [|done]. simpl. f_equal.
      apply block_insert. lia.
    + destruct (neighbour_density self x) as [[v|]|e] eqn:Hn;
        [assert (density_or_zero self x = Ok v) as ->
           by (unfold density_or_zero; by rewrite Hn)
        |assert (density_or_zero self x = Ok 0) as ->
           by (unfold density_or_zero; by rewrite Hn)
        |assert (density_or_zero self x = Err e) as ->
           by (unfold density_or_zero; by rewrite Hn)]; simpl.
      * edestruct (IH (S i) (<[i:=v]> results)) as (cache' & Hc' & ->).
        { case_bool_decide; [by apply cache_consistent_insert|exact Hc]. }
        { rewrite length_insert. lia. }
        { intros q Hq. rewrite list_lookup_insert_ne by lia. apply Hzero. simpl. lia. }
        exists cache'. split; [done|]. f_equal.
        destruct (mapM _ points) as [rs|e]; [|done]. simpl. f_equal.
        apply block_insert. lia.
      * destruct (IH (S i) results cache Hc) as (cache' & Hc' & ->).
        { lia. }
        { intros q Hq. apply Hzero. simpl. lia. }
        exists cache'. split; [done|]. f_equal.
        destruct (mapM _ points) as [rs|e]; [|done]. simpl. f_equal.
        apply block_zero. apply Hzero. simpl. lia.
      * by exists cache.
Qed.

(** The loop over one chunk does the same from position [i + j] on. *)
Lemma evaluate_chunk_spec self i chunk : ∀ j results,
  (i + j + length chunk ≤ length results)%nat →
  (∀ q, (i + j ≤ q < i + j + length chunk)%nat → results !! q = Some 0) →
  evaluate_chunk self i j chunk results
  = (rs ← mapM (density_or_zero self) chunk;
     Ok (take (i + j) results ++ rs ++ drop (i + j + length chunk) results)).
Proof.
  induction chunk as [|x chunk IH]; intros j results Hlen Hzero.
  - simpl. rewrite Nat.add_0_r. by rewrite take_drop.
  - simpl in Hlen. rewrite mapM_cons_result. simpl.
    destruct (neighbour_density self x) as [[v|]|e] eqn:Hn;
      [assert (density_or_zero self x = Ok v) as ->
         by (unfold density_or_zero; by rewrite Hn)
      |assert (density_or_zero self x = Ok 0) as ->
         by (unfold density_or_zero; by rewrite Hn)
      |assert (density_or_zero self x = Err e) as ->
         by (unfold density_or_zero; by rewrite Hn)]; simpl; [| |done].
    + rewrite IH.
      * destruct (mapM _ chunk) as [rs|e]; [|done]. simpl. f_equal.
        replace (i + S j)%nat with (S (i + j)) by lia.
        apply block_insert. lia.
      * rewrite length_insert. lia.
      * intros q Hq. rewrite list_lookup_insert_ne by lia. apply Hzero. simpl. lia.
    + rewrite IH.
      * destruct (mapM _ chunk) as [rs|e]; [|done]. simpl. f_equal.
        replace (i + S j)%nat with (S (i + j)) by lia.
        apply block_zero. apply Hzero. simpl. lia.
      * lia.
      * intros q Hq. apply Hzero. simpl. lia.
Qed.

(** The loop over the chunks does the same from the first chunk start on. *)
Lemma evaluate_chunks_spec self points chunk_size :
  (0 < chunk_size)%nat →
  ∀ fuel start results,
    length results = length points →
    (length points ≤ start + fuel * chunk_size)%nat →
    (∀ q, (start ≤ q < length points)%nat → results !! q = Some 0) →
    evaluate_chunks self chunk_size
      (py_range_from fuel start (length points) chunk_size) points results
    = (rs ← mapM (density_or_zero self) (drop start points);
       Ok (take start results ++ rs)).
Proof.
  intros Hsize. induction fuel as [|fuel IH]; intros start results Hlen Hfuel Hzero.
  - simpl. rewrite drop_ge by lia. rewrite mapM_nil_result. simpl.
    rewrite take_ge by lia. by rewrite app_nil_r.
  - simpl. case_bool_decide as Hstart; last first.
    { simpl. rewrite drop_ge by lia. rewrite mapM_nil_result. simpl.
      rewrite take_ge by lia. by rewrite app_nil_r. }
    simpl.
    set (chunk := take chunk_size (drop start points)).
    assert (length chunk = chunk_size `min` (length points - start))%nat as Hchunk
      by (unfold chunk; by rewrite length_take, length_drop).
    rewrite <- (take_drop chunk_size (drop start points)).
    fold chunk. rewrite drop_drop, mapM_app_result.
    pose proof (evaluate_chunk_spec self start chunk 0 results) as Hc.
    rewrite Nat.add_0_r in Hc. rewrite Hc; [|lia|intros q Hq; apply Hzero; lia].
    destruct (mapM (density_or_zero self) chunk) as [rs1|e] eqn:Hrs1; [|done].
    simpl. apply mapM_length_result in Hrs1.
    rewrite IH.
    + destruct (mapM _ (drop (start + chunk_size) points)) as [rs2|e] eqn:Hrs2;
        [|done].
      simpl. f_equal. rewrite (app_assoc _ rs1 rs2). f_equal.
      rewrite app_assoc. rewrite take_app.
      rewrite (take_ge (take start results ++ rs1)); last first.
      { rewrite length_app, length_take. lia. }
      rewrite <- app_nil_r. f_equal.
      destruct (decide (chunk_size ≤ length points - start)%nat) as [Hle|Hgt].
      * replace (start + chunk_size - length (take start results ++ rs1))%nat
          with 0%nat; [done|]. rewrite length_app, length_take. lia.
      * rewrite drop_ge by lia. apply take_nil.
    + rewrite !length_app, length_take, length_drop. lia.
    + lia.
    + intros q Hq. rewrite app_assoc, lookup_app_r;
        rewrite length_app, length_take; [|lia].
      rewrite lookup_drop. rewrite <- (Hzero q) by lia. f_equal. lia.
Qed.

Lemma evaluate_large_spec self points :
  evaluate_large self points = mapM (density_or_zero self) points.
Proof.
  unfold evaluate_large, py_range.
  pose proof (evaluate_chunks_spec self points 1000 ltac:(lia) (length points) 0
                (replicate (length points) 0)) as Hchunks.
  rewrite Hchunks.
  - rewrite drop_0. destruct (mapM _ points); by simpl.
  - by rewrite length_replicate.
  - lia.
  - intros q Hq. apply lookup_replicate_2. lia.
Qed.

Lemma neighbour_density_set_cache self cache x :
  neighbour_density (set_cache self cache) x = neighbour_density self x.
Proof. reflexivity. Qed.

(** A new instance has an empty cache. *)
Lemma FastKDE_new_cache_consistent samples ws bw self :
  FastKDE_new samples ws bw = Ok self → cache_consistent self (_cache self).
Proof.
  unfold FastKDE_new. destruct (match bw with Silverman => _ | _ => _ end); [|done].
  simpl. intros [= <-]. simpl. intros x v Hx. by rewrite lookup_empty in Hx.
Qed.

(** C9: on every instance whose cache holds densities of its keys (a new
    instance, and every instance after any number of calls of [evaluate]),
    and for every sequence of points, the loop for small point sets with
    its cache and the loop over chunks for large ones return the same
    result, the density of every point in order (or the same exception);
    so does [evaluate], whichever of the two it takes, and it leaves the
    cache consistent. *)
Theorem batching_is_transparent self points :
  cache_consistent self (_cache self) →
  (evaluate_small self 0 points (replicate (length points) 0) (_cache self)).1
    = evaluate_large self points ∧
  evaluate_large self points = mapM (density_or_zero self) points ∧
  (evaluate self points).1 = mapM (density_or_zero self) points ∧
  cache_consistent (evaluate self points).2 (_cache (evaluate self points).2).
Proof.
  intros Hc.
  destruct (evaluate_small_spec self points 0 (replicate (length points) 0)
              (_cache self) Hc) as (cache' & Hc' & Hsmall).
  { by rewrite length_replicate. }
  { intros q Hq. apply lookup_replicate_2. lia. }
  assert ((rs ← mapM (density_or_zero self) points;
           Ok (take 0 (replicate (length points) 0) ++ rs ++
               drop (0 + length points) (replicate (length points) 0)))
          = mapM (density_or_zero self) points) as Hsimpl.
  { destruct (mapM _ points); [|done]. simpl.
    rewrite drop_ge by (by rewrite length_replicate). by rewrite app_nil_r. }
  rewrite Hsimpl in Hsmall.
  split; [|split; [|split]].
  - rewrite Hsmall. simpl. symmetry. apply evaluate_large_spec.
  - apply evaluate_large_spec.
  - unfold evaluate. case_bool_decide.
    + rewrite Hsmall. done.
    + apply evaluate_large_spec.
  - unfold evaluate. case_bool_decide.
    + rewrite Hsmall. simpl. intros x v Hx. by apply Hc'.
    + done.
Qed.

End WithNumPy.
End EvaluateFacts.

(** *** The statements at concrete inputs *)

Module KdeWitnesses.
Import FastKde UpdaterFacts EvaluatorFacts EvaluateFacts Fixtures.

Lemma toy_posteriors_wf :
  posteriors_wf toy_stage_post toy_stages (zip toy_participants toy_diseased).
Proof.
  intros p Hin.
  repeat (apply elem_of_cons in Hin as [Heq|Hin];
          [injection Heq as ->; try done; by eexists|]).
  by apply elem_of_nil in Hin.
Defined.

Lemma toy_kde_dict_wf : kde_dict_wf toy_kde_dict ["A"; "B"; "A"].
Proof.
  intros b Hin.
  repeat (apply elem_of_cons in Hin as [->|Hin]; [by eexists|]).
  by apply elem_of_nil in Hin.
Defined.

Lemma em_weights_spec_witness :
  is_Ok (em_weights toy_participants toy_measurements toy_diseased
           toy_stage_post toy_stages 2).
Proof.
  destruct (em_weights_spec toy_participants toy_measurements toy_diseased
              toy_stage_post toy_stages 2 eq_refl eq_refl toy_posteriors_wf)
    as (raw_theta & raw_phi & _ & _ & _ & _ & Hem & _).
  eexists. exact Hem.
Defined.

Lemma reuse_policy_witness :
  is_Ok (update_kde_for_biomarker_em "A" toy_participants toy_measurements
           toy_diseased toy_stage_post toy_kde_dict toy_stages 2 (qc 1 100) 4).
Proof.
  edestruct (reuse_policy "A" toy_participants toy_measurements toy_diseased
               toy_stage_post toy_kde_dict toy_stages 2 (qc 1 100) 4)
    as (tk & tw & pk & pw & next_id & Hupdate & _).
  - vm_compute. reflexivity.
  - vm_compute. reflexivity.
  - vm_compute. reflexivity.
  - vm_compute. reflexivity.
  - discriminate.
  - eexists. exact Hupdate.
Defined.

Lemma padding_sentinel_witness :
  ∃ stages bio_indices kde_data kde_weights bandwidths,
    kde_arrays 2 ["A"; "B"; "A"] [1; 2; 3]%Z toy_kde_dict
      = Ok (stages, bio_indices, kde_data, kde_weights, bandwidths).
Proof.
  destruct (padding_sentinel 2 ["A"; "B"; "A"] [1; 2; 3]%Z toy_kde_dict
              ltac:(discriminate) toy_kde_dict_wf)
    as (_ & stages & idx & D & W & B & Harrays & _).
  exists stages, idx, D, W, B. exact Harrays.
Defined.


Lemma batching_is_transparent_witness :
  (evaluate_small (kde_of [1; qc 2 1] [qc 1 2; qc 1 2] 1) 0 [1; 1; qc 9 1]
     (replicate 3 0) ∅).1
  = evaluate_large (kde_of [1; qc 2 1] [qc 1 2; qc 1 2] 1) [1; 1; qc 9 1].
Proof.
  apply (batching_is_transparent (kde_of [1; qc 2 1] [qc 1 2; qc 1 2] 1)
           [1; 1; qc 9 1]).
  intros x v Hx. simpl in Hx. by rewrite lookup_empty in Hx.
Defined.

End KdeWitnesses.

(** * Further properties *)

(** ** Arithmetic *)

Section Ratios.

Lemma of_nat_le (n m : nat) : (n ≤ m)%nat → of_nat n ≤ of_nat m.
Proof.
  intros Hnm. unfold of_nat, Qcle. simpl.
  rewrite !Qred_correct. rewrite <- Zle_Qle. lia.
Qed.

Lemma of_nat_nonneg (n : nat) : 0 ≤ of_nat n.
Proof. rewrite <- of_nat_0. apply of_nat_le. lia. Qed.

(** A percentage of a part of a whole. *)
Lemma percentage_range (c m : nat) :
  (c ≤ m)%nat → (0 < m)%nat →
  0 ≤ qc 100 1 * of_nat c / of_nat m ∧ qc 100 1 * of_nat c / of_nat m ≤ qc 100 1.
Proof.
  intros Hcm Hm. pose proof (of_nat_pos m Hm) as Hpos.
  assert (of_nat m ≠ 0) as Hne.
  { intros Hz. rewrite Hz in Hpos. by apply Qclt_not_eq in Hpos. }
  assert (qc 100 1 * of_nat c / of_nat m * of_nat m = qc 100 1 * of_nat c) as Heq.
  { by field. }
  assert (0 ≤ qc 100 1) as H100 by done.
  split; apply (Qcmult_lt_0_le_reg_r _ _ (of_nat m) Hpos); rewrite Heq.
  - rewrite Qcmult_0_l. rewrite <- (Qcmult_0_l (of_nat c)).
    apply Qcmult_le_compat_r; [done | apply of_nat_nonneg].
  - rewrite !(Qcmult_comm (qc 100 1)).
    apply Qcmult_le_compat_r; [by apply of_nat_le | done].
Qed.

(** The quotient by [s] grows by one exactly at the multiples of [s]. *)
Lemma div_succ (i s : Z) :
  (0 < s → 0 ≤ i →
   (i + 1) `div` s = i `div` s + (if bool_decide ((i + 1) `mod` s = 0) then 1 else 0))%Z.
Proof.
  intros Hs Hi.
  pose proof (Z.div_mod i s ltac:(lia)) as Hd.
  pose proof (Z.div_mod (i + 1) s ltac:(lia)) as Hd'.
  pose proof (Z.mod_pos_bound i s Hs) as Hb.
  pose proof (Z.mod_pos_bound (i + 1) s Hs) as Hb'.
  case_bool_decide; nia.
Qed.

Lemma progress_lines_bound (n : Z) :
  (0 ≤ n → n `div` Z.max 10 (n `div` 10) ≤ 10)%Z.
Proof.
  intros Hn.
  pose proof (Z.div_mod n 10 ltac:(lia)) as Hd.
  pose proof (Z.mod_pos_bound n 10 ltac:(lia)) as Hb.
  destruct (decide (n `div` 10 ≤ 10)%Z) as [Hq|Hq].
  - rewrite Z.max_l by lia. done.
  - rewrite Z.max_r by lia.
    assert (n `div` (n `div` 10) < 11)%Z; [|lia].
    apply Z.div_lt_upper_bound; lia.
Qed.

End Ratios.

(** ** The sampler, further *)

Module SamplerExtras.
Import Sampler SamplerFacts.

Section WithCollaborators.
Context `{!NumPy} `{!Collaborators}.
Implicit Types (st : state) (g : rng).

(** No draw is below the probability zero, and none below [nan]. *)
Lemma accepts_zero (u : Qc) : 0 ≤ u → accepts u (Fin 0) = false.
Proof.
  intros Hu. unfold accepts. simpl. apply bool_decide_eq_false_2.
  by apply Qcle_not_lt.
Qed.

Lemma prob_accept_degenerate (new_ll cur_ll : float) :
  new_ll = NaN ∨ new_ll = NegInf →
  prob_accept new_ll cur_ll = NaN ∨ prob_accept new_ll cur_ll = Fin 0.
Proof.
  intros [-> | ->]; destruct cur_ll; unfold prob_accept; simpl; auto.
Qed.

Section Run.
Variables (data_we_have : DataFrame) (iterations n_shuffle : Z)
          (algorithm : string) (prior_n prior_v : Qc).

Abbreviation propose := (propose data_we_have n_shuffle algorithm prior_n prior_v).
Abbreviation iteration_body :=
  (iteration_body data_we_have iterations n_shuffle algorithm prior_n prior_v).
Abbreviation loop := (loop data_we_have iterations n_shuffle algorithm prior_n prior_v).
Abbreviation initial_state := (initial_state data_we_have).
Abbreviation final_state :=
  (final_state data_we_have iterations n_shuffle algorithm prior_n prior_v).
Abbreviation metropolis_hastings :=
  (metropolis_hastings data_we_have iterations n_shuffle algorithm prior_n prior_v).
Abbreviation proposed_order := (proposed_order data_we_have n_shuffle algorithm prior_n prior_v).
Abbreviation proposed_dict := (proposed_dict data_we_have n_shuffle algorithm prior_n prior_v).
Abbreviation proposed_ll := (proposed_ll data_we_have n_shuffle algorithm prior_n prior_v).
Abbreviation proposed_params := (proposed_params data_we_have n_shuffle algorithm prior_n prior_v).
Abbreviation draw := (draw data_we_have n_shuffle algorithm prior_n prior_v).
Abbreviation accepted := (accepted data_we_have n_shuffle algorithm prior_n prior_v).
Abbreviation implemented := (implemented algorithm).
Abbreviation theta_phi_default := (theta_phi_default data_we_have).

(** The loop, cut after [n] iterations. *)
Lemma loop_split n m i st :
  loop (n + m) i st = (st' ← loop n i st; loop m (i + n) st').
Proof.
  revert i st. induction n as [|n IH]; intros i st; simpl.
  - by rewrite Nat.add_0_r.
  - destruct (iteration_body i st) as [st1|e]; [|done]. simpl.
    rewrite IH. by replace (S i + n)%nat with (i + S n)%nat by lia.
Qed.

Lemma loop_one i st : loop 1 i st = iteration_body i st.
Proof. simpl. by destruct (iteration_body i st). Qed.

(** The order trace only grows at its end. *)
Lemma loop_orders_prefix n i st st' :
  loop n i st = Ok st' → all_accepted_orders st `prefix_of` all_accepted_orders st'.
Proof.
  revert i st. induction n as [|n IH]; intros i st; simpl.
  - by intros [= <-].
  - destruct (iteration_body i st) as [st1|e] eqn:Hbody; [|done]. simpl.
    intros Hloop. apply IH in Hloop.
    apply iteration_body_inv in Hbody as (_ & Hord & _).
    etrans; [|done]. rewrite Hord. by apply prefix_app_r.
Qed.

Lemma rejected_proposal st :
  proposed_ll st = NaN ∨ proposed_ll st = NegInf → accepted st = false.
Proof.
  intros Hll. unfold Sampler.accepted.
  destruct (prob_accept_degenerate _ (current_ln_likelihood st) Hll) as [-> | ->].
  - done.
  - apply accepts_zero, draw_range.
Qed.

Lemma iteration_keeps_not_NaN i st st' :
  iteration_body i st = Ok st' →
  current_ln_likelihood st ≠ NaN → current_ln_likelihood st' ≠ NaN.
Proof.
  intros Hbody Hcur. apply iteration_body_inv in Hbody as (_ & _ & _ & Hdec).
  destruct (accepted st) eqn:Hacc.
  - destruct Hdec as (_ & _ & -> & _). intros Hnan.
    rewrite rejected_proposal in Hacc; [done | by left].
  - by destruct Hdec as (_ & _ & -> & _).
Qed.

Lemma loop_not_NaN n i st st' :
  loop n i st = Ok st' →
  current_ln_likelihood st ≠ NaN → NaN ∉ log_likelihoods st →
  current_ln_likelihood st' ≠ NaN ∧ NaN ∉ log_likelihoods st'.
Proof.
  revert i st. induction n as [|n IH]; intros i st; simpl.
  - by intros [= <-].
  - destruct (iteration_body i st) as [st1|e] eqn:Hbody; [|done]. simpl.
    intros Hloop Hcur Hlog. apply (IH _ _ Hloop).
    + by eapply iteration_keeps_not_NaN.
    + apply iteration_body_inv in Hbody as (-> & _).
      rewrite elem_of_app, list_elem_of_singleton. intros [?|?]; [done|].
      by apply Hcur.
Qed.

(** What the two traces hold at position [k]. *)
Lemma trace_at n g st :
  loop n 0 (initial_state g) = Ok st →
  ∀ j, (j < n)%nat →
    ∃ before after,
      loop j 0 (initial_state g) = Ok before ∧
      iteration_body j before = Ok after ∧
      log_likelihoods st !! j = Some (current_ln_likelihood before) ∧
      all_accepted_orders st !! j = Some (current_order_dict after).
Proof.
  intros Hloop j Hj.
  replace n with (j + S (n - j - 1))%nat in Hloop by lia.
  rewrite loop_split in Hloop.
  destruct (loop j 0 (initial_state g)) as [before|e] eqn:Hbefore; [|done].
  simpl in Hloop.
  destruct (iteration_body j before) as [after|e] eqn:Hbody; [|done].
  simpl in Hloop. exists before, after. repeat split; [done|..].
  - apply loop_lengths in Hbefore as [Hlen _].
    destruct (initial_state_fields data_we_have g) as (_ & _ & _ & Hlog0 & _).
    rewrite Hlog0 in Hlen. simpl in Hlen.
    apply loop_log_prefix in Hloop.
    apply iteration_body_inv in Hbody as (Hlog & _).
    eapply prefix_lookup_Some; [|done].
    rewrite Hlog, lookup_app_r by lia. by rewrite Hlen, Nat.sub_diag.
  - apply loop_lengths in Hbefore as [_ Hlen].
    destruct (initial_state_fields data_we_have g) as (_ & _ & Hord0 & _).
    rewrite Hord0 in Hlen. simpl in Hlen.
    apply loop_orders_prefix in Hloop.
    apply iteration_body_inv in Hbody as (_ & Hord & _).
    eapply prefix_lookup_Some; [|done].
    rewrite Hord, lookup_app_r by lia. by rewrite Hlen, Nat.sub_diag.
Qed.

(** X1: the two traces follow the chain, one step apart.  In a run that
    returns, entry [k] of the log-likelihood trace is the log likelihood
    that iteration [k] started with, and entry [k] of the order trace is
    the ordering that iteration [k] left; so entry [k + 1] of the
    log-likelihood trace is the log likelihood of the ordering at entry
    [k] of the order trace. *)
Theorem traces_follow_the_chain g t :
  metropolis_hastings g = Ok t →
  ∃ orders lls, t = [OrderTrace orders; FloatList lls] ∧
    ∀ k, (k < Z.to_nat iterations)%nat →
      ∃ before after,
        loop k 0 (initial_state g) = Ok before ∧
        iteration_body k before = Ok after ∧
        lls !! k = Some (current_ln_likelihood before) ∧
        orders !! k = Some (current_order_dict after) ∧
        (S k < Z.to_nat iterations →
           lls !! S k = Some (current_ln_likelihood after))%nat.
Proof.
  intros Hret. apply metropolis_hastings_inv in Hret as (st & Hloop & ->).
  exists (all_accepted_orders st), (log_likelihoods st). split; [done|].
  intros k Hk.
  destruct (trace_at _ _ _ Hloop k Hk) as (before & after & Hb & Ha & Hl & Ho).
  exists before, after. repeat split; [done..|].
  intros Hk'.
  destruct (trace_at _ _ _ Hloop (S k) Hk') as (before' & after' & Hb' & _ & Hl' & _).
  replace (S k) with (k + 1)%nat in Hb' by lia.
  rewrite loop_split, Hb in Hb'. simpl in Hb'.
  rewrite Ha in Hb'. simpl in Hb'. by injection Hb' as <-.
Qed.

(** X2: a proposal whose log likelihood is [nan] or minus infinity is
    never accepted, whatever the current log likelihood and the number
    drawn; hence the current log likelihood is never [nan], and no entry
    of the returned log-likelihood trace is. *)
Theorem degenerate_proposals_are_rejected g :
  (∀ st, proposed_ll st = NaN ∨ proposed_ll st = NegInf → accepted st = false) ∧
  (∀ n st, loop n 0 (initial_state g) = Ok st → current_ln_likelihood st ≠ NaN) ∧
  (∀ t, metropolis_hastings g = Ok t →
     ∃ orders lls, t = [OrderTrace orders; FloatList lls] ∧ NaN ∉ lls).
Proof.
  destruct (initial_state_fields data_we_have g) as (Hll & _ & _ & Hlog0 & _).
  assert (∀ n st, loop n 0 (initial_state g) = Ok st →
            current_ln_likelihood st ≠ NaN ∧ NaN ∉ log_likelihoods st) as Hinv.
  { intros n st Hloop. apply (loop_not_NaN _ _ _ _ Hloop).
    - by rewrite Hll.
    - rewrite Hlog0. apply not_elem_of_nil. }
  split; [apply rejected_proposal|]. split.
  - intros n st Hloop. by apply (Hinv n st).
  - intros t Hret. apply metropolis_hastings_inv in Hret as (st & Hloop & ->).
    exists (all_accepted_orders st), (log_likelihoods st). split; [done|].
    by apply (Hinv _ _ Hloop).
Qed.

(** *** A model name that the sampler does not implement *)

Lemma loop_unimplemented n : ∀ i st,
  ¬ implemented → new_theta_phi st = None →
  (∃ st', loop n i st = Ok st' ∧
     log_likelihoods st'
       = log_likelihoods st ++ replicate n (current_ln_likelihood st) ∧
     all_accepted_orders st'
       = all_accepted_orders st ++ replicate n (current_order_dict st)) ∨
  loop n i st = Err (UnboundLocalError "new_theta_phi").
Proof.
  induction n as [|n IH]; intros i st Hno Hnone; simpl.
  { left. exists st. by rewrite !app_nil_r. }
  assert (algorithm ∉ ["conjugate_priors"; "mle"]) as Hnp.
  { intros Hin. apply Hno. unfold Sampler.implemented. by apply list_elem_of_further. }
  assert (algorithm ≠ "hard_kmeans") as Hhk.
  { intros Heq. apply Hno. unfold Sampler.implemented. rewrite Heq.
    apply list_elem_of_here. }
  pose proof (proposed_params_other data_we_have n_shuffle algorithm prior_n
                prior_v st Hnp) as Hpar.
  rewrite Hnone in Hpar.
  destruct (accepted st) eqn:Hacc.
  - right.
    by rewrite (iteration_body_unbound data_we_have iterations n_shuffle algorithm
                  prior_n prior_v i st Hacc Hhk Hpar).
  - destruct (iteration_body_Ok data_we_have iterations n_shuffle algorithm
                prior_n prior_v i st (or_introl Hacc)) as [st1 Hbody].
    rewrite Hbody. simpl.
    apply iteration_body_inv in Hbody as (Hlog & Hord & Hnew & Hdec).
    rewrite Hacc in Hdec. destruct Hdec as (_ & Hdict & Hll & _).
    destruct (IH (S i) st1 Hno) as [(st' & -> & Hlog' & Hord') | ->];
      [by rewrite Hnew | | by right].
    left. exists st'. split; [done|].
    rewrite Hlog', Hord', Hlog, Hord, Hdict, Hll. simpl.
    by rewrite <- !app_assoc.
Qed.

(** X3: for a model name outside ['hard_kmeans'], ['conjugate_priors']
    and ['mle'] the chain never moves: the sampler either raises
    [UnboundLocalError] for [new_theta_phi], or returns the initial
    ordering and minus infinity at every entry of its two traces.  With no
    iteration it returns two empty traces; with at least one and a finite
    first log likelihood it raises. *)
Theorem unimplemented_model_never_moves g :
  ¬ implemented →
  (metropolis_hastings g
     = Ok [OrderTrace (replicate (Z.to_nat iterations)
                         (current_order_dict (initial_state g)));
           FloatList (replicate (Z.to_nat iterations) NegInf)] ∨
   metropolis_hastings g = Err (UnboundLocalError "new_theta_phi")) ∧
  (iterations ≤ 0 →
     metropolis_hastings g = Ok [OrderTrace []; FloatList []])%Z ∧
  (0 < iterations → is_finite (proposed_ll (initial_state g)) = true →
     metropolis_hastings g = Err (UnboundLocalError "new_theta_phi"))%Z.
Proof.
  intros Hno.
  destruct (initial_state_fields data_we_have g) as (Hll & _ & Hord0 & Hlog0 & Hnone).
  split; [|split].
  - unfold Sampler.metropolis_hastings, Sampler.final_state.
    destruct (loop_unimplemented (Z.to_nat iterations) 0 (initial_state g) Hno Hnone)
      as [(st' & -> & Hlog & Hord) | ->]; [left | by right].
    simpl. by rewrite Hlog, Hord, Hlog0, Hord0, Hll.
  - intros Hle. unfold Sampler.metropolis_hastings, Sampler.final_state.
    replace (Z.to_nat iterations) with 0%nat by lia. simpl.
    by rewrite Hlog0, Hord0.
  - by apply accept_without_proposed_parameters.
Qed.

(** *** The baseline *)

(** X4: under ['hard_kmeans'] the parameter set never changes: after any
    number of completed iterations [current_theta_phi] is still the
    estimate that [get_theta_phi_estimates] gave before the loop, and
    [new_theta_phi] is still unbound. *)
Theorem baseline_keeps_the_parameters g n st :
  algorithm = "hard_kmeans" →
  loop n 0 (initial_state g) = Ok st →
  current_theta_phi st = theta_phi_default ∧ new_theta_phi st = None.
Proof.
  intros Halg.
  assert (∀ n i st st', loop n i st = Ok st' →
            current_theta_phi st' = current_theta_phi st ∧
            (new_theta_phi st = None → new_theta_phi st' = None)) as Hinv.
  { clear n st. induction n as [|n IH]; intros i st st'; simpl.
    - by intros [= <-].
    - destruct (iteration_body i st) as [st1|e] eqn:Hbody; [|done]. simpl.
      intros Hloop. apply IH in Hloop as [-> Hnew].
      apply iteration_body_inv in Hbody as (_ & _ & Hpar & Hdec).
      rewrite proposed_params_other in Hpar.
      2:{ rewrite Halg. intros Hin.
          by repeat (apply elem_of_cons in Hin as [?|Hin]; [done|]);
            apply elem_of_nil in Hin. }
      split; [|intros; apply Hnew; congruence].
      destruct (accepted st).
      + destruct Hdec as (_ & _ & _ & _ & Hdec).
        by rewrite bool_decide_eq_true_2 in Hdec.
      + by destruct Hdec as (_ & _ & _ & _ & ->). }
  intros Hloop. apply Hinv in Hloop as [-> Hnew].
  split; [|apply Hnew]; unfold Sampler.initial_state;
    by destruct (np_random_permutation _ _).
Qed.

(** *** The progress log *)

Abbreviation step := (Z.max 10 (iterations `div` 10)).

Lemma iteration_body_logged i st st' :
  iteration_body i st = Ok st' →
  (acceptance_count st ≤ acceptance_count st' ≤ S (acceptance_count st))%nat ∧
  logged st'
  = if bool_decide ((Z.of_nat i + 1) `mod` step = 0)%Z
    then logged st ++
         [{| at_iteration := Z.of_nat i + 1;
             acceptance_ratio :=
               qc 100 1 * of_nat (acceptance_count st') / of_nat (i + 1);
             logged_ln_likelihood := current_ln_likelihood st';
             logged_order := (current_order_dict st').*2 |}]
    else logged st.
Proof.
  unfold Sampler.iteration_body. rewrite propose_eta. simpl.
  destruct (np_random_rand _) as [u g']. simpl.
  destruct (accepts _ _).
  - case_bool_decide as Hhk.
    + destruct (proposed_params st) as [tp|]; [|done].
      simpl. intros [= <-]. simpl. split; [lia|done].
    + simpl. intros [= <-]. simpl. split; [lia|done].
  - simpl. intros [= <-]. simpl. split; [lia|done].
Qed.

(** A line of the log written up to iteration [b]. *)
Abbreviation line_ok b :=
  (λ line : progress,
     (at_iteration line `mod` step = 0 ∧ 0 < at_iteration line ≤ b)%Z ∧
     0 ≤ acceptance_ratio line ∧ acceptance_ratio line ≤ qc 100 1).

Lemma loop_logged n : ∀ i st st',
  loop n i st = Ok st' →
  (acceptance_count st ≤ i)%nat →
  Z.of_nat (length (logged st)) = (Z.of_nat i `div` step)%Z →
  Forall (line_ok (Z.of_nat i)) (logged st) →
  (acceptance_count st' ≤ i + n)%nat ∧
  Z.of_nat (length (logged st')) = (Z.of_nat (i + n) `div` step)%Z ∧
  Forall (line_ok (Z.of_nat (i + n))) (logged st').
Proof.
  induction n as [|n IH]; intros i st st'; simpl.
  { intros [= <-]. by rewrite Nat.add_0_r. }
  destruct (iteration_body i st) as [st1|e] eqn:Hbody; [|done]. simpl.
  intros Hloop Hcount Hlen Hlines.
  apply iteration_body_logged in Hbody as [Hc Hlog].
  replace (i + S n)%nat with (S i + n)%nat by lia.
  apply (IH _ _ _ Hloop); [lia|..].
  - rewrite Hlog, Nat2Z.inj_succ. unfold Z.succ.
    rewrite div_succ by lia.
    case_bool_decide; [rewrite length_app; simpl|]; lia.
  - assert (Forall (line_ok (Z.of_nat (S i))) (logged st)) as Hold.
    { eapply Forall_impl; [done|]. intros line ((? & ? & ?) & ? & ?).
      repeat split; [done..|lia|done|done]. }
    rewrite Hlog. case_bool_decide as Hmod; [|done].
    apply Forall_app. split; [done|]. apply Forall_singleton.
    simpl. split; [split; [done|lia]|].
    apply percentage_range; lia.
Qed.

(** X5: the progress log.  A run of [iterations = N >= 0] that completes
    has logged [N // max(10, N // 10)] lines, so at most ten, and none
    when [N < 10]; every line is written at an iteration that is a
    multiple of [max(10, N // 10)], and its acceptance ratio is a
    percentage between 0 and 100. *)
Theorem progress_log g st :
  final_state g = Ok st →
  (0 ≤ iterations →
     Z.of_nat (length (logged st)) = iterations `div` step)%Z ∧
  (length (logged st) ≤ 10)%nat ∧
  (iterations < 10 → logged st = [])%Z ∧
  ∀ line, line ∈ logged st →
    (at_iteration line `mod` step = 0 ∧ 0 < at_iteration line ≤ iterations)%Z ∧
    0 ≤ acceptance_ratio line ∧ acceptance_ratio line ≤ qc 100 1.
Proof.
  unfold Sampler.final_state. intros Hloop.
  apply loop_logged in Hloop as (_ & Hlen & Hlines).
  2: { unfold Sampler.initial_state. destruct (np_random_permutation _ _). simpl. lia. }
  2: { unfold Sampler.initial_state. destruct (np_random_permutation _ _). simpl.
       by rewrite Z.div_0_l by lia. }
  2: { unfold Sampler.initial_state. destruct (np_random_permutation _ _). simpl.
       constructor. }
  simpl in Hlen, Hlines.
  assert (Z.of_nat (length (logged st)) ≤ 10)%Z as Hten.
  { rewrite Hlen. destruct (decide (0 ≤ iterations)%Z) as [Hpos|Hneg].
    - rewrite Z2Nat.id by done. by apply progress_lines_bound.
    - replace (Z.to_nat iterations) with 0%nat by lia.
      by rewrite Z.div_0_l by lia. }
  split; [|split; [lia|split]].
  - intros Hn. by rewrite Hlen, Z2Nat.id.
  - intros Hn. apply length_zero_iff_nil.
    destruct (decide (0 ≤ iterations)%Z) as [Hpos|Hneg].
    + rewrite Z2Nat.id in Hlen by done.
      rewrite Z.max_l in Hlen by (pose proof (Z.div_lt_upper_bound iterations 10 1); lia).
      rewrite Z.div_small in Hlen by lia. lia.
    + replace (Z.to_nat iterations) with 0%nat in Hlen by lia.
      rewrite Z.div_0_l in Hlen by lia. lia.
  - intros line Hin. rewrite Forall_forall in Hlines.
    destruct (Hlines line Hin) as ((? & ? & ?) & ? & ?).
    repeat split; [done..|lia|done|done].
Qed.

End Run.
End WithCollaborators.
End SamplerExtras.

(** ** The KDE engine, further *)

Module WindowFacts.
Import FastKde EvaluateFacts UpdaterFacts EvaluatorFacts.

Section WithNumPy.
Context `{!NumPy}.
Implicit Types (self : FastKDE) (points : list Qc) (cache : gmap Qc Qc).

(** *** The window of [evaluate] *)

(** Reading two arrays at the positions that a filter on the first one
    selects. *)
Lemma gather_filtered {A} (Q : Qc → Prop) `{!∀ y, Decision (Q y)}
    (d : list Qc) : ∀ (w : list A) (pre : list Qc) (pre' : list A),
  length pre' = length pre → length w = length d →
  mapM (array_get (pre ++ d))
       (filter (λ p, Q p.2) (imap (λ i y, (length pre + i, y)%nat) d)).*1
    = Ok (filter (λ sw, Q sw.1) (zip d w)).*1 ∧
  mapM (array_get (pre' ++ w))
       (filter (λ p, Q p.2) (imap (λ i y, (length pre + i, y)%nat) d)).*1
    = Ok (filter (λ sw, Q sw.1) (zip d w)).*2.
Proof.
  induction d as [|y d IH]; intros w pre pre' Hpre Hw; [done|].
  destruct w as [|v w]; [done|]. simpl in Hw.
  destruct (IH w (pre ++ [y]) (pre' ++ [v])) as [IHd IHw].
  { rewrite !length_app. simpl. lia. }
  { lia. }
  rewrite <- app_assoc in IHd. rewrite <- app_assoc in IHw. simpl in IHd, IHw.
  assert (imap (λ i y0, (length (pre ++ [y]) + i, y0)%nat) d
          = imap ((λ i y0, (length pre + i, y0)%nat) ∘ S) d) as Himap.
  { apply imap_ext. intros i z _. simpl. rewrite length_app. simpl.
    f_equal. lia. }
  rewrite Himap in IHd, IHw.
  cbn [imap zip_with]. rewrite !filter_cons. cbn [fst snd].
  destruct (decide (Q y)) as [Hy|Hy]; [|done].
  rewrite !fmap_cons, !mapM_cons_result, IHd, IHw. cbn [fst snd].
  unfold array_get.
  rewrite Nat.add_0_r, list_lookup_middle by done.
  rewrite <- Hpre, list_lookup_middle by done. done.
Qed.

Lemma neighbour_density_window self x :
  kde_wf self → tree self = data self →
  neighbour_density self x
  = Ok (match window self x with
        | [] => None
        | _ => Some (truncated_density self x)
        end).
Proof.
  intros Hwf Htree. unfold neighbour_density, query_ball_point.
  destruct (gather_filtered (λ y, Qcabs (y - x) ≤ qc 3 1 * bandwidth self)
              (data self) (weights self) [] [] eq_refl Hwf) as [Hd Hw].
  simpl in Hd, Hw. rewrite Htree.
  change (imap pair (data self)) with (imap (λ i y, (0 + i, y)%nat) (data self)).
  fold (window self x) in Hd, Hw.
  destruct (filter _ (imap _ (data self))).*1 as [|i idx] eqn:Hidx.
  - simpl in Hd. injection Hd as Hd.
    by destruct (window self x).
  - rewrite Hd, Hw. simpl. unfold truncated_density.
    destruct (window self x) eqn:Hwin; [|done].
    by apply mapM_length_result in Hd.
Qed.

Lemma density_or_zero_window self x :
  kde_wf self → tree self = data self →
  density_or_zero self x = Ok (truncated_density self x).
Proof.
  intros Hwf Htree. unfold density_or_zero.
  rewrite neighbour_density_window by done. simpl.
  unfold truncated_density. by destruct (window self x).
Qed.

Lemma filter_all {A} (P : A → Prop) `{!∀ a, Decision (P a)} (l : list A) :
  Forall P l → filter P l = l.
Proof.
  induction 1 as [|a l Ha _ IH]; [done|]. by rewrite filter_cons_True, IH.
Qed.

(** What [evaluate] returns, whichever branch it takes. *)
Lemma evaluate_densities self points :
  cache_consistent self (_cache self) →
  (evaluate self points).1 = mapM (density_or_zero self) points.
Proof.
  intros Hc.
  destruct (evaluate_small_spec self points 0 (replicate (length points) 0)
              (_cache self) Hc) as (cache' & Hc' & Hsmall).
  { by rewrite length_replicate. }
  { intros q Hq. apply lookup_replicate_2. lia. }
  unfold evaluate. case_bool_decide; [|apply evaluate_large_spec].
  rewrite Hsmall. simpl. destruct (mapM _ points); [|done]. simpl.
  rewrite drop_ge by (by rewrite length_replicate). by rewrite app_nil_r.
Qed.

(** X6: what [evaluate] computes.  On an instance as the constructor
    builds it (one weight per sample, the tree over the samples) whose
    cache holds densities of its keys, [evaluate] never raises and returns
    for every point the weighted kernel sum over the samples within three
    bandwidths of the point only: zero when no sample is that near, and
    the full sum of [weighted_kde_evaluate] when all of them are. *)
Theorem evaluate_sums_the_window self points :
  kde_wf self → tree self = data self →
  cache_consistent self (_cache self) →
  (evaluate self points).1 = Ok (truncated_density self <$> points) ∧
  (∀ x, window self x = [] → truncated_density self x = 0) ∧
  (∀ x, (∀ s, s ∈ data self → Qcabs (s - x) ≤ qc 3 1 * bandwidth self) →
     truncated_density self x
     = weighted_kde_evaluate x (data self) (weights self) (bandwidth self)).
Proof.
  intros Hwf Htree Hc. split; [|split].
  - rewrite evaluate_densities by done.
    apply mapM_pointwise. intros x _. by apply density_or_zero_window.
  - intros x Hwin. unfold truncated_density. by rewrite Hwin.
  - intros x Hall. unfold truncated_density, window.
    rewrite filter_all.
    + unfold weighted_kde_evaluate. by rewrite zip_fst_snd.
    + apply Forall_forall. intros [s w] Hin. simpl. apply Hall.
      apply elem_of_zip_l in Hin. done.
Qed.

(** X7: [evaluate] and [batch_weighted_kde_evaluate] agree where the
    window hides nothing: when every sample lies within three bandwidths of
    every point, [evaluate] returns what [batch_weighted_kde_evaluate]
    returns for the samples, weights and bandwidth of the instance. *)
Theorem evaluate_agrees_with_batch self points :
  kde_wf self → tree self = data self →
  cache_consistent self (_cache self) →
  (∀ x s, x ∈ points → s ∈ data self →
     Qcabs (s - x) ≤ qc 3 1 * bandwidth self) →
  (evaluate self points).1
  = Ok (batch_weighted_kde_evaluate points (data self) (weights self)
          (bandwidth self)).
Proof.
  intros Hwf Htree Hc Hnear. rewrite evaluate_densities by done.
  unfold batch_weighted_kde_evaluate. apply mapM_pointwise. intros x Hx.
  rewrite density_or_zero_window by done. f_equal.
  unfold truncated_density, window. rewrite filter_all.
  - unfold weighted_kde_evaluate. by rewrite zip_fst_snd.
  - apply Forall_forall. intros [s w] Hin. simpl. apply (Hnear x s Hx).
    by apply elem_of_zip_l in Hin.
Qed.

End WithNumPy.
End WindowFacts.

Module ConstructorFacts.
Import FastKde EvaluateFacts UpdaterFacts EvaluatorFacts.

Section WithNumPy.
Context `{!NumPy}.
Implicit Types (self : FastKDE) (points results : list Qc) (cache : gmap Qc Qc).

(** *** The constructor *)

Lemma uniform_weights (n : nat) :
  (if bool_decide (0 < np_sum (replicate n 1))
   then (λ w, w / np_sum (replicate n 1)) <$> replicate n 1
   else replicate n 1) = uniform n.
Proof.
  rewrite np_sum_replicate, Qcmult_1_r. destruct n as [|n]; [by case_bool_decide|].
  rewrite bool_decide_eq_true_2 by (apply of_nat_pos; lia).
  by rewrite fmap_replicate.
Qed.

(** X8: the weights of a new instance.  [FastKDE(data, weights)] keeps the
    samples, builds the tree over them and starts with an empty cache.
    With no weights given every sample gets the weight [1 / n].  Given
    weights are divided by their sum when that sum is positive, and then
    sum to one; when it is not they are kept as they are.  Their number is
    not compared with the number of samples. *)
Theorem constructor_normalizes_weights (samples : list Qc)
    (ws : option (list Qc)) (bw : bandwidth_arg) self :
  FastKDE_new samples ws bw = Ok self →
  data self = samples ∧ tree self = samples ∧ _cache self = ∅ ∧
  match ws with
  | None => weights self = uniform (length samples)
  | Some w =>
      length (weights self) = length w ∧
      (0 < np_sum w →
         weights self = (λ v, v / np_sum w) <$> w ∧ np_sum (weights self) = 1) ∧
      (¬ 0 < np_sum w → weights self = w)
  end.
Proof.
  unfold FastKDE_new.
  destruct (match bw with Silverman => _ | _ => _ end) as [b|e]; [|done].
  simpl. intros [= <-]. simpl. repeat split.
  destruct ws as [w|].
  - split; [case_bool_decide; by rewrite ?length_fmap|]. split.
    + intros Hpos. rewrite bool_decide_eq_true_2 by done.
      split; [done|]. by apply normalized_sum.
    + intros Hpos. by rewrite bool_decide_eq_false_2.
  - apply uniform_weights.
Qed.

(** X9: the bandwidth of a new instance.  A bandwidth given as a number is
    raised to [1e-6] when it is below, and the construction succeeds.
    With ['silverman'] the construction raises
    [ZeroDivisionError] on an empty sample, and on a non-empty one the
    bandwidth is [max(np.std(data), 1e-6) * (4 / (3 * n)) ** (1/5)]. *)
Theorem constructor_bandwidth (samples : list Qc) (ws : option (list Qc)) :
  (∀ b, ∃ self,
     FastKDE_new samples ws (Bandwidth b) = Ok self ∧
     qc 1 1000000 ≤ bandwidth self ∧
     (qc 1 1000000 ≤ b → bandwidth self = b) ∧
     (b < qc 1 1000000 → bandwidth self = qc 1 1000000)) ∧
  (samples = [] → FastKDE_new samples ws Silverman = Err ZeroDivisionError) ∧
  (samples ≠ [] →
     ∃ self, FastKDE_new samples ws Silverman = Ok self ∧
       bandwidth self
       = py_max (np_std samples) (qc 1 1000000)
         * fifth_root (qc 4 1 / (qc 3 1 * of_nat (length samples)))).
Proof.
  split; [|split].
  - intros b. eexists. split; [reflexivity|]. simpl. unfold py_max.
    case_bool_decide as Hb; (split; [|split]); try done.
    + intros Hle. by apply Qcle_not_lt in Hle.
    + by apply Qcnot_lt_le.
  - by intros ->.
  - intros Hne. unfold FastKDE_new.
    rewrite (bool_decide_eq_false_2 (length samples = 0%nat))
      by (by destruct samples).
    eexists. split; [reflexivity|done].
Qed.

(** *** The cache *)

Lemma evaluate_small_cache self points : ∀ i results cache,
  cache ⊆ (evaluate_small self i points results cache).2 ∧
  (size (evaluate_small self i points results cache).2 ≤ size cache `max` 1000)%nat ∧
  (∀ x v, (evaluate_small self i points results cache).2 !! x = Some v →
     cache !! x = Some v ∨ (x ∈ points ∧ neighbour_density self x = Ok (Some v))).
Proof.
  induction points as [|x points IH]; intros i results cache; simpl.
  { split; [done|]. split; [lia|auto]. }
  destruct (cache !! x) as [v|] eqn:Hx.
  { destruct (IH (S i) (<[i:=v]> results) cache) as (Hsub & Hsize & Hnew).
    split; [done|]. split; [done|]. intros y w Hy.
    destruct (Hnew y w Hy) as [?|[? ?]]; [by left|right].
    split; [by apply list_elem_of_further|done]. }
  destruct (neighbour_density self x) as [[v|]|e] eqn:Hd; simpl.
  - case_bool_decide as Hfull.
    + destruct (IH (S i) (<[i:=v]> results) (<[x:=v]> cache)) as (Hsub & Hsize & Hnew).
      split; [|split].
      * etrans; [|done]. by apply insert_subseteq.
      * rewrite map_size_insert_None in Hsize by done. lia.
      * intros y w Hy. destruct (Hnew y w Hy) as [Hin|[? ?]].
        -- destruct (decide (x = y)) as [<-|Hne].
           ++ rewrite lookup_insert_eq in Hin. injection Hin as <-.
              right. split; [apply list_elem_of_here|done].
           ++ rewrite lookup_insert_ne in Hin by done. by left.
        -- right. split; [by apply list_elem_of_further|done].
    + destruct (IH (S i) (<[i:=v]> results) cache) as (Hsub & Hsize & Hnew).
      split; [done|]. split; [done|]. intros y w Hy.
      destruct (Hnew y w Hy) as [?|[? ?]]; [by left|right].
      split; [by apply list_elem_of_further|done].
  - destruct (IH (S i) results cache) as (Hsub & Hsize & Hnew).
    split; [done|]. split; [done|]. intros y w Hy.
    destruct (Hnew y w Hy) as [?|[? ?]]; [by left|right].
    split; [by apply list_elem_of_further|done].
  - split; [done|]. split; [lia|auto].
Qed.

(** X10: [evaluate] changes nothing of an instance but its cache.  The
    cache only grows: an entry is never overwritten or removed, a new
    entry maps a point of the call to its density, and the cache never
    comes to hold more than 1000 entries (or than it held before).  A call
    with more than ten points leaves the instance as it was. *)
Theorem evaluate_keeps_the_cache_bounded self points :
  data (evaluate self points).2 = data self ∧
  weights (evaluate self points).2 = weights self ∧
  bandwidth (evaluate self points).2 = bandwidth self ∧
  tree (evaluate self points).2 = tree self ∧
  _cache self ⊆ _cache (evaluate self points).2 ∧
  (size (_cache (evaluate self points).2) ≤ size (_cache self) `max` 1000)%nat ∧
  (∀ x v, _cache (evaluate self points).2 !! x = Some v →
     _cache self !! x = Some v ∨
     (x ∈ points ∧ neighbour_density self x = Ok (Some v))) ∧
  (10 < length points → (evaluate self points).2 = self)%nat.
Proof.
  unfold evaluate. case_bool_decide as Hlen.
  - destruct (evaluate_small_cache self points 0 (replicate (length points) 0)
                (_cache self)) as (Hsub & Hsize & Hnew).
    destruct (evaluate_small _ _ _ _ _) as [r cache']. simpl in *.
    repeat split; [done..|lia].
  - simpl. repeat split; [done|lia|auto].
Qed.

End WithNumPy.
End ConstructorFacts.

Module LogpdfFacts.
Import FastKde EvaluateFacts UpdaterFacts EvaluatorFacts.

Section WithNumPy.
Context `{!NumPy}.
Implicit Types (self : FastKDE) (points results : list Qc) (cache : gmap Qc Qc).

(** *** The shape of the result *)

Lemma evaluate_small_length self points : ∀ i results cache rs,
  (evaluate_small self i points results cache).1 = Ok rs →
  length rs = length results.
Proof.
  induction points as [|x points IH]; intros i results cache rs; simpl.
  { by intros [= <-]. }
  destruct (cache !! x) as [v|].
  { intros Hrs. apply IH in Hrs. by rewrite length_insert in Hrs. }
  destruct (neighbour_density self x) as [[v|]|e]; simpl; [| |done].
  - intros Hrs. apply IH in Hrs. by rewrite length_insert in Hrs.
  - apply IH.
Qed.

Lemma evaluate_chunk_length self i chunk : ∀ j results rs,
  evaluate_chunk self i j chunk results = Ok rs → length rs = length results.
Proof.
  induction chunk as [|x chunk IH]; intros j results rs; simpl.
  { by intros [= <-]. }
  destruct (neighbour_density self x) as [[v|]|e]; simpl; [| |done].
  - intros Hrs. apply IH in Hrs. by rewrite length_insert in Hrs.
  - apply IH.
Qed.

Lemma evaluate_chunks_length self chunk_size starts points : ∀ results rs,
  evaluate_chunks self chunk_size starts points results = Ok rs →
  length rs = length results.
Proof.
  induction starts as [|i starts IH]; intros results rs; simpl.
  { by intros [= <-]. }
  destruct (evaluate_chunk _ _ _ _ _) as [r|e] eqn:Hchunk; [|done]. simpl.
  intros Hrs. apply IH in Hrs. apply evaluate_chunk_length in Hchunk. congruence.
Qed.

Lemma evaluate_length self points rs :
  (evaluate self points).1 = Ok rs → length rs = length points.
Proof.
  unfold evaluate. case_bool_decide.
  - destruct (evaluate_small _ _ _ _ _) as [r cache'] eqn:Hsmall. simpl.
    intros ->.
    pose proof (evaluate_small_length self points 0 (replicate (length points) 0)
                  (_cache self) rs) as Hlen.
    rewrite Hsmall in Hlen. rewrite Hlen by done. apply length_replicate.
  - simpl. unfold evaluate_large. intros Hrs.
    apply evaluate_chunks_length in Hrs. by rewrite length_replicate in Hrs.
Qed.

(** X11: [logpdf] is the floored logarithm of [evaluate].  It leaves the
    instance as [evaluate] does and raises what [evaluate] raises;
    otherwise it returns one value per point, the logarithm of the density
    where the density is at least [EPSILON] and [log(EPSILON)] where it is
    below, so never minus infinity and never [nan]. *)
Theorem logpdf_is_floored self points :
  (logpdf self points).2 = (evaluate self points).2 ∧
  (∀ e, (evaluate self points).1 = Err e → (logpdf self points).1 = Err e) ∧
  (∀ densities, (evaluate self points).1 = Ok densities →
     length densities = length points ∧
     (logpdf self points).1
     = Ok ((λ d, Fin (log_pos (if bool_decide (d < EPSILON) then EPSILON else d)))
             <$> densities)) ∧
  (∀ ls, (logpdf self points).1 = Ok ls →
     length ls = length points ∧ Forall (λ l, is_finite l = true) ls).
Proof.
  unfold logpdf. destruct (evaluate self points) as [r self'] eqn:Heval. simpl.
  assert (∀ d, np_log (Fin (np_maximum d EPSILON))
               = Fin (log_pos (if bool_decide (d < EPSILON) then EPSILON else d)))
    as Hlog.
  { intros d. unfold np_maximum, np_log.
    destruct (bool_decide (d < EPSILON)) eqn:Hd.
    - by rewrite (bool_decide_eq_true_2 _ EPSILON_pos).
    - apply bool_decide_eq_false in Hd.
      rewrite bool_decide_eq_true_2; [done|].
      eapply Qclt_le_trans; [apply EPSILON_pos|]. by apply Qcnot_lt_le. }
  assert (∀ ds, r = Ok ds → length ds = length points) as Hlen.
  { intros ds ->. apply (evaluate_length self). by rewrite Heval. }
  split; [done|]. split; [by intros e ->|]. split.
  - intros ds ->. split; [by apply Hlen|]. simpl. f_equal.
    apply list_fmap_ext. intros _ d _. apply Hlog.
  - destruct r as [ds|e]; [|done]. simpl. intros ls [= <-].
    split; [rewrite length_fmap; by apply Hlen|].
    apply Forall_fmap, Forall_forall. intros d _.
    change (is_finite (np_log (Fin (np_maximum d EPSILON))) = true).
    by rewrite Hlog.
Qed.

(** X12: [==] on two instances compares the samples, the weights and
    the bandwidth, and nothing else.  Over exact numbers it is reflexive,
    symmetric and transitive, and an instance stays equal to itself across
    [evaluate] and [logpdf], which only touch the cache. *)
Theorem eq_compares_the_estimate (a b c : FastKDE) (points : list Qc) :
  (FastKDE_eq a b = true ↔
     data a = data b ∧ weights a = weights b ∧ bandwidth a = bandwidth b) ∧
  FastKDE_eq a a = true ∧
  FastKDE_eq a b = FastKDE_eq b a ∧
  (FastKDE_eq a b = true → FastKDE_eq b c = true → FastKDE_eq a c = true) ∧
  FastKDE_eq a (evaluate a points).2 = true ∧
  FastKDE_eq a (logpdf a points).2 = true.
Proof.
  assert (∀ x y, FastKDE_eq x y = true ↔
            data x = data y ∧ weights x = weights y ∧ bandwidth x = bandwidth y)
    as Heq.
  { intros x y. unfold FastKDE_eq.
    rewrite !andb_true_iff, !bool_decide_eq_true. tauto. }
  assert (∀ x pts, FastKDE_eq x (evaluate x pts).2 = true) as Heval.
  { intros x pts. apply Heq. unfold evaluate. case_bool_decide; [|done].
    by destruct (evaluate_small _ _ _ _ _). }
  split; [apply Heq|]. split; [by apply Heq|]. split; [|split; [|split]].
  - apply eq_true_iff_eq. rewrite !Heq. intuition congruence.
  - rewrite !Heq. intuition congruence.
  - apply Heval.
  - unfold logpdf. pose proof (Heval a points) as Hev.
    by destruct (evaluate a points).
Qed.

End WithNumPy.
End LogpdfFacts.

(** *** The kernel *)

Module KernelFacts.
Import FastKde EvaluateFacts EvaluatorFacts WindowFacts.

Section WithNumPy.
Context `{!NumPy}.
Implicit Types (self : FastKDE) (x xi c bw : Qc) (samples ws points : list Qc).

Lemma Qcmult_nonneg (a b : Qc) : 0 ≤ a → 0 ≤ b → 0 ≤ a * b.
Proof.
  intros Ha Hb. rewrite <- (Qcmult_0_l b). by apply Qcmult_le_compat_r.
Qed.

Lemma Qcinv_nonneg (a : Qc) : 0 < a → 0 ≤ / a.
Proof.
  intros Ha. apply (Qcmult_lt_0_le_reg_r _ _ a Ha).
  rewrite Qcmult_0_l, Qcmult_inv_l; [done|].
  intros Hz. rewrite Hz in Ha. by apply Qclt_not_eq in Ha.
Qed.

Lemma gaussian_kernel_nonneg x xi bw :
  (∀ q, 0 ≤ exp_fin q) → 0 < bw → 0 ≤ gaussian_kernel x xi bw.
Proof.
  intros Hexp Hbw. unfold gaussian_kernel, Qcdiv.
  apply Qcmult_nonneg; [apply Qcmult_nonneg; [done|apply Hexp]|].
  by apply Qcinv_nonneg.
Qed.

Lemma kernel_sum_nonneg x bw (sw : list (Qc * Qc)) : ∀ acc,
  (∀ q, 0 ≤ exp_fin q) → 0 < bw → 0 ≤ acc →
  Forall (λ p, 0 ≤ p.2) sw →
  0 ≤ foldl (λ result p, result + p.2 * gaussian_kernel x p.1 bw) acc sw.
Proof.
  induction sw as [|[s w] sw IH]; intros acc Hexp Hbw Hacc Hw; [done|].
  apply Forall_cons in Hw as [Hw Hrest]. simpl. apply IH; [done..| |done].
  rewrite <- (Qcplus_0_l 0). apply Qcplus_le_compat; [done|].
  apply Qcmult_nonneg; [done|by apply gaussian_kernel_nonneg].
Qed.

(** X25: densities are not negative.  Where [np.exp] is not negative, on
    an instance with a positive bandwidth and weights that are not
    negative (one per sample, the tree over the samples, a cache of
    densities), every density that [evaluate] returns is at least zero,
    and so is every value of [weighted_kde_evaluate] over its samples. *)
Theorem densities_are_not_negative self points densities :
  (∀ q, 0 ≤ exp_fin q) →
  0 < bandwidth self → Forall (λ w, 0 ≤ w) (weights self) →
  kde_wf self → tree self = data self →
  cache_consistent self (_cache self) →
  (evaluate self points).1 = Ok densities →
  Forall (λ d, 0 ≤ d) densities ∧
  ∀ x, 0 ≤ weighted_kde_evaluate x (data self) (weights self) (bandwidth self).
Proof.
  intros Hexp Hbw Hw Hwf Htree Hc Heval.
  assert (∀ (sw : list (Qc * Qc)), Forall (λ p, 0 ≤ p.2) sw →
            ∀ x, 0 ≤ weighted_kde_evaluate x sw.*1 sw.*2 (bandwidth self)) as Hsum.
  { intros sw Hsw x. unfold weighted_kde_evaluate. rewrite zip_fst_snd.
    by apply kernel_sum_nonneg. }
  assert (Forall (λ p : Qc * Qc, 0 ≤ p.2) (zip (data self) (weights self))) as Hzip.
  { apply Forall_forall. intros [s w] Hin. simpl.
    rewrite Forall_forall in Hw. apply Hw. by apply elem_of_zip_r in Hin. }
  split.
  - rewrite evaluate_densities in Heval by done.
    rewrite (mapM_pointwise (density_or_zero self) (truncated_density self)) in Heval
      by (intros; by apply density_or_zero_window).
    injection Heval as <-. apply Forall_fmap, Forall_forall. intros x _.
    unfold compose, truncated_density. apply (Hsum (window self x)).
    unfold window. apply Forall_forall. intros p Hp.
    apply list_elem_of_filter in Hp as [_ Hp].
    rewrite Forall_forall in Hzip. by apply Hzip.
  - intros x. specialize (Hsum (zip (data self) (weights self)) Hzip x).
    unfold weighted_kde_evaluate in *. by rewrite zip_fst_snd in Hsum.
Qed.

End WithNumPy.
End KernelFacts.

(** ** The EM updater, further *)

Section MoreSums.
Lemma np_sum_nonneg (a : list Qc) : Forall (λ x, 0 ≤ x) a → 0 ≤ np_sum a.
Proof.
  induction 1 as [|x a Hx _ IH]; [done|]. rewrite np_sum_cons.
  rewrite <- (Qcplus_0_l 0). by apply Qcplus_le_compat.
Qed.

Lemma zip_with_minus_diag (a : list Qc) :
  zip_with Qcminus a a = replicate (length a) 0.
Proof.
  induction a as [|x a IH]; [done|]. simpl. rewrite IH. f_equal.
  unfold Qcminus. apply Qcplus_opp_r.
Qed.
End MoreSums.

Module UpdaterExtras.
Import FastKde EvaluateFacts UpdaterFacts EvaluatorFacts.

Section WithNumPy.
Context `{!NumPy}.
Implicit Types (probs tw pw : list Qc) (stages : list Z).

(** The first statement of a sequence returns, or the sequence raises. *)
Ltac bind_head H :=
  match goal with
  | |- mbind _ ?m = _ → _ => destruct m eqn:H; simpl; [|done]
  end.

Lemma array_set_length {A} (a a' : list A) i v :
  array_set a i v = Ok a' → length a' = length a.
Proof.
  unfold array_set. case_bool_decide; [|done]. intros [= <-].
  apply length_insert.
Qed.

Lemma em_weights_from_length (pd : list (Z * bool)) stage_post stages curr_order :
  ∀ i tw pw t p,
    em_weights_from i pd stage_post stages curr_order tw pw = Ok (t, p) →
    length t = length tw ∧ length p = length pw.
Proof.
  induction pd as [|[q d] pd IH]; intros i tw pw t p; simpl.
  { by intros [= <- <-]. }
  destruct d; simpl.
  - bind_head Hq. bind_head Hm. bind_head Htw. bind_head Hm'. bind_head Hpw.
    intros Hrec. apply IH in Hrec as [-> ->].
    by rewrite (array_set_length _ _ _ _ Htw), (array_set_length _ _ _ _ Hpw).
  - bind_head Hpw.
    intros Hrec. apply IH in Hrec as [-> ->].
    by rewrite (array_set_length _ _ _ _ Hpw).
Qed.

Lemma normalize_or_uniform_length (w : list Qc) :
  length (normalize_or_uniform w) = length w.
Proof.
  unfold normalize_or_uniform.
  case_bool_decide; by rewrite !length_fmap, ?length_replicate.
Qed.

Lemma normalize_or_uniform_sum (w : list Qc) :
  w ≠ [] → np_sum (normalize_or_uniform w) = 1.
Proof.
  intros Hne. destruct (decide (0 < np_sum w)) as [Hpos|Hpos].
  - by apply normalize_positive.
  - by apply normalize_degenerate.
Qed.

(** The new weight vectors have one entry per measurement and sum to one. *)
Lemma em_weights_shape participants (measurements : list Qc) diseased stage_post
    stages curr_order new_theta new_phi :
  em_weights participants measurements diseased stage_post stages curr_order
    = Ok (new_theta, new_phi) →
  (length new_theta = length measurements ∧ length new_phi = length measurements) ∧
  (measurements ≠ [] → np_sum new_theta = 1 ∧ np_sum new_phi = 1).
Proof.
  unfold em_weights.
  destruct (em_weights_from _ _ _ _ _ _ _) as [[t p]|] eqn:Hloop; [|done].
  simpl. intros [= <- <-].
  apply em_weights_from_length in Hloop as [Ht Hp].
  rewrite length_replicate in Ht, Hp.
  rewrite !normalize_or_uniform_length. split; [done|].
  intros Hne. split; apply normalize_or_uniform_sum; intros ->;
    by destruct measurements.
Qed.

(** The mean absolute difference is [nan] or not negative, and zero between
    a non-empty vector and itself. *)
Lemma mean_abs_diff_range (a b : list Qc) (change : float) :
  mean_abs_diff a b = Ok change →
  change = NaN ∨ ∃ q, change = Fin q ∧ 0 ≤ q.
Proof.
  unfold mean_abs_diff. destruct (np_sub a b) as [diff|]; [|done]. simpl.
  intros [= <-]. unfold np_mean, np_abs.
  destruct diff as [|x diff]; [by left|right].
  eexists. split; [done|].
  assert (0 < of_nat (length (Qcabs <$> x :: diff))) as Hpos.
  { apply of_nat_pos. simpl. lia. }
  apply (Qcmult_lt_0_le_reg_r _ _ _ Hpos). rewrite Qcmult_0_l.
  unfold Qcdiv. rewrite <- Qcmult_assoc, Qcmult_inv_l, Qcmult_1_r.
  - apply np_sum_nonneg, Forall_fmap, Forall_forall. intros y _. apply Qcabs_nonneg.
  - intros Hz. rewrite Hz in Hpos. by apply Qclt_not_eq in Hpos.
Qed.

Lemma mean_abs_diff_diag (a : list Qc) :
  a ≠ [] → mean_abs_diff a a = Ok (Fin 0).
Proof.
  intros Hne. unfold mean_abs_diff. rewrite np_sub_same_length by done. simpl.
  rewrite zip_with_minus_diag. unfold np_abs. rewrite fmap_replicate.
  rewrite (Qcabs_pos 0) by done.
  destruct a as [|x a]; [done|]. unfold np_mean.
  change (replicate (length (x :: a)) 0) with (0 :: replicate (length a) 0).
  cbv iota. do 2 f_equal.
  change (0 :: replicate (length a) 0) with (replicate (S (length a)) 0).
  rewrite np_sum_replicate. unfold Qcdiv. ring.
Qed.

(** A decision is stable: taken again on its own outcome, it reuses. *)
Lemma reuse_or_rebuild_stable (measurements new_weights : list Qc)
    (old_kde kde : object FastKDE) (old_weights w : list Qc) (threshold : Qc)
    (next_id next_id' : nat) :
  reuse_or_rebuild measurements new_weights old_kde old_weights threshold next_id
    = Ok (kde, w, next_id') →
  new_weights ≠ [] → 0 < threshold →
  ∀ n, reuse_or_rebuild measurements new_weights kde w threshold n = Ok (kde, w, n).
Proof.
  unfold reuse_or_rebuild.
  destruct (mean_abs_diff new_weights old_weights) as [change|] eqn:Hchange; [|done].
  simpl. destruct (flt change (Fin threshold)) eqn:Hflt.
  - intros [= <- <- <-] _ _ n. by rewrite Hchange; simpl; rewrite Hflt.
  - destruct (FastKDE_new _ _ _) as [new_kde|]; [|done]. simpl.
    intros [= <- <- <-] Hne Hthr n. rewrite mean_abs_diff_diag by done. simpl.
    by rewrite bool_decide_eq_true_2.
Qed.

(** X13: the updater is stable.  When a call returns, a second call with
    the same measurements and posteriors, given the KDEs and weight
    vectors that the first one returned as the current ones, returns
    these very objects and vectors again and builds nothing, for every
    positive [weight_change_threshold]. *)
Theorem update_is_stable (biomarker : string) (participants : list Z)
    (measurements : list Qc) (diseased : list bool)
    (stage_post : gmap Z (list Qc)) (theta_phi_current : gmap string kde_entry)
    (disease_stages : list Z) (curr_order : Z) (weight_change_threshold : Qc)
    (next_id next_id' : nat) (theta_kde' phi_kde' : object FastKDE)
    (theta_weights' phi_weights' : list Qc) :
  update_kde_for_biomarker_em biomarker participants measurements diseased
    stage_post theta_phi_current disease_stages curr_order
    weight_change_threshold next_id
  = Ok (theta_kde', theta_weights', phi_kde', phi_weights', next_id') →
  measurements ≠ [] → 0 < weight_change_threshold →
  update_kde_for_biomarker_em biomarker participants measurements diseased
    stage_post
    (<[biomarker := {| theta_kde := theta_kde'; theta_weights := theta_weights';
                       phi_kde := phi_kde'; phi_weights := phi_weights' |}]>
       theta_phi_current)
    disease_stages curr_order weight_change_threshold next_id'
  = Ok (theta_kde', theta_weights', phi_kde', phi_weights', next_id').
Proof.
  unfold update_kde_for_biomarker_em.
  destruct (em_weights _ _ _ _ _ _) as [[new_theta new_phi]|] eqn:Hem; [|done].
  simpl. unfold dict_get at 1.
  destruct (theta_phi_current !! biomarker) as [current|]; [|done]. simpl.
  destruct (reuse_or_rebuild _ new_theta _ _ _ _) as [[[tk tw] n1]|] eqn:Ht; [|done].
  simpl.
  destruct (reuse_or_rebuild _ new_phi _ _ _ _) as [[[pk pw] n2]|] eqn:Hp; [|done].
  simpl. intros [= <- <- <- <- <-] Hne Hthr.
  unfold dict_get. rewrite lookup_insert_eq. simpl.
  apply em_weights_shape in Hem as [[Hlt Hlp] _].
  rewrite (reuse_or_rebuild_stable _ _ _ _ _ _ _ _ _ Ht); [|by destruct new_theta, measurements|done].
  simpl.
  rewrite (reuse_or_rebuild_stable _ _ _ _ _ _ _ _ _ Hp); [|by destruct new_phi, measurements|done].
  done.
Qed.



(** X15: a threshold that is not positive disables the reuse.  The mean
    absolute difference is never negative, so with
    [weight_change_threshold <= 0] both KDEs are built anew, as two new
    objects, and the new weight vectors are returned. *)
Theorem nonpositive_threshold_always_rebuilds (biomarker : string)
    (participants : list Z) (measurements : list Qc) (diseased : list bool)
    (stage_post : gmap Z (list Qc)) (theta_phi_current : gmap string kde_entry)
    (disease_stages : list Z) (curr_order : Z) (weight_change_threshold : Qc)
    (next_id : nat) (current : kde_entry) (new_theta new_phi : list Qc)
    (theta_change phi_change : float) :
  em_weights participants measurements diseased stage_post disease_stages
    curr_order = Ok (new_theta, new_phi) →
  theta_phi_current !! biomarker = Some current →
  mean_abs_diff new_theta (theta_weights current) = Ok theta_change →
  mean_abs_diff new_phi (phi_weights current) = Ok phi_change →
  measurements ≠ [] →
  weight_change_threshold ≤ 0 →
  ∃ theta_kde' phi_kde' next_id',
    update_kde_for_biomarker_em biomarker participants measurements diseased
      stage_post theta_phi_current disease_stages curr_order
      weight_change_threshold next_id
    = Ok (theta_kde', new_theta, phi_kde', new_phi, next_id') ∧
    FastKDE_new measurements (Some new_theta) Silverman = Ok (value theta_kde') ∧
    FastKDE_new measurements (Some new_phi) Silverman = Ok (value phi_kde') ∧
    (next_id ≤ id theta_kde' < next_id')%nat ∧
    (next_id ≤ id phi_kde' < next_id')%nat ∧
    id theta_kde' ≠ id phi_kde'.
Proof.
  intros Hem Hcur Ht Hp Hne Hthr.
  assert (∀ change a b, mean_abs_diff a b = Ok change →
            flt change (Fin weight_change_threshold) = false) as Hnever.
  { intros change a b Hc.
    destruct (mean_abs_diff_range _ _ _ Hc) as [-> | (q & -> & Hq)]; [done|].
    simpl. apply bool_decide_eq_false_2, Qcle_not_lt. by etrans. }
  unfold update_kde_for_biomarker_em.
  rewrite Hem. simpl. unfold dict_get. rewrite Hcur. simpl.
  destruct (reuse_or_rebuild_spec measurements new_theta (theta_kde current)
              (theta_weights current) weight_change_threshold next_id
              theta_change Ht Hne) as (tk & tw & n1 & -> & Htheta).
  rewrite (Hnever _ _ _ Ht) in Htheta. destruct Htheta as (Hnt & Hidt & -> & ->).
  simpl.
  destruct (reuse_or_rebuild_spec measurements new_phi (phi_kde current)
              (phi_weights current) weight_change_threshold (S next_id)
              phi_change Hp Hne) as (pk & pw & n2 & -> & Hphi).
  rewrite (Hnever _ _ _ Hp) in Hphi. destruct Hphi as (Hnp & Hidp & -> & ->).
  simpl. exists tk, pk, (S (S next_id)).
  split; [done|]. split; [done|]. split; [done|]. lia.
Qed.

(** *** Missing keys *)

Lemma em_weights_from_missing (stage_post : gmap Z (list Qc)) stages curr_order
    (missing : Z) (pd : list (Z * bool)) : ∀ i tw pw,
  (i + length pd ≤ length tw)%nat → (i + length pd ≤ length pw)%nat →
  (∀ q probs, stage_post !! q = Some probs → length probs = length stages) →
  (missing, true) ∈ pd → stage_post !! missing = None →
  em_weights_from i pd stage_post stages curr_order tw pw = Err KeyError.
Proof.
  induction pd as [|[q d] pd IH]; intros i tw pw Htw Hpw Hwf Hin Hnone.
  { by apply elem_of_nil in Hin. }
  simpl in Htw, Hpw.
  assert (∀ (a : list Qc) v, (i < length a)%nat → array_set a i v = Ok (<[i:=v]> a))
    as Hset.
  { intros a v Hi. unfold array_set. by rewrite bool_decide_eq_true_2. }
  simpl. destruct d; simpl.
  - unfold dict_get. destruct (stage_post !! q) as [probs|] eqn:Hq; [|done].
    simpl. unfold masked_sum.
    rewrite !bool_decide_eq_true_2
      by (rewrite length_fmap; symmetry; by eapply Hwf).
    simpl. rewrite !Hset by lia. simpl.
    apply IH; rewrite ?length_insert; [lia|lia|done| |done].
    apply elem_of_cons in Hin as [[= <-]|Hin]; [congruence|done].
  - rewrite Hset by lia. simpl.
    apply IH; rewrite ?length_insert; [lia|lia|done| |done].
    by apply elem_of_cons in Hin as [[=]|Hin].
Qed.

(** X16: missing keys.  With one participant and one disease flag per
    measurement and posteriors of the length of [disease_stages], the
    updater raises [KeyError] when some diseased participant has no entry
    in [stage_post], and when the biomarker has no entry in
    [theta_phi_current]. *)
Theorem missing_keys_raise_KeyError (biomarker : string) (participants : list Z)
    (measurements : list Qc) (diseased : list bool)
    (stage_post : gmap Z (list Qc)) (theta_phi_current : gmap string kde_entry)
    (disease_stages : list Z) (curr_order : Z) (weight_change_threshold : Qc)
    (next_id : nat) :
  length participants = length measurements →
  length diseased = length measurements →
  (∀ q probs, stage_post !! q = Some probs →
     length probs = length disease_stages) →
  ((∃ p, (p, true) ∈ zip participants diseased ∧ stage_post !! p = None) ∨
   theta_phi_current !! biomarker = None) →
  update_kde_for_biomarker_em biomarker participants measurements diseased
    stage_post theta_phi_current disease_stages curr_order
    weight_change_threshold next_id
  = Err KeyError.
Proof.
  intros Hlp Hld Hwf Hmissing. unfold update_kde_for_biomarker_em.
  destruct (decide (Exists (λ pd : Z * bool, pd.2 = true ∧ stage_post !! pd.1 = None)
                      (zip participants diseased))) as [Hex|Hall].
  - apply Exists_exists in Hex as ([p d] & Hin & Hd & Hnone).
    simpl in Hd, Hnone. subst d. unfold em_weights.
    rewrite (em_weights_from_missing _ _ _ p); [done|..|done|done|done];
      rewrite length_replicate, length_zip; lia.
  - rewrite <- Forall_Exists_neg, Forall_forall in Hall.
    destruct Hmissing as [(p & Hin & Hnone)|Hnone].
    { by destruct (Hall (p, true) Hin). }
    destruct (em_weights _ _ _ _ _ _) as [nw|e] eqn:Hem; simpl.
    + unfold dict_get. by rewrite Hnone.
    + exfalso. unfold em_weights in Hem.
      pose proof (em_weights_from_spec stage_post disease_stages curr_order
                    (zip participants diseased) [] [] (length measurements)
                    eq_refl) as Hloop.
      simpl in Hloop. rewrite Hloop in Hem; [done|rewrite length_zip; lia|].
      intros q Hq. destruct (stage_post !! q) as [probs|] eqn:Hpost.
      * exists probs. split; [done|]. by eapply Hwf.
      * by destruct (Hall (q, true) Hq).
Qed.

End WithNumPy.
End UpdaterExtras.

(** ** The likelihood evaluator, further *)

Module EvaluatorExtras.
Import FastKde EvaluateFacts UpdaterFacts EvaluatorFacts.

Section WithNumPy.
Context `{!NumPy}.

(** A loop whose only exception is [e] raises it when some element does. *)
Lemma mapM_Err {A B} (f : A → result B) (e : exn) (l : list A) :
  (∀ a, a ∈ l → is_Ok (f a) ∨ f a = Err e) →
  (∃ a, a ∈ l ∧ f a = Err e) →
  mapM f l = Err e.
Proof.
  induction l as [|a l IH]; intros Hall (b & Hin & Hb).
  { by apply elem_of_nil in Hin. }
  rewrite mapM_cons_result.
  destruct (Hall a) as [[y Hy]| ->]; [apply list_elem_of_here| |done].
  rewrite Hy. simpl. rewrite IH; [done| |].
  - intros c Hc. apply Hall. by apply list_elem_of_further.
  - exists b. split; [|done].
    apply elem_of_cons in Hin as [->|Hin]; [congruence|done].
Qed.

(** Every biomarker has its index. *)
Lemma bio_indices_Ok (biomarkers : list string) :
  mapM (dict_get (index_dict (np_unique biomarkers))) biomarkers
  = Ok ((λ b, default 0%nat (index_dict (np_unique biomarkers) !! b)) <$> biomarkers).
Proof.
  apply mapM_pointwise. intros b Hb.
  apply (proj2 (np_unique_elem_of biomarkers b)) in Hb.
  apply list_elem_of_lookup_1 in Hb as [i Hi].
  unfold dict_get.
  by rewrite (index_dict_lookup _ b i (np_unique_NoDup biomarkers) Hi).
Qed.

(** X17: the errors of the likelihood evaluator.  With no biomarker at
    all, [compute_ln_likelihood_kde_fast] raises the [ValueError] of
    [max()] on an empty sequence, whatever the other arguments; with a
    biomarker that has no entry in [kde_dict] it raises [KeyError]. *)
Theorem likelihood_errors (measurements : list Qc) (S_n : Z)
    (biomarkers : list string) (k_j : list Z) (kde_dict : gmap string kde_entry) :
  (biomarkers = [] →
     compute_ln_likelihood_kde_fast measurements S_n biomarkers k_j kde_dict
     = Err (ValueError "max() arg is an empty sequence")) ∧
  ((∃ b, b ∈ biomarkers ∧ kde_dict !! b = None) →
     compute_ln_likelihood_kde_fast measurements S_n biomarkers k_j kde_dict
     = Err KeyError).
Proof.
  split.
  - by intros ->.
  - intros (b & Hb & Hnone).
    unfold compute_ln_likelihood_kde_fast, kde_arrays.
    rewrite bio_indices_Ok. simpl.
    rewrite (mapM_Err (λ b, entry ← dict_get kde_dict b;
                             Ok (length (data (value (theta_kde entry)))))
               KeyError); [done| |].
    + intros a _. unfold dict_get. destruct (kde_dict !! a); [left|by right].
      by eexists.
    + exists b. split; [by apply np_unique_elem_of|].
      unfold dict_get. by rewrite Hnone.
Qed.

(** The value of the likelihood on well-formed input. *)
Lemma likelihood_value (measurements : list Qc) (S_n : Z)
    (biomarkers : list string) (k_j : list Z) (kde_dict : gmap string kde_entry) :
  measurements ≠ [] →
  length biomarkers = length measurements → length k_j = length measurements →
  kde_dict_wf kde_dict biomarkers →
  compute_ln_likelihood_kde_fast measurements S_n biomarkers k_j kde_dict
    = Ok (Fin (np_sum (floored_log <$>
                        (measurement_density S_n kde_dict <$>
                           zip (zip measurements biomarkers) k_j)))).
Proof.
  intros Hne Hlb Hlk Hwf.
  assert (biomarkers ≠ []) as Hbne.
  { destruct biomarkers; [|done]. by destruct measurements. }
  destruct (kde_arrays_spec S_n biomarkers k_j kde_dict Hbne Hwf)
    as (idx & D & W & B & width & Harrays & Hrows).
  unfold compute_ln_likelihood_kde_fast. rewrite Harrays. simpl.
  unfold _compute_kde_logpdf.
  rewrite (_compute_kde_logpdf_from_spec _ _ _ _ _ _ 0 (Fin 0)
             (measurement_density S_n kde_dict <$>
                zip (zip measurements biomarkers) k_j)).
  - rewrite foldl_add_log_pdf. do 2 f_equal. ring.
  - rewrite length_fmap, !length_zip. lia.
  - intros j x d Hx Hd. simpl.
    rewrite list_lookup_fmap in Hd.
    destruct (zip (zip measurements biomarkers) k_j !! j) as [[[x' b] k]|] eqn:Hz;
      [|done].
    simpl in Hd. injection Hd as <-.
    apply lookup_zip_with_Some in Hz as (xb & k' & [= <- <-] & Hxb & Hk).
    apply lookup_zip_with_Some in Hxb as (x'' & b' & [= <- <-] & Hx' & Hb).
    rewrite Hx in Hx'. injection Hx' as <-.
    destruct (Hwf b) as (entry & Hentry & Hlt & Hlp).
    { by eapply list_elem_of_lookup_2. }
    destruct (Hrows j b entry Hb Hentry)
      as (ix & Hix & Hdt & Hwt & Hdp & Hwp & Hbw).
    unfold measurement_density. simpl. rewrite Hentry.
    by eapply measurement_pdf_spec.
Qed.

(** X18: what the likelihood evaluator reads of [kde_dict].  The result
    depends on the samples and weights of the two KDEs of each biomarker
    and on the bandwidth of its theta KDE only: two dictionaries that
    agree on these give the same log likelihood, whatever the bandwidth
    of the phi KDEs, the caches and the stored weight vectors are. *)
Theorem likelihood_reads_only_samples_weights_and_theta_bandwidth
    (measurements : list Qc) (S_n : Z) (biomarkers : list string) (k_j : list Z)
    (kde_dict kde_dict' : gmap string kde_entry) :
  measurements ≠ [] →
  length biomarkers = length measurements → length k_j = length measurements →
  kde_dict_wf kde_dict biomarkers →
  (∀ b, b ∈ biomarkers →
     ∃ entry entry',
       kde_dict !! b = Some entry ∧ kde_dict' !! b = Some entry' ∧
       data (value (theta_kde entry')) = data (value (theta_kde entry)) ∧
       weights (value (theta_kde entry')) = weights (value (theta_kde entry)) ∧
       bandwidth (value (theta_kde entry')) = bandwidth (value (theta_kde entry)) ∧
       data (value (phi_kde entry')) = data (value (phi_kde entry)) ∧
       weights (value (phi_kde entry')) = weights (value (phi_kde entry))) →
  compute_ln_likelihood_kde_fast measurements S_n biomarkers k_j kde_dict'
  = compute_ln_likelihood_kde_fast measurements S_n biomarkers k_j kde_dict.
Proof.
  intros Hne Hlb Hlk Hwf Hagree.
  assert (kde_dict_wf kde_dict' biomarkers) as Hwf'.
  { intros b Hb. destruct (Hwf b Hb) as (e & He & Ht & Hp).
    destruct (Hagree b Hb) as (e0 & e' & He0 & He' & Hdt & Hwt & _ & Hdp & Hwp).
    rewrite He in He0. injection He0 as <-.
    exists e'. split; [done|]. by rewrite Hdt, Hwt, Hdp, Hwp. }
  rewrite !likelihood_value by done.
  apply (f_equal (λ l, Ok (Fin (np_sum (floored_log <$> l))))).
  apply list_fmap_ext. intros i [[x b] k] Hi.
  apply lookup_zip_with_Some in Hi as (xb & k' & [= <- <-] & Hxb & Hk).
  apply lookup_zip_with_Some in Hxb as (x'' & b' & [= <- <-] & Hx' & Hb).
  destruct (Hagree b) as (e & e' & He & He' & Hdt & Hwt & Hbw & Hdp & Hwp).
  { by eapply list_elem_of_lookup_2. }
  unfold measurement_density. simpl. rewrite He, He'.
  unfold selected_density, selected_kde.
  case_bool_decide; by rewrite ?Hdt, ?Hwt, ?Hbw, ?Hdp, ?Hwp.
Qed.

End WithNumPy.
End EvaluatorExtras.

(** ** The initial estimates *)

Module InitialFacts.
Import FastKde EvaluateFacts UpdaterFacts EvaluatorFacts ConstructorFacts.

Section Unique.
Context {A : Type} `{EqDecision A}.

Lemma pd_unique_elem_of (l : list A) a : a ∈ pd_unique l ↔ a ∈ l.
Proof.
  induction l as [|b l IH]; [done|]. simpl.
  rewrite !elem_of_cons, list_elem_of_filter, IH.
  destruct (decide (a = b)); tauto.
Qed.

Lemma pd_unique_NoDup (l : list A) : NoDup (pd_unique l).
Proof.
  induction l as [|b l IH]; simpl; [constructor|].
  constructor; [|by apply NoDup_filter].
  rewrite list_elem_of_filter. by intros [? _].
Qed.
End Unique.

Section WithNumPy.
Context `{!NumPy} `{!Frame}.
Implicit Types (data : list row) (bios : list string)
  (estimates : gmap string kde_entry) (printed : list (string * nat)).

Lemma FastKDE_new_default (samples : list Qc) :
  FastKDE_new samples None Silverman
  = if bool_decide (samples = []) then Err ZeroDivisionError
    else Ok {| FastKde.data := samples;
               weights := uniform (length samples);
               bandwidth :=
                 py_max (np_std samples) (qc 1 1000000)
                 * fifth_root (qc 4 1 / (qc 3 1 * of_nat (length samples)));
               tree := samples; _cache := ∅ |}.
Proof.
  unfold FastKDE_new. rewrite uniform_weights.
  destruct samples as [|x samples]; [done|].
  rewrite (bool_decide_eq_false_2 (length (x :: samples) = 0%nat)) by done.
  by rewrite (bool_decide_eq_false_2 (x :: samples = [])) by done.
Qed.

(** The entry that the loop stores for a biomarker whose clusters are
    [clusters], with the identities [i] and [S i]. *)
Abbreviation initial_entry data_size clusters i :=
  {| theta_kde :=
       {| id := i;
          value := {| FastKde.data := clusters.1;
                      weights := uniform (length clusters.1);
                      bandwidth :=
                        py_max (np_std clusters.1) (qc 1 1000000)
                        * fifth_root (qc 4 1 / (qc 3 1 * of_nat (length clusters.1)));
                      tree := clusters.1; _cache := ∅ |} |};
     theta_weights := uniform data_size;
     phi_kde :=
       {| id := S i;
          value := {| FastKde.data := clusters.2;
                      weights := uniform (length clusters.2);
                      bandwidth :=
                        py_max (np_std clusters.2) (qc 1 1000000)
                        * fifth_root (qc 4 1 / (qc 3 1 * of_nat (length clusters.2)));
                      tree := clusters.2; _cache := ∅ |} |};
     phi_weights := uniform data_size |}.

Lemma initial_estimates_loop_spec data data_size bios :
  ∀ estimates printed next_id r printed',
    NoDup bios →
    initial_estimates_loop data data_size bios estimates printed next_id
      = (r, printed') →
    match r with
    | Ok (estimates', next_id') =>
        printed' = printed ++
          ((λ b, (b, length (rows_of data b))) <$>
             filter (λ b, length (rows_of data b) < 5)%nat bios) ∧
        (next_id ≤ next_id')%nat ∧
        (∀ b, b ∉ bios ∨ (length (rows_of data b) < 5)%nat →
           estimates' !! b = estimates !! b) ∧
        (∀ b, b ∈ bios → (5 ≤ length (rows_of data b))%nat →
           ∃ clusters i,
             get_two_clusters_with_kmeans (rows_of data b) = Ok clusters ∧
             clusters.1 ≠ [] ∧ clusters.2 ≠ [] ∧
             (next_id ≤ i ∧ S i < next_id')%nat ∧
             estimates' !! b = Some (initial_entry data_size clusters i))
    | Err e =>
        ∃ b, b ∈ bios ∧ (5 ≤ length (rows_of data b))%nat ∧
          (get_two_clusters_with_kmeans (rows_of data b) = Err e ∨
           ∃ clusters,
             get_two_clusters_with_kmeans (rows_of data b) = Ok clusters ∧
             (clusters.1 = [] ∨ clusters.2 = []) ∧ e = ZeroDivisionError)
    end.
Proof.
  induction bios as [|b bios IH]; intros estimates printed next_id r printed' Hnd;
    simpl.
  { intros [= <- <-]. rewrite app_nil_r.
    split; [done|]. split; [lia|]. split; [done|].
    intros b Hb. by apply elem_of_nil in Hb. }
  apply NoDup_cons in Hnd as [Hb Hnd].
  case_bool_decide as Hlen.
  - intros Hloop. apply IH in Hloop; [|done].
    destruct r as [[estimates' next_id']|e].
    + destruct Hloop as (-> & Hid & Hsame & Hnew).
      rewrite filter_cons_True by done. rewrite fmap_cons, <- app_assoc.
      split; [done|]. split; [done|]. split.
      * intros c [Hc|Hc]; apply Hsame; [left|by right].
        by apply not_elem_of_cons in Hc as [_ ?].
      * intros c Hc Hlc. apply Hnew; [|done].
        apply elem_of_cons in Hc as [->|Hc]; [lia|done].
    + destruct Hloop as (c & Hc & Hlc & Herr). exists c.
      split; [by apply list_elem_of_further|done].
  - destruct (get_two_clusters_with_kmeans (rows_of data b)) as [clusters|e] eqn:Hk;
      simpl; last first.
    { intros [= <- <-]. exists b. split; [apply list_elem_of_here|].
      split; [lia|by left]. }
    rewrite !FastKDE_new_default.
    destruct (decide (clusters.1 = [])) as [H1|H1];
      [rewrite (bool_decide_eq_true_2 _ H1)|rewrite (bool_decide_eq_false_2 _ H1)];
      simpl.
    { intros [= <- <-]. exists b. split; [apply list_elem_of_here|].
      split; [lia|right]. exists clusters. auto. }
    destruct (decide (clusters.2 = [])) as [H2|H2];
      [rewrite (bool_decide_eq_true_2 _ H2)|rewrite (bool_decide_eq_false_2 _ H2)];
      simpl.
    { intros [= <- <-]. exists b. split; [apply list_elem_of_here|].
      split; [lia|right]. exists clusters. auto. }
    rewrite fmap_replicate. fold (uniform data_size).
    intros Hloop. apply IH in Hloop; [|done].
    destruct r as [[estimates' next_id']|e].
    + destruct Hloop as (-> & Hid & Hsame & Hnew).
      rewrite filter_cons_False by done.
      split; [done|]. split; [lia|]. split.
      * intros c Hc. rewrite Hsame.
        -- apply lookup_insert_ne. intros <-. destruct Hc as [Hc|Hc]; [|lia].
           apply Hc, list_elem_of_here.
        -- destruct Hc as [Hc|Hc]; [left|by right].
           by apply not_elem_of_cons in Hc as [_ ?].
      * intros c Hc Hlc. apply elem_of_cons in Hc as [->|Hc].
        -- exists clusters, next_id.
           split; [done|]. split; [done|]. split; [done|]. split; [lia|].
           rewrite Hsame by (by left). apply lookup_insert_eq.
        -- destruct (Hnew c Hc Hlc) as (cl & i & ? & ? & ? & ? & ?).
           exists cl, i.
           split; [done|]. split; [done|]. split; [done|]. split; [lia|done].
    + destruct Hloop as (c & Hc & Hlc & Herr). exists c.
      split; [by apply list_elem_of_further|done].
Qed.

Lemma rows_of_length data b :
  (1 ≤ length (rows_of data b))%nat ↔ b ∈ row_biomarker <$> data.
Proof.
  unfold rows_of. rewrite list_elem_of_fmap. split.
  - destruct (filter _ data) as [|r rs] eqn:Hrows; simpl; [lia|]. intros _.
    assert (r ∈ filter (λ r, row_biomarker r = b) data) as Hr
      by (rewrite Hrows; apply list_elem_of_here).
    apply list_elem_of_filter in Hr as [Hb Hr]. by exists r.
  - intros (r & -> & Hr).
    assert (r ∈ filter (λ r', row_biomarker r' = row_biomarker r) data) as Hin
      by (by apply list_elem_of_filter).
    destruct (filter _ data); [by apply elem_of_nil in Hin|simpl; lia].
Qed.

Lemma biomarker_listed data b :
  (1 ≤ length (rows_of data b))%nat → b ∈ pd_unique (row_biomarker <$> data).
Proof. intros Hb. by apply pd_unique_elem_of, rows_of_length. Qed.

(** X19: which biomarkers get an estimate.  When
    [get_initial_kde_estimates] returns, its dictionary has an entry for a
    biomarker exactly when the data set has at least five rows of it; for
    every other biomarker of the data set, in the order of first
    appearance, one line is printed with the number of its rows, which is
    between one and four. *)
Theorem initial_estimates_skip_small_biomarkers data next_id estimates next_id'
    printed :
  get_initial_kde_estimates data next_id = (Ok (estimates, next_id'), printed) →
  (∀ b, is_Some (estimates !! b) ↔ (5 ≤ length (rows_of data b))%nat) ∧
  printed = (λ b, (b, length (rows_of data b))) <$>
              filter (λ b, length (rows_of data b) < 5)%nat
                     (pd_unique (row_biomarker <$> data)) ∧
  Forall (λ line, 1 ≤ line.2 < 5)%nat printed.
Proof.
  unfold get_initial_kde_estimates. intros Hloop.
  apply initial_estimates_loop_spec in Hloop as (-> & _ & Hsame & Hnew);
    [|apply pd_unique_NoDup].
  split; [|split; [done|]].
  - intros b. destruct (decide (5 ≤ length (rows_of data b))%nat) as [Hb|Hb].
    + split; [done|]. intros _.
      destruct (Hnew b) as (clusters & i & _ & _ & _ & _ & ->); [|done..].
      apply biomarker_listed. lia.
    + rewrite Hsame by (right; lia). rewrite lookup_empty. split; [by intros []|lia].
  - simpl. apply Forall_fmap, Forall_forall. intros b Hb. simpl.
    apply list_elem_of_filter in Hb as [Hlt Hb].
    apply pd_unique_elem_of, rows_of_length in Hb. lia.
Qed.

(** X20: the initial estimate of a biomarker.  The two KDEs of an entry
    are built on the two clusters that k-means returns for the rows of
    the biomarker, neither of them empty, each with uniform weights over
    its own samples.  The two stored weight vectors are equal: the uniform
    distribution over the participants of the whole data set, of sum one.
    The two KDEs are two new objects. *)
Theorem initial_estimates_entries data next_id estimates next_id' printed b entry :
  get_initial_kde_estimates data next_id = (Ok (estimates, next_id'), printed) →
  estimates !! b = Some entry →
  ∃ clusters,
    get_two_clusters_with_kmeans (rows_of data b) = Ok clusters ∧
    clusters.1 ≠ [] ∧ clusters.2 ≠ [] ∧
    FastKde.data (value (theta_kde entry)) = clusters.1 ∧
    FastKde.data (value (phi_kde entry)) = clusters.2 ∧
    weights (value (theta_kde entry)) = uniform (length clusters.1) ∧
    weights (value (phi_kde entry)) = uniform (length clusters.2) ∧
    theta_weights entry
      = uniform (length (pd_unique (row_participant <$> data))) ∧
    phi_weights entry = theta_weights entry ∧
    np_sum (theta_weights entry) = 1 ∧
    (next_id ≤ id (theta_kde entry) < next_id')%nat ∧
    (next_id ≤ id (phi_kde entry) < next_id')%nat ∧
    id (theta_kde entry) ≠ id (phi_kde entry).
Proof.
  unfold get_initial_kde_estimates. intros Hloop Hentry.
  apply initial_estimates_loop_spec in Hloop as (_ & _ & Hsame & Hnew);
    [|apply pd_unique_NoDup].
  destruct (decide (5 ≤ length (rows_of data b))%nat) as [Hb|Hb]; last first.
  { rewrite Hsame, lookup_empty in Hentry by (right; lia). done. }
  destruct (Hnew b) as (clusters & i & Hk & H1 & H2 & Hi & Hb');
    [apply biomarker_listed; lia|done|].
  rewrite Hentry in Hb'. injection Hb' as ->. simpl.
  exists clusters. repeat split; [done..| |lia|lia|lia|lia|lia].
  apply uniform_sum.
  assert (data ≠ []) as Hne.
  { intros ->. simpl in Hb. lia. }
  destruct data; [done|simpl; lia].
Qed.

(** X21: the errors of [get_initial_kde_estimates].  It raises only what
    k-means raises on a biomarker of at least five rows, or
    [ZeroDivisionError] when k-means returns an empty cluster for one;
    when k-means returns two non-empty clusters for every such biomarker
    it returns. *)
Theorem initial_estimates_errors data next_id :
  (∀ e printed, get_initial_kde_estimates data next_id = (Err e, printed) →
     ∃ b, (5 ≤ length (rows_of data b))%nat ∧
       (get_two_clusters_with_kmeans (rows_of data b) = Err e ∨
        ∃ clusters,
          get_two_clusters_with_kmeans (rows_of data b) = Ok clusters ∧
          (clusters.1 = [] ∨ clusters.2 = []) ∧ e = ZeroDivisionError)) ∧
  ((∀ b, (5 ≤ length (rows_of data b))%nat →
      ∃ clusters, get_two_clusters_with_kmeans (rows_of data b) = Ok clusters ∧
                  clusters.1 ≠ [] ∧ clusters.2 ≠ []) →
     ∃ estimates next_id' printed,
       get_initial_kde_estimates data next_id
       = (Ok (estimates, next_id'), printed)).
Proof.
  assert (∀ e printed, get_initial_kde_estimates data next_id = (Err e, printed) →
            ∃ b, (5 ≤ length (rows_of data b))%nat ∧
              (get_two_clusters_with_kmeans (rows_of data b) = Err e ∨
               ∃ clusters,
                 get_two_clusters_with_kmeans (rows_of data b) = Ok clusters ∧
                 (clusters.1 = [] ∨ clusters.2 = []) ∧ e = ZeroDivisionError))
    as Herr.
  { intros e printed Hloop. unfold get_initial_kde_estimates in Hloop.
    apply initial_estimates_loop_spec in Hloop as (b & _ & Hb & Hwhy);
      [|apply pd_unique_NoDup].
    by exists b. }
  split; [done|]. intros Hgood.
  destruct (get_initial_kde_estimates data next_id) as [[[estimates n']|e] printed]
    eqn:Hrun; [by eexists _, _, _|].
  destruct (Herr e printed eq_refl) as (b & Hb & Hwhy).
  destruct (Hgood b Hb) as (clusters & Hk & H1 & H2).
  destruct Hwhy as [Hfail|(clusters' & Hk' & Hempty & _)]; [congruence|].
  rewrite Hk in Hk'. injection Hk' as <-. by destruct Hempty.
Qed.

End WithNumPy.
End InitialFacts.

(** ** The entry point, further *)

Module RunExtras.
Import Sampler Run RunFacts.

Section WithEnvironment.
Context `{!NumPy} `{!Collaborators} `{!Environment}.

(** The next collaborator of a statement sequence returns or raises. *)
Ltac next_call :=
  match goal with
  | |- context [match ?r with Ok _ => _ | Err _ => _ end] =>
      destruct r eqn:?; cbn [fst snd]
  end.


Ltac all_paths :=
  unfold run_ebm_body, bind, call, logging_info, try_logged, ret;
  repeat next_call.




(** The sampler runs under the name that [run_ebm] was given, if at all. *)
Lemma run_ebm_sampler_effects (data_file algorithm : string) (n_iter n_shuffle : Z)
    (fname_prefix : string) (skip_heatmap skip_traceplot : bool)
    (prior_n prior_v weight_change_threshold : Qc) (log : list effect) :
  ∃ new,
    (run_ebm data_file algorithm n_iter n_shuffle fname_prefix skip_heatmap
       skip_traceplot prior_n prior_v weight_change_threshold log).2
    = log ++ new ∧
    ∀ a n s, RunSampler a n s ∈ new → a = algorithm.
Proof.
  unfold run_ebm. case_bool_decide as Hallowed.
  { exists []. split; [by rewrite app_nil_r|]. intros a n s Hin.
    by apply elem_of_nil in Hin. }
  destruct (run_ebm_body _ _ _ _ _ _ _ _ _ _ _) as [r l] eqn:Hbody.
  assert (∃ new, l = log ++ new ∧
            Forall (λ eff, match eff with
                           | RunSampler a _ _ => a = algorithm
                           | _ => True
                           end) new) as (new & -> & Hnew).
  { revert Hbody.
    destruct skip_heatmap, skip_traceplot; all_paths; intros [= _ <-];
      rewrite <- ?app_assoc; cbn [app];
      (eexists; split; [reflexivity|]); repeat constructor. }
  exists new. split; [by destruct r|]. intros a n s Hin.
  rewrite Forall_forall in Hnew. apply (Hnew _ Hin).
Qed.

End WithEnvironment.
End RunExtras.

(** ** The test script *)

Module TestExtras.
Import Sampler Run RunFacts RunExtras TestScript.

Section WithEnvironment.
Context `{!NumPy} `{!Collaborators} `{!Environment}.

Lemma for_data_files_effects data_dir algorithm data_files : ∀ log,
  ∃ new,
    (for_data_files data_dir algorithm data_files log).2 = log ++ new ∧
    ∀ a n s, RunSampler a n s ∈ new → a = algorithm.
Proof.
  induction data_files as [|data_file data_files IH]; intros log; simpl.
  { exists []. split; [by rewrite app_nil_r|]. intros a n s Hin.
    by apply elem_of_nil in Hin. }
  destruct (run_ebm_sampler_effects (data_dir +:+ "/" +:+ data_file) algorithm
              100 2 "" false false 1 1 (qc 1 100) log) as (new & Hlog & Hnew).
  destruct (run_ebm _ _ _ _ _ _ _ _ _ _ _) as [[res|name|e] log1];
    simpl in Hlog; subst log1; [|by exists new..].
  destruct (IH (log ++ new)) as (new' & -> & Hnew').
  exists (new ++ new'). split; [by rewrite app_assoc|].
  intros a n s Hin. apply elem_of_app in Hin as [Hin|Hin]; eauto.
Qed.

Lemma for_data_files_outcome data_dir algorithm data_files : ∀ log,
  data_files ≠ [] →
  (algorithm ∉ allowed_algorithms →
     for_data_files data_dir algorithm data_files log
     = (InvalidConfiguration algorithm, log)) ∧
  (algorithm ∈ allowed_algorithms →
     ∀ name, (for_data_files data_dir algorithm data_files log).1
             ≠ InvalidConfiguration name).
Proof.
  intros log Hne. split.
  - intros Hno. destruct data_files as [|data_file data_files]; [done|]. simpl.
    unfold run_ebm. by rewrite bool_decide_eq_true_2.
  - intros Hyes name. clear Hne. revert log.
    induction data_files as [|data_file data_files IH]; intros log; [done|].
    simpl. unfold run_ebm. rewrite bool_decide_eq_false_2 by (by intros []).
    destruct (run_ebm_body _ _ _ _ _ _ _ _ _ _ _) as [[r|e] l]; [|done].
    apply IH.
Qed.

(** X24: the test script.  With no data file its loops do nothing.  With
    at least one it never completes: it ends with the [ValueError] of the
    guard of [run_ebm] for ['soft_kmeans'], unless a run for
    ['hard_kmeans'] raised before; so the sampler is never run for
    ['soft_kmeans'] nor for ['conjugate_priors']. *)
Theorem test_script_stops_at_soft_kmeans (cwd : string) (data_files : list string)
    (log : list effect) :
  (data_files = [] → test cwd data_files log = (Returned (), log)) ∧
  (data_files ≠ [] →
     ((test cwd data_files log).1 = InvalidConfiguration "soft_kmeans" ∨
      ∃ e, (test cwd data_files log).1 = Propagated e) ∧
     ∃ new, (test cwd data_files log).2 = log ++ new ∧
       ∀ a n s, RunSampler a n s ∈ new → a = "hard_kmeans").
Proof.
  split; [by intros ->|]. intros Hne. unfold test. simpl.
  set (data_dir := cwd +:+ "/alabEBM/tests/my_data").
  destruct (for_data_files_effects data_dir "hard_kmeans" data_files log)
    as (new & Hlog & Hnew).
  destruct (for_data_files_outcome data_dir "hard_kmeans" data_files log Hne)
    as [_ Hvalid].
  destruct (for_data_files data_dir "hard_kmeans" data_files log)
    as [[res|name|e] log1]; simpl in Hlog; subst log1.
  - destruct (for_data_files_outcome data_dir "soft_kmeans" data_files
                (log ++ new) Hne) as [-> _].
    + simpl. split; [by left|]. by exists new.
    + intros Hin. apply allowed_algorithms_names in Hin.
      by repeat (apply elem_of_cons in Hin as [?|Hin]; [done|]);
        apply elem_of_nil in Hin.
  - exfalso. apply (Hvalid ltac:(by apply allowed_algorithms_names,
                                  list_elem_of_here) name). done.
  - simpl. split; [right; by exists e|]. by exists new.
Qed.

End WithEnvironment.
End TestExtras.

(** ** The further statements at concrete inputs *)

Module ExtraWitnesses.
Import Sampler SamplerFacts SamplerExtras Fixtures.

Lemma traces_follow_the_chain_witness :
  ∃ orders lls,
    metropolis_hastings toy_data 3 2 "conjugate_priors" 1 2 0%nat
      = Ok [OrderTrace orders; FloatList lls] ∧
    is_Some (lls !! 1%nat).
Proof.
  destruct (metropolis_hastings_Ok toy_data 3 2 "conjugate_priors" 1 2 0%nat)
    as [t Ht].
  { apply list_elem_of_further, list_elem_of_here. }
  destruct (traces_follow_the_chain toy_data 3 2 "conjugate_priors" 1 2 0%nat t Ht)
    as (orders & lls & -> & Hk).
  destruct (Hk 0%nat ltac:(lia)) as (before & after & _ & _ & _ & _ & Hnext).
  exists orders, lls. split; [exact Ht|].
  rewrite Hnext by lia. eexists. reflexivity.
Defined.

Lemma degenerate_proposals_are_rejected_witness :
  ∃ orders lls,
    metropolis_hastings toy_data 3 2 "mle" 1 2 0%nat
      = Ok [OrderTrace orders; FloatList lls] ∧
    NaN ∉ lls.
Proof.
  destruct (metropolis_hastings_Ok toy_data 3 2 "mle" 1 2 0%nat) as [t Ht].
  { apply list_elem_of_further, list_elem_of_further, list_elem_of_here. }
  destruct (degenerate_proposals_are_rejected toy_data 3 2 "mle" 1 2 0%nat)
    as (_ & _ & Hret).
  destruct (Hret t Ht) as (orders & lls & -> & Hnan).
  exists orders, lls. split; [exact Ht | exact Hnan].
Defined.

Lemma unimplemented_model_never_moves_witness :
  metropolis_hastings toy_data 0 2 "kde" 1 2 0%nat
  = Ok [OrderTrace []; FloatList []].
Proof.
  destruct (unimplemented_model_never_moves toy_data 0 2 "kde" 1 2 0%nat)
    as (_ & Hzero & _).
  - unfold implemented. intros Hin.
    by repeat (apply elem_of_cons in Hin as [?|Hin]; [done|]);
      apply elem_of_nil in Hin.
  - apply Hzero. lia.
Defined.

Lemma baseline_keeps_the_parameters_witness :
  ∃ st, loop toy_data 3 2 "hard_kmeans" 1 2 2 0 (initial_state toy_data 0%nat)
        = Ok st ∧
        current_theta_phi st = 0%Z.
Proof.
  destruct (loop_Ok toy_data 3 2 "hard_kmeans" 1 2 2 0
              (initial_state toy_data 0%nat)) as [st Hst].
  { apply list_elem_of_here. }
  exists st. split; [exact Hst|].
  exact (proj1 (baseline_keeps_the_parameters toy_data 3 2 "hard_kmeans" 1 2
                  0%nat 2 st eq_refl Hst)).
Defined.

Lemma progress_log_witness :
  ∃ st, final_state toy_data 20 2 "hard_kmeans" 1 2 0%nat = Ok st ∧
        length (logged st) = 2%nat.
Proof.
  destruct (loop_Ok toy_data 20 2 "hard_kmeans" 1 2 (Z.to_nat 20) 0
              (initial_state toy_data 0%nat)) as [st Hst].
  { apply list_elem_of_here. }
  exists st. split; [exact Hst|].
  destruct (progress_log toy_data 20 2 "hard_kmeans" 1 2 0%nat st Hst)
    as (Hlen & _).
  specialize (Hlen ltac:(lia)).
  change (20 `div` Z.max 10 (20 `div` 10))%Z with 2%Z in Hlen. lia.
Defined.

Import FastKde UpdaterFacts EvaluatorFacts EvaluateFacts KdeWitnesses.
Import WindowFacts ConstructorFacts LogpdfFacts UpdaterExtras EvaluatorExtras
  InitialFacts.

Lemma toy_cache_consistent (samples ws : list Qc) (bw : Qc) :
  cache_consistent (kde_of samples ws bw) (_cache (kde_of samples ws bw)).
Proof. intros x v Hx. simpl in Hx. by rewrite lookup_empty in Hx. Defined.

Lemma evaluate_sums_the_window_witness :
  (evaluate (kde_of [1; qc 2 1] [qc 1 2; qc 1 2] 1) [1; qc 9 1]).1
  = Ok (truncated_density (kde_of [1; qc 2 1] [qc 1 2; qc 1 2] 1)
          <$> [1; qc 9 1]).
Proof.
  destruct (evaluate_sums_the_window (kde_of [1; qc 2 1] [qc 1 2; qc 1 2] 1)
              [1; qc 9 1] eq_refl eq_refl (toy_cache_consistent _ _ _))
    as [Heval _].
  exact Heval.
Defined.

Lemma evaluate_agrees_with_batch_witness :
  (evaluate (kde_of [1; qc 2 1] [qc 1 2; qc 1 2] 1) [1; qc 3 1]).1
  = Ok (batch_weighted_kde_evaluate [1; qc 3 1] [1; qc 2 1] [qc 1 2; qc 1 2] 1).
Proof.
  apply (evaluate_agrees_with_batch (kde_of [1; qc 2 1] [qc 1 2; qc 1 2] 1)
           [1; qc 3 1] eq_refl eq_refl (toy_cache_consistent _ _ _)).
  intros x s Hx Hs. simpl in Hs.
  repeat (apply elem_of_cons in Hx as [->|Hx]);
    [..|by apply elem_of_nil in Hx];
    repeat (apply elem_of_cons in Hs as [->|Hs]);
    try (by apply elem_of_nil in Hs); by vm_compute.
Defined.

Lemma constructor_normalizes_weights_witness :
  ∃ self, FastKDE_new [1; qc 2 1] (Some [1; qc 3 1]) (Bandwidth 1) = Ok self ∧
          np_sum (weights self) = 1.
Proof.
  destruct (FastKDE_new [1; qc 2 1] (Some [1; qc 3 1]) (Bandwidth 1))
    as [self|e] eqn:Hnew; [|by vm_compute in Hnew].
  exists self. split; [reflexivity|].
  destruct (constructor_normalizes_weights _ _ _ _ Hnew) as (_ & _ & _ & _ & Hpos & _).
  apply Hpos. by vm_compute.
Defined.

Lemma constructor_bandwidth_witness :
  ∃ self, FastKDE_new [] None (Bandwidth 0) = Ok self ∧
          bandwidth self = qc 1 1000000.
Proof.
  destruct (constructor_bandwidth [] None) as (Hb & _).
  destruct (Hb 0) as (self & Hnew & _ & _ & Hlow).
  exists self. split; [exact Hnew|]. apply Hlow. by vm_compute.
Defined.

Lemma evaluate_keeps_the_cache_bounded_witness :
  (size (_cache (evaluate (kde_of [1; qc 2 1]%Qc [qc 1 2; qc 1 2] 1%Qc)
                   [1; 1]%Qc).2)
   ≤ size (_cache (kde_of [1; qc 2 1]%Qc [qc 1 2; qc 1 2] 1%Qc)) `max` 1000)%nat.
Proof.
  destruct (evaluate_keeps_the_cache_bounded
              (kde_of [1; qc 2 1] [qc 1 2; qc 1 2] 1) [1; 1])
    as (_ & _ & _ & _ & _ & Hsize & _).
  exact Hsize.
Defined.

Lemma logpdf_is_floored_witness :
  ∃ ls, (logpdf (kde_of [1; qc 2 1] [qc 1 2; qc 1 2] 1) [1; qc 9 1]).1 = Ok ls ∧
        length ls = 2%nat.
Proof.
  destruct (logpdf (kde_of [1; qc 2 1] [qc 1 2; qc 1 2] 1) [1; qc 9 1]).1
    as [ls|e] eqn:Hlog; [|by vm_compute in Hlog].
  exists ls. split; [reflexivity|].
  destruct (logpdf_is_floored (kde_of [1; qc 2 1] [qc 1 2; qc 1 2] 1)
              [1; qc 9 1]) as (_ & _ & _ & Hls).
  exact (proj1 (Hls ls Hlog)).
Defined.

Lemma eq_compares_the_estimate_witness :
  FastKDE_eq (kde_of [1; qc 2 1] [qc 1 2; qc 1 2] 1)
    (evaluate (kde_of [1; qc 2 1] [qc 1 2; qc 1 2] 1) [1]).2 = true.
Proof.
  destruct (eq_compares_the_estimate (kde_of [1; qc 2 1] [qc 1 2; qc 1 2] 1)
              (kde_of [1] [1] 1) (kde_of [1] [1] 1) [1])
    as (_ & _ & _ & _ & Heval & _).
  exact Heval.
Defined.

Lemma update_is_stable_witness :
  ∃ tk tw pk pw n',
    update_kde_for_biomarker_em "A" toy_participants toy_measurements
      toy_diseased toy_stage_post toy_kde_dict toy_stages 2 (qc 1 100) 4
    = Ok (tk, tw, pk, pw, n') ∧
    update_kde_for_biomarker_em "A" toy_participants toy_measurements
      toy_diseased toy_stage_post
      (<["A" := {| theta_kde := tk; theta_weights := tw;
                   phi_kde := pk; phi_weights := pw |}]> toy_kde_dict)
      toy_stages 2 (qc 1 100) n'
    = Ok (tk, tw, pk, pw, n').
Proof.
  destruct (update_kde_for_biomarker_em "A" toy_participants toy_measurements
              toy_diseased toy_stage_post toy_kde_dict toy_stages 2 (qc 1 100) 4)
    as [[[[[tk tw] pk] pw] n']|e] eqn:Hup; [|by vm_compute in Hup].
  exists tk, tw, pk, pw, n'. split; [reflexivity|].
  apply (update_is_stable _ _ _ _ _ _ _ _ _ _ _ _ _ _ _ Hup);
    [discriminate | by vm_compute].
Defined.


Lemma nonpositive_threshold_always_rebuilds_witness :
  is_Ok (update_kde_for_biomarker_em "A" toy_participants toy_measurements
           toy_diseased toy_stage_post toy_kde_dict toy_stages 2 0 4).
Proof.
  edestruct (nonpositive_threshold_always_rebuilds "A" toy_participants
               toy_measurements toy_diseased toy_stage_post toy_kde_dict
               toy_stages 2 0 4)
    as (theta & phi & next_id & Hupdate & _).
  - vm_compute. reflexivity.
  - vm_compute. reflexivity.
  - vm_compute. reflexivity.
  - vm_compute. reflexivity.
  - discriminate.
  - by vm_compute.
  - eexists. exact Hupdate.
Defined.

Lemma toy_posteriors_length q probs :
  toy_stage_post !! q = Some probs → length probs = length toy_stages.
Proof.
  unfold toy_stage_post. intros Hq.
  apply lookup_insert_Some in Hq as [[<- <-]|[_ Hq]]; [done|].
  apply lookup_insert_Some in Hq as [[<- <-]|[_ Hq]]; [done|].
  by rewrite lookup_empty in Hq.
Defined.

Lemma missing_keys_raise_KeyError_witness :
  update_kde_for_biomarker_em "Z" toy_participants toy_measurements
    toy_diseased toy_stage_post toy_kde_dict toy_stages 2 (qc 1 100) 4
  = Err KeyError.
Proof.
  apply (missing_keys_raise_KeyError "Z" toy_participants toy_measurements
           toy_diseased toy_stage_post toy_kde_dict toy_stages 2 (qc 1 100) 4
           eq_refl eq_refl toy_posteriors_length).
  right. vm_compute. reflexivity.
Defined.

Lemma likelihood_errors_witness :
  compute_ln_likelihood_kde_fast toy_measurements 2 [] [] toy_kde_dict
  = Err (ValueError "max() arg is an empty sequence").
Proof.
  apply (proj1 (likelihood_errors toy_measurements 2 [] [] toy_kde_dict)).
  reflexivity.
Defined.

Lemma likelihood_reads_only_samples_weights_and_theta_bandwidth_witness :
  compute_ln_likelihood_kde_fast toy_measurements 2 ["A"; "B"; "A"] [1; 2; 3]%Z
    toy_kde_dict_other
  = compute_ln_likelihood_kde_fast toy_measurements 2 ["A"; "B"; "A"] [1; 2; 3]%Z
      toy_kde_dict.
Proof.
  apply (likelihood_reads_only_samples_weights_and_theta_bandwidth
           toy_measurements 2 ["A"; "B"; "A"] [1; 2; 3]%Z toy_kde_dict
           toy_kde_dict_other ltac:(discriminate) eq_refl eq_refl
           toy_kde_dict_wf).
  intros b Hin.
  repeat (apply elem_of_cons in Hin as [->|Hin];
          [eexists _, _; split; [reflexivity|]; split; [reflexivity|];
           repeat split|]).
  by apply elem_of_nil in Hin.
Defined.

Lemma initial_estimates_skip_small_biomarkers_witness :
  ∃ estimates next_id printed,
    get_initial_kde_estimates toy_rows 0 = (Ok (estimates, next_id), printed) ∧
    is_Some (estimates !! "A").
Proof.
  destruct (get_initial_kde_estimates toy_rows 0)
    as [[[estimates next_id]|e] printed] eqn:Hrun; [|by vm_compute in Hrun].
  exists estimates, next_id, printed. split; [reflexivity|].
  destruct (initial_estimates_skip_small_biomarkers _ _ _ _ _ Hrun) as (Hkeys & _).
  apply Hkeys. vm_compute. lia.
Defined.

Lemma initial_estimates_entries_witness :
  ∃ estimates next_id printed entry,
    get_initial_kde_estimates toy_rows 0 = (Ok (estimates, next_id), printed) ∧
    estimates !! "A" = Some entry ∧
    np_sum (theta_weights entry) = 1.
Proof.
  destruct (get_initial_kde_estimates toy_rows 0)
    as [[[estimates next_id]|e] printed] eqn:Hrun; [|by vm_compute in Hrun].
  destruct (estimates !! "A") as [entry|] eqn:HA.
  - exists estimates, next_id, printed, entry.
    split; [reflexivity|]. split; [exact HA|].
    destruct (initial_estimates_entries _ _ _ _ _ _ _ Hrun HA)
      as (clusters & _ & _ & _ & _ & _ & _ & _ & _ & _ & Hsum & _).
    exact Hsum.
  - exfalso. pose proof Hrun as Hvalue. vm_compute in Hvalue.
    injection Hvalue as <- <- <-. vm_compute in HA. discriminate HA.
Defined.

Lemma initial_estimates_errors_witness :
  ∃ estimates next_id printed,
    get_initial_kde_estimates toy_rows 0 = (Ok (estimates, next_id), printed).
Proof.
  apply (proj2 (initial_estimates_errors toy_rows 0)).
  intros b Hb. eexists. split; [reflexivity|]. simpl.
  destruct (rows_of toy_rows b) as [|r1 [|r2 [|r3 rest]]]; simpl in *;
    try lia; done.
Defined.

Import KernelFacts.

Lemma Qc_square_nonneg (y : Qc) : 0 ≤ y * y.
Proof.
  destruct (Qclt_le_dec y 0) as [Hneg|Hpos].
  - replace (y * y) with ((- y) * (- y)) by ring.
    assert (0 ≤ - y) as Hy.
    { change 0 with (- 0). apply Qcopp_le_compat. by apply Qclt_le_weak. }
    by apply Qcmult_nonneg.
  - by apply Qcmult_nonneg.
Qed.

Lemma coarse_exp_nonneg (q : Qc) : 0 ≤ exp_fin q.
Proof.
  simpl. replace (1 + q + q * q / 2) with (((q + 1) * (q + 1) + 1) * / 2)
    by (by field).
  apply Qcmult_nonneg; [|done].
  rewrite <- (Qcplus_0_l 0). apply Qcplus_le_compat; [|done].
  apply Qc_square_nonneg.
Qed.

Lemma densities_are_not_negative_witness :
  ∃ densities,
    (evaluate (kde_of [1; qc 2 1] [qc 1 2; qc 1 2] 1) [1; qc 9 1]).1
      = Ok densities ∧
    Forall (λ d, 0 ≤ d) densities.
Proof.
  destruct (evaluate (kde_of [1; qc 2 1] [qc 1 2; qc 1 2] 1) [1; qc 9 1]).1
    as [densities|e] eqn:Heval; [|by vm_compute in Heval].
  exists densities. split; [reflexivity|].
  apply (densities_are_not_negative (kde_of [1; qc 2 1] [qc 1 2; qc 1 2] 1)
           [1; qc 9 1] densities coarse_exp_nonneg).
  - by vm_compute.
  - repeat constructor; by vm_compute.
  - reflexivity.
  - reflexivity.
  - apply toy_cache_consistent.
  - exact Heval.
Defined.

Import Run RunFacts RunExtras TestScript TestExtras.



Lemma test_script_stops_at_soft_kmeans_witness :
  (test "." ["a.csv"] []).1 = InvalidConfiguration "soft_kmeans" ∨
  ∃ e, (test "." ["a.csv"] []).1 = Propagated e.
Proof.
  destruct (test_script_stops_at_soft_kmeans "." ["a.csv"] []) as [_ Hstops].
  exact (proj1 (Hstops ltac:(discriminate))).
Defined.

End ExtraWitnesses.
